(** * LaytonEditor: the virtual filesystem of [formats/filesystem.py]

    A shallow embedding of the outer ROM filesystem ([NintendoDSRom]), of the
    nested PLZ archive ([PlzArchive]) with its binary codec, and of the file
    handles ([RomFile]) that both hand out, followed by the properties of the
    specification that concern them.

    The file has four parts.  The first holds the definitions: the monad
    of Python methods, the byte streams, the archive, paths, the folder tree,
    the world of objects around a ROM and the methods of [NintendoDSRom]
    that work on files and folders.  The second holds the lemmas about
    them.  The third states the properties [C1] to [C10] of the
    specification.  The fourth states further properties of the methods:
    what a name stands for before and after a change, what a handle reads
    and writes, and what the folder methods do to the tree. *)

From Stdlib Require Import ZArith NArith Lia String Ascii.
From Stdlib Require Import Strings.Byte.
From stdpp Require Import base option list gmap strings.

Local Open Scope nat_scope.
Set Warnings "-register-all".

(** ** Exceptions and the state-and-exception monad

    Python code either returns, raises, or keeps looping.  Every modelled
    method is a function from the state before to an outcome and the state
    after, so the state left behind by a raised exception stays visible. *)

Inductive exn :=
  | ValueError | FileNotFoundError | KeyError | IndexError | AttributeError
  | AssertionError | StructError | UnicodeError | TypeError.

Inductive res (A : Type) :=
  | Ok (a : A)
  | Raise (e : exn)
  | Loops.
Arguments Ok {A} a.
Arguments Raise {A} e.
Arguments Loops {A}.

Definition M (S A : Type) : Type := S -> res A * S.

Definition ret {S A} (a : A) : M S A := fun s => (Ok a, s).
Definition raise {S A} (e : exn) : M S A := fun s => (Raise e, s).
Definition loops {S A} : M S A := fun s => (Loops, s).
Definition bind {S A B} (m : M S A) (k : A -> M S B) : M S B :=
  fun s => match m s with
           | (Ok a, s') => k a s'
           | (Raise e, s') => (Raise e, s')
           | (Loops, s') => (Loops, s')
           end.
Definition gets {S A} (f : S -> A) : M S A := fun s => (Ok (f s), s).
(** The outcome of a call that does not touch the state. *)
Definition lift {S A} (r : res A) : M S A := fun s => (r, s).
Definition modify {S} (f : S -> S) : M S unit := fun s => (Ok tt, f s).

Declare Scope py_scope.
Delimit Scope py_scope with py.
Notation "x <- m ;; k" := (bind m (fun x => k))
  (at level 100, m at next level, right associativity) : py_scope.
Notation "m ;; k" := (bind m (fun _ => k))
  (at level 100, right associativity) : py_scope.
Local Open Scope py_scope.

(** Runs [m] on one component of a pair of states. *)
Definition on_fst {S T A} (m : M S A) : M (S * T) A :=
  fun st => let '(r, s') := m st.1 in (r, (s', st.2)).
Definition on_snd {S T A} (m : M T A) : M (S * T) A :=
  fun st => let '(r, t') := m st.2 in (r, (st.1, t')).

(** [for x in xs: body x]. *)
Fixpoint for_each {S A} (xs : list A) (body : A -> M S unit) : M S unit :=
  match xs with
  | [] => ret tt
  | x :: xs' => body x;; for_each xs' body
  end.

(** [m] keeps the property [P] of the state, however it ends. *)
Definition preserves {S A} (P : S -> Prop) (m : M S A) : Prop :=
  forall s, P s -> P (m s).2.

(** ** Python sequences *)

#[global] Instance byte_eq_dec : EqDecision byte := Byte.byte_eq_dec.

(** [l[i]] for a Python integer: a negative index counts from the end. *)
Definition py_index {A} (l : list A) (i : Z) : option nat :=
  if (0 <=? i)%Z then
    (if (i <? Z.of_nat (length l))%Z then Some (Z.to_nat i) else None)
  else
    (if (- Z.of_nat (length l) <=? i)%Z
     then Some (Z.to_nat (Z.of_nat (length l) + i)) else None).

(** [l.insert(i, x)] for [0 <= i]: positions past the end are clamped. *)
Definition list_insert_at {A} (i : nat) (x : A) (l : list A) : list A :=
  take i l ++ x :: drop i l.

(** [l.index(x)]: position of the first occurrence. *)
Fixpoint list_index {A} `{EqDecision A} (x : A) (l : list A) : option nat :=
  match l with
  | [] => None
  | y :: l' => if decide (x = y) then Some 0 else S <$> list_index x l'
  end.

(** ** Byte streams

    [BinaryReader] and [BinaryWriter] live in [formats/binary.py], which is
    not at hand.  This module stands for them: every definition in it is
    modelled from section 4.2 of the specification and from the calls that
    [read_stream] and [write_stream] make. *)

Module Binary.

(** Modelled from the spec: the stream classes of [formats/binary.py], which
    is absent.  A stream is an in-memory byte buffer with a cursor [c]
    (section 4.2: fields are [u32], taken little-endian as everywhere on
    this platform; the name is stored in a byte encoding and followed by a
    terminator, which is the [+ 1] of the header size). *)
Record stream := Stream { data : list byte; c : nat }.

Definition of_bytes (bs : list byte) : stream := Stream bs 0.

Definition byte_of_N (n : N) : byte := default x00 (Byte.of_N n).

(** Modelled from the spec: the four bytes of a [u32] field, least
    significant first. *)
Definition le_bytes (n : N) : list byte :=
  [ byte_of_N (n mod 256); byte_of_N ((n / 256) mod 256);
    byte_of_N ((n / 65536) mod 256); byte_of_N ((n / 16777216) mod 256) ]%N.

Definition le_value (bs : list byte) : N :=
  foldr (fun b acc => Byte.to_N b + 256 * acc)%N 0%N bs.

(** Modelled from the spec: [seek(pos)] moves the cursor; the buffer grows
    only when something is written. *)
Definition seek (pos : nat) : M stream unit :=
  modify (fun s => Stream (data s) pos).

(** Modelled from the spec: [seek(n, io.SEEK_CUR)]. *)
Definition seek_cur (n : nat) : M stream unit :=
  modify (fun s => Stream (data s) (c s + n)).

(** Modelled from the spec: [read(n)] yields the bytes that are there, at
    most [n] of them. *)
Definition read (n : nat) : M stream (list byte) :=
  fun s => let bs := take n (drop (c s) (data s)) in
           (Ok bs, Stream (data s) (c s + length bs)).

(** Modelled from the spec: [read_uint32()]; fewer than four bytes left is
    an error. *)
Definition read_uint32 : M stream N :=
  bs <- read 4;;
  if decide (length bs = 4) then ret (le_value bs) else raise StructError.

(** Modelled from the spec: the "fixed legacy byte encoding" of the names,
    in its single-byte range, where it agrees with ASCII; the two-byte
    sequences are outside the model and reported as a decoding error. *)
Definition is_ascii (b : byte) : bool := (Byte.to_N b <? 128)%N.

Definition decode_shift_jis (bs : list byte) : option string :=
  if forallb is_ascii bs then Some (string_of_list_byte bs) else None.

Definition encode_ascii (s : string) : option (list byte) :=
  let bs := list_byte_of_string s in
  if forallb is_ascii bs then Some bs else None.

(** The bytes in front of the first NUL. *)
Fixpoint until_nul (bs : list byte) : list byte :=
  match bs with
  | [] => []
  | b :: bs' => if decide (b = x00) then [] else b :: until_nul bs'
  end.

(** Modelled from the spec: [read_string(encoding="shift-jis")] reads up to
    and including the terminator (or up to the end of the buffer). *)
Definition read_string : M stream string :=
  fun s =>
    let rest := drop (c s) (data s) in
    let raw := until_nul rest in
    let s' := Stream (data s) (c s + Nat.min (S (length raw)) (length rest)) in
    match decode_shift_jis raw with
    | Some name => (Ok name, s')
    | None => (Raise UnicodeError, s')
    end.

(** Modelled from the spec: [write(bs)] overwrites at the cursor, growing
    the buffer; a cursor past the end leaves a gap of zero bytes.  Writing
    nothing changes nothing. *)
Definition write (bs : list byte) : M stream unit :=
  modify (fun s =>
    match bs with
    | [] => s
    | _ =>
        let d := data s ++ replicate (c s - length (data s)) x00 in
        Stream (take (c s) d ++ bs ++ drop (c s + length bs) d)
               (c s + length bs)
    end).

(** Modelled from the spec: [write_uint32(n)] and [write_uint8(n)]; a value
    that does not fit the field is an error. *)
Definition write_uint32 (n : nat) : M stream unit :=
  if (N.of_nat n <? 4294967296)%N then write (le_bytes (N.of_nat n))
  else raise StructError.

Definition write_uint8 (n : nat) : M stream unit :=
  if (N.of_nat n <? 256)%N then write [byte_of_N (N.of_nat n)]
  else raise StructError.

(** Modelled from the spec: [write_string(s)] writes the encoded text and
    its terminator. *)
Definition write_string (s : string) : M stream unit :=
  match encode_ascii s with
  | Some bs => write (bs ++ [x00])
  | None => raise UnicodeError
  end.

(** What a read at the cursor sees: the bytes from the cursor on. *)
Definition ahead (s : stream) : list byte := drop (c s) (data s).

(** A name the codec can carry: ASCII text without a NUL character. *)
Definition name_ok (name : string) : Prop :=
  forallb is_ascii (list_byte_of_string name) = true /\
  x00 ∉ list_byte_of_string name.

#[global] Instance name_ok_dec name : Decision (name_ok name).
Proof. unfold name_ok. apply _. Defined.

End Binary.

(** ** The nested archive: [PlzArchive] *)

Module Plz.
Import Binary.

(** A [PlzArchive] object: its two lists.  [read_stream] gives every object
    lists of its own, so the lists of the class, which an object that never
    decoded anything would fall back on, play no part. *)
Record t := Archive { filenames : list string; files : list (list byte) }.

Definition magic : list byte := [x50; x43; x4b; x32].

(** One turn of the [while] loop of [read_stream]. *)
Definition read_record : M (t * stream) unit :=
  start_pos <- on_snd (gets c);;
  file_header_size <- on_snd read_uint32;;
  file_total_size <- on_snd read_uint32;;
  on_snd (seek_cur 4);;
  file_size <- on_snd read_uint32;;
  filename <- on_snd read_string;;
  on_snd (seek (start_pos + N.to_nat file_header_size));;
  file <- on_snd (read (N.to_nat file_size));;
  on_snd (seek (start_pos + N.to_nat file_total_size));;
  on_fst (modify (fun a => Archive (filenames a ++ [filename]) (files a)));;
  on_fst (modify (fun a => Archive (filenames a) (files a ++ [file]))).

(** [while rdr.c < archive_file_size: ...], at most [fuel] turns. *)
Fixpoint read_records (fuel : nat) (archive_file_size : N)
  : M (t * stream) unit :=
  cur <- on_snd (gets c);;
  if (N.of_nat cur <? archive_file_size)%N then
    match fuel with
    | 0 => loops
    | S fuel' => read_record;; read_records fuel' archive_file_size
    end
  else ret tt.

Definition read_stream_rdr (fuel : nat) : M (t * stream) unit :=
  on_fst (modify (fun a => Archive [] (files a)));;
  on_fst (modify (fun a => Archive (filenames a) []));;
  header_size <- on_snd read_uint32;;
  archive_file_size <- on_snd read_uint32;;
  m <- on_snd (read 4);;
  (if decide (m = magic) then ret tt else raise AssertionError);;
  on_snd (seek (N.to_nat header_size));;
  read_records fuel archive_file_size.

(** [read_stream(stream)] on a stream holding [bs]: the outcome and the
    archive object afterwards. *)
Definition read_stream (fuel : nat) (bs : list byte) (self : t)
  : res unit * t :=
  let '(r, (self', _)) := read_stream_rdr fuel (self, of_bytes bs) in
  (r, self').

(** [while wtr.c != target: wtr.write_uint8(0)].  The loop makes
    [target - c] turns when the cursor is not past the target and never
    ends otherwise. *)
Fixpoint pad_loop (fuel : nat) (target : nat) : M stream unit :=
  cur <- gets c;;
  if decide (cur = target) then ret tt
  else match fuel with
       | 0 => loops
       | S fuel' => write_uint8 0;; pad_loop fuel' target
       end.

Definition pad_until (target : nat) : M stream unit :=
  cur <- gets c;; pad_loop (target - cur) target.

(** The body of the [for] loop of [write_stream]. *)
Definition write_record (self : t) (i : nat) : M stream unit :=
  match filenames self !! i, files self !! i with
  | Some name, Some file =>
      let header_size := 16 + String.length name + 1 in
      let header_size := header_size + (4 - header_size mod 4) in
      let total_size := header_size + length file in
      let total_size := total_size + (4 - total_size mod 4) in
      c0 <- gets c;;
      write_uint32 header_size;;
      write_uint32 total_size;;
      write_uint32 0;;
      write_uint32 (length file);;
      write_string name;;
      seek (c0 + header_size);;
      write file;;
      pad_until (c0 + total_size)
  | _, _ => raise IndexError
  end.

Definition write_stream_wtr (self : t) : M stream unit :=
  write_uint32 16;;
  write_uint32 0;;
  write magic;;
  write_uint32 0;;
  for_each (seq 0 (length (files self))) (write_record self);;
  file_size <- gets (fun s => length (data s));;
  seek 4;;
  write_uint32 file_size.

(** [write_stream] into a fresh [BinaryWriter]: the outcome and the bytes
    written. *)
Definition write_stream (self : t) : res unit * list byte :=
  let '(r, s) := write_stream_wtr self (of_bytes []) in (r, data s).

Definition add_file (filename : string) : M t nat :=
  new_file_id <- gets (fun a => length (files a));;
  modify (fun a => Archive (filenames a) (files a ++ [ [] ]));;
  modify (fun a => Archive (filenames a ++ [filename]) (files a));;
  ret new_file_id.

(** [l.pop(index)]. *)
Definition pop {A} (index : nat) (l : list A) : option (list A) :=
  if decide (index < length l) then Some (delete index l) else None.

Definition remove_file (filename : string) : M t unit :=
  names <- gets filenames;;
  match list_index filename names with
  | None => ret tt
  | Some index =>
      fs <- gets files;;
      match pop index fs with
      | None => raise IndexError
      | Some fs' =>
          modify (fun a => Archive (filenames a) fs');;
          modify (fun a => Archive (delete index (filenames a)) (files a))
      end
  end.

Definition rename_file (old_filename new_filename : string) : M t unit :=
  names <- gets filenames;;
  match list_index old_filename names with
  | None => ret tt
  | Some index =>
      modify (fun a => Archive (<[index := new_filename]> (filenames a)) (files a))
  end.

(** [len(filenames) == len(files)]. *)
Definition parallel (a : t) : Prop :=
  length (filenames a) = length (files a).

(** The two sizes the encoder computes for a record. *)
Definition header_size_of (name : string) : nat :=
  let h := 16 + String.length name + 1 in h + (4 - h mod 4).

Definition total_size_of (name : string) (file : list byte) : nat :=
  let t := header_size_of name + length file in t + (4 - t mod 4).

(** The bytes of one record. *)
Definition record_bytes (name : string) (file : list byte) : list byte :=
  le_bytes (N.of_nat (header_size_of name)) ++
  le_bytes (N.of_nat (total_size_of name file)) ++
  le_bytes 0 ++
  le_bytes (N.of_nat (length file)) ++
  (list_byte_of_string name ++ [x00]) ++
  replicate (header_size_of name - (16 + String.length name + 1)) x00 ++
  file ++
  replicate (total_size_of name file - (header_size_of name + length file)) x00.

(** The records of an archive, in order, and the bytes that [write_stream]
    produces for it: header, then the records. *)
Definition body (recs : list (string * list byte)) : list byte :=
  flat_map (fun r => record_bytes r.1 r.2) recs.

Definition records (a : t) : list (string * list byte) :=
  zip (filenames a) (files a).

Definition encoded (a : t) : list byte :=
  le_bytes 16 ++ le_bytes (N.of_nat (16 + length (body (records a)))) ++
  magic ++ le_bytes 0 ++ body (records a).

End Plz.

(** A second definition, following the words of the specification:
    [align4] rounds up to the next multiple of 4 and leaves a multiple of 4
    unchanged. *)
Definition align4 (n : nat) : nat :=
  if decide (n mod 4 = 0) then n else n + (4 - n mod 4).

(** ** Paths *)

Definition slash : ascii := "/"%char.

(** [p[:i], p[i:]] with [i] just past the last slash. *)
Fixpoint split_at_last_slash (p : string) : string * string :=
  match p with
  | EmptyString => (EmptyString, EmptyString)
  | String ch rest =>
      let '(h, t) := split_at_last_slash rest in
      match h with
      | EmptyString =>
          if decide (ch = slash) then (String ch EmptyString, t)
          else (EmptyString, String ch t)
      | _ => (String ch h, t)
      end
  end.

(** [head.rstrip('/')]. *)
Fixpoint rstrip_slash (s : string) : string :=
  match s with
  | EmptyString => EmptyString
  | String ch rest =>
      match rstrip_slash rest with
      | EmptyString => if decide (ch = slash) then EmptyString
                       else String ch EmptyString
      | r => String ch r
      end
  end.

(** [os.path.split]: a head made of slashes only is kept as it is. *)
Definition os_path_split (p : string) : string * string :=
  let '(head, tail) := split_at_last_slash p in
  match rstrip_slash head with
  | EmptyString => (head, tail)
  | stripped => (stripped, tail)
  end.

(** [path.split("/")]. *)
Fixpoint split_slash (s : string) : list string :=
  match s with
  | EmptyString => [EmptyString]
  | String ch rest =>
      if decide (ch = slash) then EmptyString :: split_slash rest
      else match split_slash rest with
           | x :: xs => String ch x :: xs
           | [] => [String ch EmptyString]
           end
  end.

(** [folder_split]: [[x for x in path.split("/") if x]]. *)
Definition folder_split (path : string) : list string :=
  filter (fun x => x <> EmptyString) (split_slash path).

(** A path without an empty piece: not empty, no slash at either end and
    no two slashes in a row. *)
Definition plain (path : string) : Prop := EmptyString ∉ split_slash path.

#[global] Instance plain_dec path : Decision (plain path).
Proof. unfold plain. apply _. Defined.

(** ** The folder tree: [ndspy.fnt.Folder] *)

Module Fnt.

(** A folder object.  [oid] stands for the identity of the Python object,
    which is what [root != folder_add] compares; the other three fields are
    the attributes of the class. *)
Inductive Folder := MkFolder {
  oid : nat;
  firstID : nat;
  files : list string;
  folders : list (string * Folder) }.

(** The child folder of that name, first match. *)
Fixpoint child (name : string) (fds : list (string * Folder)) : option Folder :=
  match fds with
  | [] => None
  | (n, f) :: fds' => if decide (n = name) then Some f else child name fds'
  end.

(** [while not pathList[-1]: pathList = pathList[:-1]]: the empty pieces
    at the end of the list go. *)
Fixpoint strip_empty_end (l : list string) : list string :=
  match l with
  | [] => []
  | x :: xs =>
      match strip_empty_end xs with
      | [] => if decide (x = EmptyString) then [] else [x]
      | r => x :: r
      end
  end.

(** Modelled from the spec: how [idOf] and [subfolder] of the ndspy library,
    whose code is not in the repository, read a path: [path.split('/')]
    without the empty pieces at its end.  The empty path and a path of
    slashes only leave no piece, and [pathList[-1]] raises [IndexError],
    which is [None] here.  Empty pieces elsewhere stay and are looked up as
    names. *)
Definition path_list (path : string) : option (list string) :=
  match strip_empty_end (split_slash path) with
  | [] => None
  | l => Some l
  end.

(** Modelled from the spec: the path resolution of the folder tree, which
    belongs to the ndspy library (section 6: "path resolution returning
    first-ID-of-subtree and ordered child lists").  [subfolder] walks the
    folder names of a list of pieces down from [root], taking the first
    folder of each name. *)
Fixpoint subfolder (path : list string) (root : Folder) : option Folder :=
  match path with
  | [] => Some root
  | p :: rest =>
      match child p (folders root) with
      | Some f => subfolder rest f
      | None => None
      end
  end.

(** Modelled from the spec: [idOf] of the ndspy library, the ID of the file at
    a path: the first ID of its folder plus its position in the folder's
    file list. *)
Fixpoint idOf_path (path : list string) (root : Folder) : option nat :=
  match path with
  | [] => None
  | [name] => (fun i => firstID root + i) <$> list_index name (files root)
  | p :: rest =>
      match child p (folders root) with
      | Some f => idOf_path rest f
      | None => None
      end
  end.

(** Modelled from the spec: [idOf(path)] of the ndspy library: the file ID
    or [None]; [IndexError] for a path without a piece. *)
Definition idOf (file : string) (root : Folder) : res (option nat) :=
  match path_list file with
  | Some l => Ok (idOf_path l root)
  | None => Raise IndexError
  end.

(** Modelled from the spec: [subfolder(path)] of the ndspy library: the
    folder or [None]; [IndexError] for a path without a piece. *)
Definition subfolder_at (path : string) (root : Folder) : res (option Folder) :=
  match path_list path with
  | Some l => Ok (subfolder l root)
  | None => Raise IndexError
  end.

(** Modelled from the spec: [root[key]] of the ndspy library for a string
    key: the file ID when [idOf] finds a file, else the folder that
    [subfolder] finds, else [KeyError]. *)
Definition getitem (key : string) (root : Folder) : res (nat + Folder) :=
  match idOf key root with
  | Ok (Some fid) => Ok (inl fid)
  | Ok None =>
      match subfolder_at key root with
      | Ok (Some f) => Ok (inr f)
      | Ok None => Raise KeyError
      | Raise e => Raise e
      | Loops => Loops
      end
  | Raise e => Raise e
  | Loops => Loops
  end.

(** Modelled from the spec: [filenameOf] of the ndspy library, the path of
    the file with that ID, found depth first. *)
Fixpoint filenameOf (prefix : string) (fid : Z) (root : Folder) : option string :=
  let here :=
    if ((Z.of_nat (firstID root) <=? fid)%Z
        && (fid <? Z.of_nat (firstID root + length (files root)))%Z)%bool
    then (fun n => prefix +:+ n) <$> files root !! (Z.to_nat fid - firstID root)
    else None in
  match here with
  | Some r => Some r
  | None =>
      (fix go (fds : list (string * Folder)) : option string :=
         match fds with
         | [] => None
         | (n, f) :: fds' =>
             match filenameOf (prefix +:+ n +:+ "/") fid f with
             | Some r => Some r
             | None => go fds'
             end
         end) (folders root)
  end.

(** [folder_add.files.append(filename)] on the object [target]. *)
Fixpoint append_file (target : nat) (filename : string) (root : Folder) : Folder :=
  MkFolder (oid root) (firstID root)
    (if decide (oid root = target) then files root ++ [filename] else files root)
    (map (fun fd : string * Folder =>
            let '(n, f) := fd in (n, append_file target filename f))
         (folders root)).

(** [l.remove(x)]: drops the first occurrence. *)
Definition list_remove {A} `{EqDecision A} (x : A) (l : list A) : option (list A) :=
  (fun i => delete i l) <$> list_index x l.

(** [folder.files.remove(filename)] on the object [target]. *)
Fixpoint remove_name (target : nat) (filename : string) (root : Folder) : Folder :=
  MkFolder (oid root) (firstID root)
    (if decide (oid root = target)
     then default (files root) (list_remove filename (files root))
     else files root)
    (map (fun fd : string * Folder =>
            let '(n, f) := fd in (n, remove_name target filename f))
         (folders root)).

(** The local function of [add_file]. *)
Fixpoint increment_first_index_if_needed
    (folder_add : nat) (new_id : nat) (root : Folder) : Folder :=
  MkFolder (oid root)
    (if decide (new_id <= firstID root /\ oid root <> folder_add)
     then firstID root + 1 else firstID root)
    (files root)
    (map (fun fd : string * Folder =>
            let '(n, f) := fd in
            (n, increment_first_index_if_needed folder_add new_id f))
         (folders root)).

(** The local function of [remove_file]. *)
Fixpoint decrement_first_index_if_needed (removed_id : nat) (root : Folder) : Folder :=
  MkFolder (oid root)
    (if decide (removed_id < firstID root)
     then firstID root - 1 else firstID root)
    (files root)
    (map (fun fd : string * Folder =>
            let '(n, f) := fd in
            (n, decrement_first_index_if_needed removed_id f))
         (folders root)).

(** Every folder object of the tree, the root first. *)
Fixpoint nodes (root : Folder) : list Folder :=
  root :: flat_map (fun fd : string * Folder => nodes fd.2) (folders root).

(** The slot IDs a folder's own files stand for. *)
Definition own_ids (f : Folder) : list nat := seq (firstID f) (length (files f)).

(** The slot IDs reachable within the subtree of [root]. *)
Definition subtree_ids (root : Folder) : list nat := flat_map own_ids (nodes root).

(** *** The ID bookkeeping of the folder tree *)

(** The ranges of two folders do not cross: one ends where the other
    begins, or earlier.  For an empty folder this says that its [firstID],
    the place where its first file will go, is not strictly inside the
    other's range. *)
Definition apart (f g : Folder) : Prop :=
  firstID f + length (files f) <= firstID g \/
  firstID g + length (files g) <= firstID f.

(** Well-formed ID bookkeeping: the folder objects are distinct, every
    folder's range lies within the slot list, and the ranges of distinct
    folders do not cross.  Slots that no folder names, as the overlays of
    a ROM, are allowed. *)
Definition wf_ids (nslots : nat) (root : Folder) : Prop :=
  let ns := nodes root in
  NoDup (oid <$> ns) /\
  Forall (fun f => firstID f + length (files f) <= nslots) ns /\
  Forall (fun f => Forall (fun g => oid f = oid g \/ apart f g) ns) ns.

(** The number of files that the folders of a list name. *)
Definition named_files (ns : list Folder) : nat :=
  sum_list (map (fun f => length (files f)) ns).

#[global] Instance apart_dec f g : Decision (apart f g).
Proof. unfold apart. apply _. Defined.

#[global] Instance wf_ids_dec nslots root : Decision (wf_ids nslots root).
Proof. unfold wf_ids. apply _. Defined.

(** The least element of a list of IDs. *)
Definition minimum (l : list nat) : option nat :=
  match l with
  | [] => None
  | x :: xs => Some (foldr Nat.min x xs)
  end.

(** [fid] is the least of [ids], when there is one. *)
Definition least_of (ids : list nat) (fid : nat) : Prop :=
  match minimum ids with
  | Some m => fid = m
  | None => True
  end.

#[global] Instance least_of_dec ids fid : Decision (least_of ids fid).
Proof. unfold least_of. destruct (minimum ids); apply _. Defined.

(** The specification's reading of [firstID]: in every folder whose subtree
    holds a slot, [firstID] is the least slot ID of the subtree. *)
Definition firstID_is_subtree_min (root : Folder) : Prop :=
  Forall (fun f => least_of (subtree_ids f) (firstID f)) (nodes root).

#[global] Instance firstID_is_subtree_min_dec root :
  Decision (firstID_is_subtree_min root).
Proof. unfold firstID_is_subtree_min. apply _. Defined.

(** No folder of the tree has the empty name. *)
Definition no_empty_name (root : Folder) : Prop :=
  Forall (fun f => EmptyString ∉ (folders f).*1) (nodes root).

#[global] Instance no_empty_name_dec root : Decision (no_empty_name root).
Proof. unfold no_empty_name. apply _. Defined.

(** A function that rebuilds every folder of a tree in place. *)
Definition in_place (F : Folder -> Folder) : Prop :=
  forall t, folders (F t) =
            map (fun fd : string * Folder => let '(n, f) := fd in (n, F f)) (folders t).

(** [wf_ids] in terms of membership. *)
Definition wf_nodes (n : nat) (ns : list Folder) : Prop :=
  NoDup (oid <$> ns) /\
  (forall f, f ∈ ns -> firstID f + length (files f) <= n) /\
  (forall f g, f ∈ ns -> g ∈ ns -> oid f = oid g \/ apart f g).

(** What [add_file] does to one folder object. *)
Definition added (target new_id : nat) (name : string) (f : Folder) : Folder :=
  increment_first_index_if_needed target new_id (append_file target name f).

(** What [remove_file] does to one folder object. *)
Definition removed (target removed_id : nat) (name : string) (f : Folder) : Folder :=
  decrement_first_index_if_needed removed_id (remove_name target name f).

End Fnt.

(** ** File handles and the outer filesystem *)

Inductive operation := op_r | op_w | op_a.

#[global] Instance operation_eq_dec : EqDecision operation.
Proof. solve_decision. Defined.

(** The [archive] attribute of a handle: the ROM or a PLZ archive object. *)
Inductive owner := OwnerRom | OwnerPlz (a : nat).

(** A [RomFile] object: an [io.BytesIO] with the attributes [archive], [id]
    and [opp]; [value] is the buffer ([getvalue()]). *)
Record RomFile := MkRomFile {
  archive : owner;
  id : Z;
  opp : operation;
  closed : bool;
  value : list byte }.

(** What [open] hands back: the handle itself, or an [io.TextIOWrapper]
    around it. *)
Inductive opened := Binary_file (fp : nat) | Text_file (fp : nat).

(** The [file] argument of [open]. *)
Inductive file_arg := By_path (path : string) | By_id (fileid : Z).

(** [re.findall(r"^([rwa])(b?)(\+?)$", mode)]: operation, [b], [+].  [$]
    also matches in front of a final newline. *)
Definition parse_mode (mode : string) : option (operation * bool * bool) :=
  match mode with
  | String o rest =>
      let op := if decide (o = "r"%char) then Some op_r
                else if decide (o = "w"%char) then Some op_w
                else if decide (o = "a"%char) then Some op_a
                else None in
      let flags (s : string) : option (bool * bool) :=
        let nl := String "010"%char EmptyString in
        if decide (s = "" \/ s = nl) then Some (false, false)
        else if decide (s = "b" \/ s = "b" +:+ nl) then Some (true, false)
        else if decide (s = "+" \/ s = "+" +:+ nl) then Some (false, true)
        else if decide (s = "b+" \/ s = "b+" +:+ nl) then Some (true, true)
        else None in
      match op, flags rest with
      | Some op, Some (b, plus) => Some (op, b, plus)
      | _, _ => None
      end
  | EmptyString => None
  end.

Module Rom.

(** The attributes of a [NintendoDSRom] object that the filesystem code
    uses.  [files] and [filenames] come from the ndspy base class. *)
Record t := MkRom {
  files : list (list byte);
  filenames : Fnt.Folder;
  _opened_files : list nat;
  _loaded_archives : gmap string nat;
  _get_archive_call : bool }.

(** Everything the code can reach: the ROM object, the [PlzArchive] and
    [RomFile] objects by address, and the class attribute
    [Archive.opened_files], one list shared by the ROM and every archive. *)
Record World := MkWorld {
  rom : t;
  archives : list Plz.t;
  handles : list RomFile;
  opened_files : list nat }.

Definition set_files (f : list (list byte) -> list (list byte)) (w : World) : World :=
  let r := rom w in
  MkWorld (MkRom (f (files r)) (filenames r) (_opened_files r)
                 (_loaded_archives r) (_get_archive_call r))
          (archives w) (handles w) (opened_files w).

Definition set_filenames (f : Fnt.Folder -> Fnt.Folder) (w : World) : World :=
  let r := rom w in
  MkWorld (MkRom (files r) (f (filenames r)) (_opened_files r)
                 (_loaded_archives r) (_get_archive_call r))
          (archives w) (handles w) (opened_files w).

Definition set_loaded_archives (f : gmap string nat -> gmap string nat) (w : World) : World :=
  let r := rom w in
  MkWorld (MkRom (files r) (filenames r) (_opened_files r)
                 (f (_loaded_archives r)) (_get_archive_call r))
          (archives w) (handles w) (opened_files w).

Definition set_get_archive_call (b : bool) (w : World) : World :=
  let r := rom w in
  MkWorld (MkRom (files r) (filenames r) (_opened_files r)
                 (_loaded_archives r) b)
          (archives w) (handles w) (opened_files w).

Definition set_archives (f : list Plz.t -> list Plz.t) (w : World) : World :=
  MkWorld (rom w) (f (archives w)) (handles w) (opened_files w).

Definition set_handles (f : list RomFile -> list RomFile) (w : World) : World :=
  MkWorld (rom w) (archives w) (f (handles w)) (opened_files w).

Definition set_opened_files (f : list nat -> list nat) (w : World) : World :=
  MkWorld (rom w) (archives w) (handles w) (f (opened_files w)).

(** [archive.files] of a handle's owner. *)
Definition owner_files (o : owner) (w : World) : option (list (list byte)) :=
  match o with
  | OwnerRom => Some (files (rom w))
  | OwnerPlz a => Plz.files <$> archives w !! a
  end.

Definition set_owner_files (o : owner) (fs : list (list byte)) (w : World) : World :=
  match o with
  | OwnerRom => set_files (fun _ => fs) w
  | OwnerPlz a =>
      set_archives (fun l =>
        match l !! a with
        | Some ar => <[a := Plz.Archive (Plz.filenames ar) fs]> l
        | None => l
        end) w
  end.

(** Runs a method of the archive object at address [a]. *)
Definition on_archive {A} (a : nat) (m : M Plz.t A) : M World A :=
  fun w =>
    match archives w !! a with
    | Some ar => let '(r, ar') := m ar in (r, set_archives (<[a := ar']>) w)
    | None => (Raise AttributeError, w)
    end.

(** [RomFile.__init__(archive, index, operation)]; the result is the address
    of the new object.  The object registers itself in
    [archive.opened_files], which is the list of the class, before its
    buffer is filled from [archive.files[index]].  The test
    [operation not in ["r", "w", "a"]] cannot fail for the three operations
    that [open] passes. *)
Definition RomFile_init (o : owner) (index : Z) (operation : operation)
  : M World nat :=
  self <- gets (fun w => length (handles w));;
  modify (set_handles (fun l => l ++ [MkRomFile o index operation false []]));;
  registered <- gets opened_files;;
  (if decide (self ∈ registered) then ret tt
   else modify (set_opened_files (fun l => l ++ [self])));;
  match operation with
  | op_w => ret self
  | _ =>
      fs <- gets (owner_files o);;
      match fs with
      | Some fs =>
          match py_index fs index with
          | Some i =>
              modify (set_handles
                (<[self := MkRomFile o index operation false (fs !!! i)]>));;
              ret self
          | None => raise IndexError
          end
      | None => raise AttributeError
      end
  end.

(** [RomFile.flush]: a handle that is open and not read-only stores its
    buffer in [archive.files[self.id]]. *)
Definition RomFile_flush (self : nat) : M World unit :=
  hs <- gets handles;;
  match hs !! self with
  | Some h =>
      if closed h then ret tt
      else match opp h with
           | op_r => ret tt
           | _ =>
               fs <- gets (owner_files (archive h));;
               match fs with
               | Some fs =>
                   match py_index fs (id h) with
                   | Some i =>
                       modify (set_owner_files (archive h) (<[i := value h]> fs))
                   | None => raise IndexError
                   end
               | None => raise AttributeError
               end
           end
  | None => ret tt
  end.

(** [RomFile.close]: flush, close the buffer, leave the registry. *)
Definition RomFile_close (self : nat) : M World unit :=
  RomFile_flush self;;
  modify (set_handles (fun hs =>
    match hs !! self with
    | Some h => <[self := MkRomFile (archive h) (id h) (opp h) true (value h)]> hs
    | None => hs
    end));;
  modify (set_opened_files (fun l => default l (Fnt.list_remove self l))).

(** [fp.id = new]. *)
Definition set_id (fp : nat) (new : Z) : M World unit :=
  modify (set_handles (fun hs =>
    match hs !! fp with
    | Some h => <[fp := MkRomFile (archive h) new (opp h) (closed h) (value h)]> hs
    | None => hs
    end)).

Definition get_id (fp : nat) : M World Z :=
  gets (fun w => default 0%Z (id <$> handles w !! fp)).

(** [self.filenames[folder_name]] used as a folder: an integer result has no
    attribute [firstID] or [files]. *)
Definition folder_of (folder_name : string) : M World Fnt.Folder :=
  tree <- gets (fun w => filenames (rom w));;
  match Fnt.getitem folder_name tree with
  | Ok (inr f) => ret f
  | Ok (inl _) => raise AttributeError
  | Raise e => raise e
  | Loops => loops
  end.

Definition add_file (file : string) : M World nat :=
  let '(folder_name, filename) := os_path_split file in
  folder_add <- folder_of folder_name;;
  let new_file_id := Fnt.firstID folder_add + length (Fnt.files folder_add) in
  modify (set_files (list_insert_at new_file_id []));;
  modify (set_filenames (Fnt.append_file (Fnt.oid folder_add) filename));;
  modify (set_filenames
    (Fnt.increment_first_index_if_needed (Fnt.oid folder_add) new_file_id));;
  fps <- gets (fun w => _opened_files (rom w));;
  for_each fps (fun fp =>
    i <- get_id fp;;
    (if decide (Z.of_nat new_file_id < i)%Z then set_id fp (i + 1)%Z else ret tt);;
    i <- get_id fp;;
    (if decide (i = Z.of_nat new_file_id) then RomFile_close fp else ret tt));;
  ret new_file_id.

Definition remove_file (file : string) : M World unit :=
  let '(folder_name, filename) := os_path_split file in
  folder <- folder_of folder_name;;
  tree <- gets (fun w => filenames (rom w));;
  fileid <- lift (Fnt.idOf file tree);;
  match Fnt.list_remove filename (Fnt.files folder) with
  | None => raise ValueError
  | Some _ =>
      modify (set_filenames (Fnt.remove_name (Fnt.oid folder) filename));;
      match fileid with
      | None => raise TypeError
      | Some fileid =>
          fs <- gets (fun w => files (rom w));;
          (if decide (fileid < length fs)
           then modify (set_files (delete fileid))
           else raise IndexError);;
          modify (set_filenames (Fnt.decrement_first_index_if_needed fileid));;
          fps <- gets (fun w => _opened_files (rom w));;
          for_each fps (fun fp =>
            i <- get_id fp;;
            (if decide (Z.of_nat fileid < i)%Z then set_id fp (i - 1)%Z else ret tt);;
            i <- get_id fp;;
            (if decide (i = Z.of_nat fileid) then RomFile_close fp else ret tt))
      end
  end.

Definition wrap (text : bool) (fp : nat) : opened :=
  if text then Text_file fp else Binary_file fp.

(** [NintendoDSRom.open].  [not fileid] holds for [None] and for [0].  For
    an integer argument the path is looked up only to test its suffix, which
    fails when the ID has no path; the warning about [.plz] files is logged
    and changes nothing. *)
Definition open (file : file_arg) (mode : string) : M World opened :=
  match parse_mode mode with
  | None => raise ValueError
  | Some (op, b, create) =>
      let text := negb b in
      fileid <-
        match file with
        | By_id fileid =>
            tree <- gets (fun w => filenames (rom w));;
            match Fnt.filenameOf "" fileid tree with
            | Some _ => ret fileid
            | None => raise AttributeError
            end
        | By_path file =>
            tree <- gets (fun w => filenames (rom w));;
            found <- lift (Fnt.idOf file tree);;
            let falsy (x : option nat) := bool_decide (x = None \/ x = Some 0) in
            fileid <-
              (if falsy found && create then
                 new <- add_file file;;
                 if falsy (Some new) then raise FileNotFoundError
                 else ret (Some new)
               else ret found);;
            match fileid with
            | Some (S n) => ret (Z.of_nat (S n))
            | _ => raise FileNotFoundError
            end
        end;;
      rom_file <- RomFile_init OwnerRom fileid op;;
      ret (wrap text rom_file)
  end.

(** [PlzArchive.open] for the archive object at address [a]. *)
Definition plz_open (a : nat) (file : file_arg) (mode : string) : M World opened :=
  match parse_mode mode with
  | None => raise ValueError
  | Some (op, b, create) =>
      let text := negb b in
      fileid <-
        match file with
        | By_id fileid => ret fileid
        | By_path file =>
            found <- on_archive a (gets (fun ar => list_index file (Plz.filenames ar)));;
            fileid <-
              (if bool_decide (found = None) && create then
                 new <- on_archive a (Plz.add_file file);;
                 if decide (new = 0) then raise FileNotFoundError
                 else ret (Some new)
               else ret found);;
            match fileid with
            | Some n => ret (Z.of_nat n)
            | None => raise FileNotFoundError
            end
        end;;
      rom_file <- RomFile_init (OwnerPlz a) fileid op;;
      ret (wrap text rom_file)
  end.

(** [PlzArchive(path, rom=self)], which is [FileFormat.__init__] with the
    default compression of the class: open the file for reading, decompress
    all of it, decode, close.  [decompress] stands for the codec of
    [formats/compression.py], which is absent; the result is the address of
    the new archive object. *)
Definition PlzArchive_init (decompress : list byte -> res (list byte))
    (fuel : nat) (filename : string) : M World nat :=
  self <- gets (fun w => length (archives w));;
  modify (set_archives (fun l => l ++ [Plz.Archive [] []]));;
  file <- open (By_path filename) "rb";;
  let fp := match file with Binary_file fp | Text_file fp => fp end in
  raw <- gets (fun w => default [] (value <$> handles w !! fp));;
  match decompress raw with
  | Ok current =>
      on_archive self (Plz.read_stream fuel current);;
      RomFile_close fp;;
      ret self
  | Raise e => raise e
  | Loops => loops
  end.

Definition get_archive (decompress : list byte -> res (list byte))
    (fuel : nat) (path : string) : M World nat :=
  loaded <- gets (fun w => _loaded_archives (rom w));;
  (match loaded !! path with
   | Some _ => ret tt
   | None =>
       modify (set_get_archive_call true);;
       a <- PlzArchive_init decompress fuel path;;
       modify (set_loaded_archives (<[path := a]>));;
       modify (set_get_archive_call false)
   end);;
  loaded <- gets (fun w => _loaded_archives (rom w));;
  match loaded !! path with
  | Some a => ret a
  | None => raise KeyError
  end.

(** *** Sequences of structural operations *)

Inductive fs_op := Add_file (file : string) | Remove_file (file : string).

Definition run_op (op : fs_op) : M World unit :=
  match op with
  | Add_file file => add_file file;; ret tt
  | Remove_file file => remove_file file
  end.

(** The worlds after each operation of a sequence of operations that all
    complete; [None] when one of them raises. *)
Fixpoint run (ops : list fs_op) (w : World) : option (list World) :=
  match ops with
  | [] => Some []
  | op :: ops' =>
      match run_op op w with
      | (Ok _, w') => cons w' <$> run ops' w'
      | _ => None
      end
  end.

(** The path of an operation, and the folder that the operation works in:
    what the folder part of the path stands for. *)
Definition path_of (op : fs_op) : string :=
  match op with Add_file file | Remove_file file => file end.

Definition folder_of_op (op : fs_op) (w : World) : option Fnt.Folder :=
  match Fnt.getitem (os_path_split (path_of op)).1 (filenames (rom w)) with
  | Ok (inr f) => Some f
  | _ => None
  end.

(** An operation that neither puts the first file into a folder nor takes
    the last file out of one: [add_file] into a folder that holds a file,
    [remove_file] from a folder that holds two. *)
Definition keeps_a_file (op : fs_op) (w : World) : Prop :=
  match folder_of_op op w, op with
  | Some f, Add_file _ => Fnt.files f <> []
  | Some f, Remove_file _ => 2 <= length (Fnt.files f)
  | None, _ => True
  end.

#[global] Instance keeps_a_file_dec op w : Decision (keeps_a_file op w).
Proof. unfold keeps_a_file. destruct (folder_of_op op w), op; apply _. Defined.

(** Every operation of a sequence is of that kind, in the world it runs
    in. *)
Fixpoint keep_a_file (ops : list fs_op) (w : World) : Prop :=
  match ops with
  | [] => True
  | op :: ops' =>
      keeps_a_file op w /\
      match run_op op w with
      | (Ok _, w') => keep_a_file ops' w'
      | _ => True
      end
  end.

#[global] Instance keep_a_file_dec ops w : Decision (keep_a_file ops w).
Proof.
  revert w. induction ops as [| op ops IH]; intros w; cbn [keep_a_file]; [apply _ |].
  destruct (run_op op w) as [[[] | e |] w']; apply _.
Defined.

(** *** Well-formed worlds *)

(** The ID bookkeeping of the ROM is well-formed. *)
Definition wf (w : World) : Prop :=
  Fnt.wf_ids (length (files (rom w))) (filenames (rom w)).

#[global] Instance wf_dec w : Decision (wf w).
Proof. unfold wf. apply _. Defined.

(** What [RomFile.__init__] and the other handle methods leave alone. *)
Definition same_files_and_names (w0 w : World) : Prop :=
  files (rom w) = files (rom w0) /\
  filenames (rom w) = filenames (rom w0) /\
  Plz.filenames <$> archives w = Plz.filenames <$> archives w0 /\
  Plz.files <$> archives w = Plz.files <$> archives w0.

(** The number of slots and the folder tree. *)
Definition same_shape (w0 w : World) : Prop :=
  length (files (rom w)) = length (files (rom w0)) /\
  filenames (rom w) = filenames (rom w0).

(** The world right after the three structural steps of [add_file]. *)
Definition after_add (fa : Fnt.Folder) (filename : string) (w : World) : World :=
  let new_file_id := Fnt.firstID fa + length (Fnt.files fa) in
  set_filenames (Fnt.increment_first_index_if_needed (Fnt.oid fa) new_file_id)
    (set_filenames (Fnt.append_file (Fnt.oid fa) filename)
       (set_files (list_insert_at new_file_id []) w)).

(** The world right after the three structural steps of [remove_file]. *)
Definition after_remove (fa : Fnt.Folder) (filename : string) (fileid : nat)
    (w : World) : World :=
  set_filenames (Fnt.decrement_first_index_if_needed fileid)
    (set_files (delete fileid)
       (set_filenames (Fnt.remove_name (Fnt.oid fa) filename) w)).

End Rom.

(** ** Example worlds *)

(** Scenario B: the entries [("x", [1, 2, 3])] and [("yy", [])]. *)
Definition scenario_b : Plz.t :=
  Plz.Archive ["x"%string; "yy"%string] [ [x01; x02; x03]; [] ].

(** Scenario A: the folder [data/] holds [a.bin], slot 0; [r] is the
    [firstID] of the root folder, which has no files of its own. *)
Definition scenario_a (r : nat) (content : list byte) : Rom.World :=
  Rom.MkWorld
    (Rom.MkRom [content]
       (Fnt.MkFolder 0 r []
          [("data"%string, Fnt.MkFolder 1 0 ["a.bin"%string] [])])
       [] ∅ false)
    [] [] [].

(** A ROM without files whose folder [data/] is empty, and one PLZ archive
    object without entries (what decoding a bare 16-byte header gives). *)
Definition empty_rom_world : Rom.World :=
  Rom.MkWorld
    (Rom.MkRom []
       (Fnt.MkFolder 0 0 [] [("data"%string, Fnt.MkFolder 1 0 [] [])])
       [] ∅ false)
    [Plz.Archive [] []] [] [].

(** [a] in the root folder, [b] and [c] in [data/]. *)
Definition three_files_world : Rom.World :=
  Rom.MkWorld
    (Rom.MkRom [ [x0a]; [x0b]; [x0c] ]
       (Fnt.MkFolder 0 0 ["a"%string]
          [("data"%string, Fnt.MkFolder 1 1 ["b"%string; "c"%string] [])])
       [] ∅ false)
    [] [] [].

(** [a] in the root folder, [p] in [aa/], [b] and [c] in [data/]. *)
Definition two_folders_world : Rom.World :=
  Rom.MkWorld
    (Rom.MkRom [ [x0a]; [x10]; [x0b]; [x0c] ]
       (Fnt.MkFolder 0 0 ["a"%string]
          [("aa"%string, Fnt.MkFolder 1 1 ["p"%string] []);
           ("data"%string, Fnt.MkFolder 2 2 ["b"%string; "c"%string] [])])
       [] ∅ false)
    [] [] [].

(** A ROM whose second file is the encoded archive of scenario B. *)
Definition plz_world : Rom.World :=
  Rom.MkWorld
    (Rom.MkRom [ []; (Plz.write_stream scenario_b).2 ]
       (Fnt.MkFolder 0 0 ["pad.bin"%string]
          [("data"%string, Fnt.MkFolder 1 1 ["x.plz"%string] [])])
       [] ∅ false)
    [] [] [].

(** ** What a name stands for

    [open(file, "rb")] resolves a name to an ID and [RomFile.__init__] fills
    the buffer of the handle from the slot of that ID. *)

Module Content.

(** In a [PlzArchive]: [files[filenames.index(name)]]. *)
Definition plz (name : string) (a : Plz.t) : option (list byte) :=
  i ← list_index name (Plz.filenames a); Plz.files a !! i.

(** In the ROM: [files[filenames.idOf(path)]]. *)
Definition rom (path : string) (w : Rom.World) : option (list byte) :=
  match Fnt.idOf path (Rom.filenames (Rom.rom w)) with
  | Ok (Some i) => Rom.files (Rom.rom w) !! i
  | _ => None
  end.

End Content.

(** ** Reading and writing through a handle *)

Module Handle.
Import Rom.

(** The [RomFile] under what [open] returned. *)
Definition handle_of (f : opened) : nat :=
  match f with Binary_file fp | Text_file fp => fp end.

(** [RomFile.writable]. *)
Definition writable (h : RomFile) : bool :=
  bool_decide (opp h = op_w \/ opp h = op_a).

(** [RomFile.fileno]. *)
Definition fileno (h : RomFile) : Z := id h.

(** The first [f.read()] on a handle after [open].  The cursor of the
    [io.BytesIO] is at the start of the buffer, or at its end in mode [a],
    where [__init__] has read the buffer once; a closed buffer raises
    [ValueError].  An address without an object has no method. *)
Definition read_first (fp : nat) : M World (list byte) :=
  hs <- gets handles;;
  match hs !! fp with
  | Some h =>
      if closed h then raise ValueError
      else ret (match opp h with op_a => [] | _ => value h end)
  | None => raise AttributeError
  end.

(** The first [f.write(data)] on a handle after [open]: the bytes go over
    the buffer from the cursor on, which is the start of the buffer, or its
    end in mode [a].  [io.BytesIO.write] does not ask [writable()]. *)
Definition write_first (fp : nat) (data : list byte) : M World nat :=
  hs <- gets handles;;
  match hs !! fp with
  | Some h =>
      if closed h then raise ValueError
      else
        modify (set_handles (<[fp :=
          MkRomFile (archive h) (id h) (opp h) false
            (match opp h with
             | op_a => value h ++ data
             | _ => data ++ drop (length data) (value h)
             end)]>));;
        ret (length data)
  | None => raise AttributeError
  end.

(** [RomFile.__exit__]: [self.close()], then [__exit__] of the base class,
    which calls [self.close()] once more. *)
Definition RomFile_exit (fp : nat) : M World unit :=
  RomFile_close fp;; RomFile_close fp.

(** [with f: body] for a [RomFile] that [open] returned in a binary mode.
    [__enter__] raises [ValueError] on a closed buffer.  [__exit__] runs
    however the body ends; it returns nothing, so an exception of the body
    goes on afterwards, unless [__exit__] raises one itself. *)
Definition with_file {A} (f : opened) (body : nat -> M World A) : M World A :=
  let fp := handle_of f in
  hs <- gets handles;;
  (if default false (closed <$> hs !! fp) then raise ValueError else ret tt);;
  fun w =>
    match body fp w with
    | (Ok a, w') => (RomFile_exit fp;; ret a) w'
    | (Raise e, w') => (RomFile_exit fp;; raise e) w'
    | (Loops, w') => (Loops, w')
    end.

(** The handle that [RomFile.__init__] builds. *)
Definition new_handle (o : owner) (i : nat) (op : operation) (fs : list (list byte))
  : RomFile :=
  MkRomFile o (Z.of_nat i) op false
    (match op with op_w => [] | _ => fs !!! i end).

(** The world after [RomFile.__init__] on a slot that exists. *)
Definition with_new_handle (o : owner) (i : nat) (op : operation)
    (fs : list (list byte)) (w : World) : World :=
  set_handles (fun l => l ++ [new_handle o i op fs])
    (set_opened_files
       (fun l => if decide (length (handles w) ∈ l) then l
                 else l ++ [length (handles w)]) w).

(** What a slot holds after a handle on it has been written to once and
    closed. *)
Definition written (op : operation) (old data : list byte) : list byte :=
  match op with
  | op_r => old
  | op_w => data
  | op_a => old ++ data
  end.

End Handle.

(** ** The folder tree under the folder methods *)

Module Tree.
Import Fnt.

(** [folder.files[index] = new_filename] on the object [target]. *)
Fixpoint set_file_name (target index : nat) (new_filename : string)
    (root : Folder) : Folder :=
  MkFolder (oid root) (firstID root)
    (if decide (oid root = target)
     then <[index := new_filename]> (files root) else files root)
    (map (fun fd : string * Folder =>
            let '(n, f) := fd in (n, set_file_name target index new_filename f))
         (folders root)).

(** Position of the first item of a [folders] list that equals
    [(name, folder)]: tuples are compared by [==], which is the name and
    the folder object. *)
Fixpoint item_index (name : string) (folder : nat) (fds : list (string * Folder))
  : option nat :=
  match fds with
  | [] => None
  | (n, f) :: fds' =>
      if decide (n = name /\ oid f = folder) then Some 0
      else S <$> item_index name folder fds'
  end.

(** [parent.folders.append(item)] on the object [target]. *)
Fixpoint append_folder (target : nat) (item : string * Folder) (root : Folder)
  : Folder :=
  MkFolder (oid root) (firstID root) (files root)
    (let fds :=
       map (fun fd : string * Folder =>
              let '(n, f) := fd in (n, append_folder target item f))
           (folders root) in
     if decide (oid root = target) then fds ++ [item] else fds).

(** [del parent.folders[index]] on the object [target], which is what
    [parent.folders.remove(item)] does at the position of [item]. *)
Fixpoint delete_folder (target index : nat) (root : Folder) : Folder :=
  MkFolder (oid root) (firstID root) (files root)
    (let fds :=
       map (fun fd : string * Folder =>
              let '(n, f) := fd in (n, delete_folder target index f))
           (folders root) in
     if decide (oid root = target) then delete index fds else fds).

(** [parent.folders[index] = (name, folder)] on the object [target], for an
    item whose folder is the one that is already there, under a new
    name. *)
Fixpoint rename_folder_item (target index : nat) (name : string) (root : Folder)
  : Folder :=
  MkFolder (oid root) (firstID root) (files root)
    (let fds :=
       map (fun fd : string * Folder =>
              let '(n, f) := fd in (n, rename_folder_item target index name f))
           (folders root) in
     if decide (oid root = target)
     then match fds !! index with
          | Some (_, f) => <[index := (name, f)]> fds
          | None => fds
          end
     else fds).

(** The identity of a new object: one that no folder of the tree has. *)
Definition fresh_oid (root : Folder) : nat :=
  S (foldr Nat.max 0 (oid <$> nodes root)).

(** What the bookkeeping looks at in a folder object. *)
Definition key (f : Folder) : nat * nat * list string := (oid f, firstID f, files f).

End Tree.

(** ["/".join(l)]. *)
Fixpoint join_slash (l : list string) : string :=
  match l with
  | [] => EmptyString
  | [x] => x
  | x :: rest => x +:+ "/" +:+ join_slash rest
  end.

(** ** The other methods of [NintendoDSRom] *)

Module NintendoDSRom.
Import Rom Handle.

Definition rename_file (path new_filename : string) : M World unit :=
  let '(folder_name, filename) := os_path_split path in
  folder <- folder_of folder_name;;
  match list_index filename (Fnt.files folder) with
  | None => raise ValueError
  | Some index =>
      modify (set_filenames
        (Tree.set_file_name (Fnt.oid folder) index new_filename))
  end.

Definition move_file (old_path new_path : string) : M World unit :=
  f <- open (By_path old_path) "rb";;
  data <- with_file f read_first;;
  remove_file old_path;;
  f <- open (By_path new_path) "wb+";;
  with_file f (fun fp => write_first fp data);;
  ret tt.

(** [self.filenames[key]]: a file ID or a folder. *)
Definition getitem (key : string) : M World (nat + Fnt.Folder) :=
  tree <- gets (fun w => filenames (rom w));;
  match Fnt.getitem key tree with
  | Ok x => ret x
  | Raise e => raise e
  | Loops => loops
  end.

(** [folder_get_parent].  Unpacking [*basedirs, subdir] from a path
    without a component is a [ValueError]. *)
Definition folder_get_parent (path : string) : M World (nat + Fnt.Folder) :=
  match reverse (folder_split path) with
  | [] => raise ValueError
  | subdir :: rev_basedirs =>
      match rev_basedirs with
      | [] => root <- gets (fun w => filenames (rom w));; ret (inr root)
      | _ => getitem (join_slash (reverse rev_basedirs) +:+ "/")
      end
  end.

(** [self.folder_split(path)[-1]]. *)
Definition last_component (path : string) : M World string :=
  match last (folder_split path) with
  | Some name => ret name
  | None => raise IndexError
  end.

(** [add_folder].  Modelled from the spec: a new [Folder] of the ndspy
    library has no files and no folders.  An integer in the place of the
    parent has no attribute [folders]. *)
Definition add_folder (path : string) : M World unit :=
  parent <- folder_get_parent path;;
  nfiles <- gets (fun w => length (files (rom w)));;
  fresh <- gets (fun w => Tree.fresh_oid (filenames (rom w)));;
  let new_folder := Fnt.MkFolder fresh nfiles [] [] in
  match parent with
  | inl _ => raise AttributeError
  | inr parent =>
      name <- last_component path;;
      modify (set_filenames (Tree.append_folder (Fnt.oid parent) (name, new_folder)))
  end.

(** The two refusals of [remove_folder].  They are raised as plain
    [Exception]s, which is none of the classes of [exn]; [remove_folder]
    hands them back as its result. *)
Inductive refusal := Does_not_exist | Not_empty.

(** [remove_folder]: [None] when the folder has been removed.  [not folder]
    holds for the file ID 0; a folder object is true. *)
Definition remove_folder (path : string) : M World (option refusal) :=
  folder <- getitem path;;
  match folder with
  | inl 0 => ret (Some Does_not_exist)
  | inl _ => raise AttributeError
  | inr folder =>
      if bool_decide (Fnt.files folder <> [] \/ Fnt.folders folder <> [])
      then ret (Some Not_empty)
      else
        parent <- folder_get_parent path;;
        match parent with
        | inl _ => raise AttributeError
        | inr parent =>
            name <- last_component path;;
            match Tree.item_index name (Fnt.oid folder) (Fnt.folders parent) with
            | None => raise ValueError
            | Some index =>
                modify (set_filenames (Tree.delete_folder (Fnt.oid parent) index));;
                ret None
            end
        end
  end.

(** [old_parent != new_parent]: two folders are compared as objects, two
    file IDs as integers, and a folder differs from an integer. *)
Definition differ (x y : nat + Fnt.Folder) : bool :=
  match x, y with
  | inl i, inl j => bool_decide (i <> j)
  | inr f, inr g => bool_decide (Fnt.oid f <> Fnt.oid g)
  | _, _ => true
  end.

(** [rename_folder].  The item [(name, folder)] is in no [folders] list
    when [folder] is a file ID. *)
Definition rename_folder (old_path new_path : string) : M World unit :=
  folder <- getitem old_path;;
  old_parent <- folder_get_parent old_path;;
  new_parent <- folder_get_parent new_path;;
  old_name <- last_component old_path;;
  new_name <- last_component new_path;;
  match old_parent with
  | inl _ => raise AttributeError
  | inr old_parent_folder =>
      let index :=
        match folder with
        | inr f => Tree.item_index old_name (Fnt.oid f) (Fnt.folders old_parent_folder)
        | inl _ => None
        end in
      match index, folder with
      | Some index, inr f =>
          if differ (inr old_parent_folder) new_parent then
            modify (set_filenames
              (Tree.delete_folder (Fnt.oid old_parent_folder) index));;
            match new_parent with
            | inl _ => raise AttributeError
            | inr new_parent_folder =>
                modify (set_filenames
                  (Tree.append_folder (Fnt.oid new_parent_folder) (new_name, f)))
            end
          else
            modify (set_filenames
              (Tree.rename_folder_item (Fnt.oid old_parent_folder) index new_name))
      | _, _ => raise ValueError
      end
  end.

End NintendoDSRom.

(** * Properties *)

(** Settles a decidable closed proposition by evaluating its decision
    procedure. *)
Ltac decide_by_evaluation :=
  apply (bool_decide_unpack _); vm_compute; exact I.

(** ** Reasoning about the monad *)

Section Preservation.
Context {S : Type} (P : S -> Prop).

Lemma preserves_ret {A} (a : A) : preserves P (ret a).
Proof. intros s H. exact H. Qed.

Lemma preserves_raise {A} e : preserves P (@raise S A e).
Proof. intros s H. exact H. Qed.

Lemma preserves_loops {A} : preserves P (@loops S A).
Proof. intros s H. exact H. Qed.

Lemma preserves_gets {A} (f : S -> A) : preserves P (gets f).
Proof. intros s H. exact H. Qed.

Lemma preserves_lift {A} (r : res A) : preserves P (lift r).
Proof. intros s H. exact H. Qed.

Lemma preserves_modify (f : S -> S) :
  (forall s, P s -> P (f s)) -> preserves P (modify f).
Proof. intros Hf s Hs. apply Hf, Hs. Qed.

Lemma preserves_bind {A B} (m : M S A) (k : A -> M S B) :
  preserves P m -> (forall a, preserves P (k a)) -> preserves P (bind m k).
Proof.
  intros Hm Hk s Hs. unfold bind.
  specialize (Hm s Hs). destruct (m s) as [[a | e |] s']; simpl in *; auto.
  apply Hk, Hm.
Qed.

(** The continuation may use that its argument was read from the state. *)
Lemma preserves_bind_gets {A B} (f : S -> A) (k : A -> M S B) :
  (forall s, P s -> P (k (f s) s).2) -> preserves P (bind (gets f) k).
Proof. intros H s Hs. unfold bind, gets. apply H, Hs. Qed.

Lemma preserves_for_each {A} (xs : list A) (body : A -> M S unit) :
  (forall x, preserves P (body x)) -> preserves P (for_each xs body).
Proof.
  intros Hb. induction xs as [| x xs IH]; simpl.
  - apply preserves_ret.
  - apply preserves_bind; auto.
Qed.

(** A step on the other component of a pair of states. *)
Lemma preserves_on_snd {T A} (m : M T A) :
  preserves (fun st : S * T => P st.1) (on_snd m).
Proof. intros [s t] H. unfold on_snd. simpl in *. destruct (m t). exact H. Qed.

End Preservation.

(** ** Lists *)

Lemma list_index_lt {A} `{EqDecision A} (x : A) (l : list A) i :
  list_index x l = Some i -> i < length l.
Proof.
  revert i. induction l as [| y l IH]; intros i; simpl; [discriminate |].
  destruct (decide (x = y)).
  - intros [= <-]. lia.
  - destruct (list_index x l) as [j |]; simpl; [| discriminate].
    intros [= <-]. specialize (IH j eq_refl). lia.
Qed.

(** ** Streams: writing at the end, reading at the cursor *)

Module BinaryFacts.
Import Binary.

Lemma byte_of_N_to_N (k : N) : (k < 256)%N -> Byte.to_N (byte_of_N k) = k.
Proof.
  intros Hk. unfold byte_of_N.
  destruct (Byte.of_N k) as [b |] eqn:E; simpl.
  - apply Byte.to_of_N, E.
  - apply Byte.of_N_None_iff in E. lia.
Qed.

Lemma le_value_le_bytes (n : N) : (n < 4294967296)%N -> le_value (le_bytes n) = n.
Proof.
  intros Hn. unfold le_bytes, le_value. simpl.
  rewrite !byte_of_N_to_N by (apply N.mod_lt; discriminate).
  change 16777216%N with (256 * 256 * 256)%N.
  change 65536%N with (256 * 256)%N.
  rewrite <- !N.Div0.div_div.
  set (q1 := (n / 256)%N). set (q2 := (q1 / 256)%N). set (q3 := (q2 / 256)%N).
  pose proof (N.Div0.div_mod n 256) as E1.
  pose proof (N.Div0.div_mod q1 256) as E2.
  pose proof (N.Div0.div_mod q2 256) as E3.
  pose proof (N.mod_lt n 256 ltac:(discriminate)) as B1.
  pose proof (N.mod_lt q1 256 ltac:(discriminate)) as B2.
  pose proof (N.mod_lt q2 256 ltac:(discriminate)) as B3.
  fold q1 in E1. fold q2 in E2. fold q3 in E3.
  clearbody q3. clearbody q2. clearbody q1.
  set (r1 := (n mod 256)%N) in *. set (r2 := (q1 mod 256)%N) in *.
  set (r3 := (q2 mod 256)%N) in *. clearbody r1 r2 r3.
  assert (q3 < 256)%N as B4 by lia.
  rewrite (N.mod_small q3 256 B4).
  lia.
Qed.

Lemma length_le_bytes n : length (le_bytes n) = 4.
Proof. reflexivity. Qed.

Lemma length_list_byte_of_string s : length (list_byte_of_string s) = String.length s.
Proof.
  unfold list_byte_of_string. rewrite length_map.
  induction s as [| ch s IH]; simpl; congruence.
Qed.

(** A write with the cursor at or past the end appends, after filling the
    gap with zero bytes. *)
Lemma write_past_end (bs : list byte) (s : stream) :
  length (data s) <= c s -> bs <> [] ->
  write bs s =
    (Ok tt, Stream (data s ++ replicate (c s - length (data s)) x00 ++ bs)
                   (c s + length bs)).
Proof.
  intros Hc Hbs. unfold write, modify. destruct bs as [| b bs]; [done |].
  f_equal. f_equal.
  set (d := data s ++ replicate (c s - length (data s)) x00).
  assert (Hd : length d = c s).
  { unfold d. rewrite length_app, length_replicate. lia. }
  rewrite take_ge by lia. rewrite drop_ge by lia.
  unfold d. rewrite app_nil_r, <- app_assoc. reflexivity.
Qed.

Lemma write_at_end (bs : list byte) (s : stream) :
  c s = length (data s) ->
  write bs s = (Ok tt, Stream (data s ++ bs) (c s + length bs)).
Proof.
  intros Hc. destruct bs as [| b bs].
  - unfold write, modify. destruct s as [d k]. simpl in *.
    rewrite app_nil_r, Nat.add_0_r. reflexivity.
  - rewrite write_past_end by (lia || done).
    rewrite Hc, Nat.sub_diag. reflexivity.
Qed.

Lemma write_uint32_at_end (n : nat) (s : stream) :
  c s = length (data s) -> (N.of_nat n < 4294967296)%N ->
  write_uint32 n s = (Ok tt, Stream (data s ++ le_bytes (N.of_nat n)) (c s + 4)).
Proof.
  intros Hc Hn. unfold write_uint32.
  apply N.ltb_lt in Hn. rewrite Hn. apply write_at_end, Hc.
Qed.

(** Overwriting the second 32-bit field of a buffer. *)
Lemma write_uint32_patch (a b rest : list byte) (n : nat) :
  length a = 4 -> length b = 4 -> (N.of_nat n < 4294967296)%N ->
  write_uint32 n (Stream (a ++ b ++ rest) 4) =
    (Ok tt, Stream (a ++ le_bytes (N.of_nat n) ++ rest) 8).
Proof.
  intros Ha Hb Hn. unfold write_uint32.
  apply N.ltb_lt in Hn. rewrite Hn.
  unfold write, modify. cbn [le_bytes data c length].
  f_equal. f_equal.
  rewrite !length_app, Ha, Hb. cbn [Nat.add Nat.sub replicate].
  rewrite app_nil_r.
  rewrite <- Ha at 1. rewrite take_app_length.
  do 2 f_equal.
  rewrite (app_assoc a b rest).
  replace 8 with (length (a ++ b)) by (rewrite length_app; lia).
  apply drop_app_length.
Qed.

Lemma ahead_advance d k bs rest :
  ahead (Stream d k) = bs ++ rest -> ahead (Stream d (k + length bs)) = rest.
Proof.
  unfold ahead. simpl. intros H.
  rewrite <- drop_drop, H. apply drop_app_length.
Qed.

Lemma read_ahead d k bs rest :
  ahead (Stream d k) = bs ++ rest ->
  read (length bs) (Stream d k) = (Ok bs, Stream d (k + length bs)).
Proof.
  unfold ahead, read. simpl. intros H.
  rewrite H, take_app_length. reflexivity.
Qed.

Lemma read_uint32_ahead d k n rest :
  (n < 4294967296)%N ->
  ahead (Stream d k) = le_bytes n ++ rest ->
  read_uint32 (Stream d k) = (Ok n, Stream d (k + 4)).
Proof.
  intros Hn H. unfold read_uint32, bind.
  rewrite <- (length_le_bytes n) at 1.
  rewrite (read_ahead _ _ _ _ H).
  rewrite decide_True by reflexivity.
  unfold ret. rewrite le_value_le_bytes by exact Hn. reflexivity.
Qed.

Lemma until_nul_app (nb rest : list byte) :
  x00 ∉ nb -> until_nul (nb ++ x00 :: rest) = nb.
Proof.
  induction nb as [| b nb IH]; intros Hn; simpl.
  - reflexivity.
  - rewrite not_elem_of_cons in Hn. destruct Hn as [Hb Hn].
    rewrite decide_False by congruence. rewrite IH by exact Hn. reflexivity.
Qed.

Lemma read_string_ahead d k name rest :
  name_ok name ->
  ahead (Stream d k) = list_byte_of_string name ++ x00 :: rest ->
  read_string (Stream d k) = (Ok name, Stream d (k + (String.length name + 1))).
Proof.
  intros [Hascii Hnul] H. unfold read_string. unfold ahead in H.
  cbn [data c] in *.
  rewrite H, until_nul_app by exact Hnul.
  unfold decode_shift_jis. rewrite Hascii, string_of_list_byte_of_string.
  rewrite length_app, length_cons, length_list_byte_of_string.
  do 3 f_equal. lia.
Qed.

End BinaryFacts.

(** ** The parallel lists of a PLZ archive *)

Module PlzFacts.
Import Binary Plz.

Lemma read_record_parallel :
  preserves (fun st : Plz.t * stream => parallel st.1) read_record.
Proof.
  unfold read_record.
  repeat (apply preserves_bind; [apply preserves_on_snd | intros ?]).
  intros [ar s] H. unfold parallel in *. simpl in *.
  rewrite !length_app. simpl. lia.
Qed.

Lemma read_records_parallel fuel size :
  preserves (fun st : Plz.t * stream => parallel st.1) (read_records fuel size).
Proof.
  induction fuel as [| fuel IH]; simpl.
  - apply preserves_bind; [apply preserves_on_snd | intros cur].
    destruct (_ <? _)%N; [apply preserves_loops | apply preserves_ret].
  - apply preserves_bind; [apply preserves_on_snd | intros cur].
    destruct (_ <? _)%N; [| apply preserves_ret].
    apply preserves_bind; [apply read_record_parallel | intros _; apply IH].
Qed.

Lemma read_stream_parallel fuel bs a : parallel (read_stream fuel bs a).2.
Proof.
  unfold read_stream.
  destruct (read_stream_rdr fuel (a, of_bytes bs)) as [r [a' s']] eqn:E.
  simpl. change a' with (r, (a', s')).2.1. rewrite <- E. clear E.
  unfold read_stream_rdr, bind at 1 2. simpl.
  apply (preserves_bind (fun st : Plz.t * stream => parallel st.1));
    [apply preserves_on_snd | intros ?| reflexivity].
  repeat (apply preserves_bind; [apply preserves_on_snd | intros ?]).
  apply preserves_bind.
  { destruct (decide _); [apply preserves_ret | apply preserves_raise]. }
  intros _. apply preserves_bind; [apply preserves_on_snd | intros _].
  apply read_records_parallel.
Qed.

End PlzFacts.

(** ** The PLZ codec *)

Module CodecFacts.
Import Binary Plz BinaryFacts PlzFacts.

Lemma bind_ok {S A B} (m : M S A) (k : A -> M S B) s a s' :
  m s = (Ok a, s') -> bind m k s = k a s'.
Proof. intros H. unfold bind. rewrite H. reflexivity. Qed.

Lemma bind_on_snd_ok {S T A B} (m : M T A) (k : A -> M (S * T) B) x t a t' :
  m t = (Ok a, t') -> bind (on_snd m) k (x, t) = k a (x, t').
Proof. intros H. unfold bind, on_snd. simpl. rewrite H. reflexivity. Qed.

(** [x += 4 - x % 4] moves [x] to the next multiple of 4 that is greater
    than [x]. *)
Lemma next_multiple_of_4 (x : nat) :
  x < x + (4 - x mod 4) <= x + 4 /\ (x + (4 - x mod 4)) mod 4 = 0.
Proof.
  pose proof (Nat.mod_upper_bound x 4 ltac:(lia)) as Hr.
  pose proof (Nat.div_mod_eq x 4) as Hq.
  set (r := x mod 4) in *. set (q := x / 4) in *. clearbody r q.
  split; [lia |].
  replace (x + (4 - r)) with ((q + 1) * 4) by lia.
  apply Nat.Div0.mod_mul.
Qed.

Lemma header_size_bounds name :
  16 + String.length name + 1 < header_size_of name <= 16 + String.length name + 5
  /\ header_size_of name mod 4 = 0.
Proof.
  unfold header_size_of.
  pose proof (next_multiple_of_4 (16 + String.length name + 1)). simpl in *. lia.
Qed.

Lemma total_size_bounds name file :
  header_size_of name + length file < total_size_of name file
    <= header_size_of name + length file + 4
  /\ total_size_of name file mod 4 = 0.
Proof.
  unfold total_size_of.
  pose proof (next_multiple_of_4 (header_size_of name + length file)).
  simpl in *. lia.
Qed.

Lemma length_record_bytes name file :
  length (record_bytes name file) = total_size_of name file.
Proof.
  pose proof (header_size_bounds name) as [Hh _].
  pose proof (total_size_bounds name file) as [Ht _].
  unfold record_bytes.
  rewrite !length_app, !length_le_bytes, !length_replicate,
    length_list_byte_of_string.
  cbn [length]. lia.
Qed.

Lemma pad_loop_spec (p : nat) : forall s : stream,
  length (data s) <= c s -> (p = 0 -> length (data s) = c s) ->
  pad_loop p (c s + p) s =
    (Ok tt, Stream (data s ++ replicate (c s + p - length (data s)) x00) (c s + p)).
Proof.
  induction p as [| p IH]; intros s Hle H0.
  - destruct s as [d k]. cbn [c data] in *. specialize (H0 eq_refl). subst k.
    cbn [pad_loop]. unfold bind, gets. cbn [c data].
    rewrite decide_True by lia.
    rewrite Nat.add_0_r, Nat.sub_diag. cbn [replicate]. rewrite app_nil_r.
    reflexivity.
  - simpl. unfold bind at 1. unfold gets. rewrite decide_False by lia.
    unfold write_uint8. simpl (N.of_nat 0 <? 256)%N. cbv iota.
    change (byte_of_N (N.of_nat 0)) with x00.
    rewrite (bind_ok _ _ _ _ _ (write_past_end [x00] s Hle ltac:(done))).
    set (s1 := Stream _ _).
    assert (Hc1 : c s1 = c s + 1) by reflexivity.
    assert (Hl1 : length (data s1) = c s + 1).
    { unfold s1. simpl. rewrite length_app, length_app, length_replicate. simpl. lia. }
    replace (c s + S p) with (c s1 + p) by lia.
    rewrite IH by lia.
    f_equal. f_equal.
    rewrite Hl1, Hc1. unfold s1. cbn [data].
    replace (c s + 1 + p - (c s + 1)) with p by lia.
    replace (c s + 1 + p - length (data s))
      with ((c s - length (data s)) + (1 + p)) by lia.
    rewrite <- !app_assoc. f_equal.
    rewrite (replicate_add (c s - length (data s)) (1 + p)). f_equal.
Qed.

Lemma pad_until_spec (target : nat) (s : stream) :
  length (data s) <= c s -> c s < target ->
  pad_until target s =
    (Ok tt, Stream (data s ++ replicate (target - length (data s)) x00) target).
Proof.
  intros Hle Hlt. unfold pad_until, bind at 1. unfold gets.
  pose proof (pad_loop_spec (target - c s) s Hle ltac:(lia)) as H.
  replace (c s + (target - c s)) with target in H by lia.
  exact H.
Qed.

Lemma encode_ascii_ok name : name_ok name -> encode_ascii name = Some (list_byte_of_string name).
Proof. intros [H _]. unfold encode_ascii. rewrite H. reflexivity. Qed.

Lemma write_record_spec (self : Plz.t) i name file (s : stream) :
  filenames self !! i = Some name -> files self !! i = Some file ->
  name_ok name ->
  (N.of_nat (total_size_of name file) < 4294967296)%N ->
  c s = length (data s) ->
  write_record self i s =
    (Ok tt, Stream (data s ++ record_bytes name file)
                   (c s + total_size_of name file)).
Proof.
  intros Hn Hf Hok Hsz Hc.
  pose proof (header_size_bounds name) as [Hh _].
  pose proof (total_size_bounds name file) as [Ht _].
  unfold write_record. rewrite Hn, Hf.
  fold (header_size_of name). fold (total_size_of name file).
  assert (Hrec : record_bytes name file =
    le_bytes (N.of_nat (header_size_of name)) ++
    le_bytes (N.of_nat (total_size_of name file)) ++ le_bytes (N.of_nat 0) ++
    le_bytes (N.of_nat (length file)) ++ (list_byte_of_string name ++ [x00]) ++
    replicate (header_size_of name - (16 + String.length name + 1)) x00 ++
    file ++
    replicate (total_size_of name file - (header_size_of name + length file)) x00)
    by reflexivity.
  rewrite Hrec. clear Hrec.
  generalize dependent (total_size_of name file). intros ts Hsz Ht.
  generalize dependent (header_size_of name). intros hs Hh Ht.
  unfold bind at 1. unfold gets.
  destruct s as [d k]. simpl in Hc. subst k. cbn [c data].
  erewrite bind_ok by (apply write_uint32_at_end; [reflexivity | lia]).
  cbn [c data].
  erewrite bind_ok
    by (apply write_uint32_at_end; [cbn; rewrite length_app; reflexivity | lia]).
  cbn [c data].
  erewrite bind_ok
    by (apply write_uint32_at_end;
        [cbn; rewrite !length_app; cbn; lia | cbn; lia]).
  cbn [c data].
  erewrite bind_ok
    by (apply write_uint32_at_end;
        [cbn; rewrite !length_app; cbn; lia | lia]).
  cbn [c data].
  unfold write_string. rewrite (encode_ascii_ok _ Hok).
  erewrite bind_ok
    by (apply write_at_end; cbn; rewrite !length_app; cbn; lia).
  cbn [c data].
  unfold bind at 1. unfold seek, modify. cbn [c data].
  set (d5 := ((((d ++ _) ++ _) ++ _) ++ _) ++ _).
  assert (Hd5 : length d5 = length d + 16 + String.length name + 1).
  { unfold d5. rewrite !length_app, !length_le_bytes, length_list_byte_of_string.
    simpl. lia. }
  destruct file as [| b file].
  - unfold bind at 1. unfold write, modify.
    rewrite pad_until_spec by (cbn [c data length] in *; lia).
    f_equal. cbn [data c length] in *. unfold d5.
    rewrite <- !app_assoc. do 6 f_equal.
    rewrite app_nil_l, <- replicate_add.
    rewrite !length_app, !length_le_bytes, length_list_byte_of_string.
    cbn [length]. do 3 f_equal. lia.
  - erewrite bind_ok
      by (apply write_past_end; [cbn [c data]; lia | done]).
    cbn [c data].
    rewrite pad_until_spec;
      [| cbn [c data]; rewrite !length_app, length_replicate; lia
       | cbn [c data]; lia].
    f_equal. cbn [data c].
    rewrite !length_app, length_replicate, Hd5. unfold d5.
    rewrite <- !app_assoc.
    replace (length d + hs - (length d + 16 + String.length name + 1))
      with (hs - (16 + String.length name + 1)) by lia.
    replace (length d + ts - _) with (ts - (hs + length (b :: file))) by lia.
    reflexivity.
Qed.

Lemma body_app l1 l2 : body (l1 ++ l2) = body l1 ++ body l2.
Proof. unfold body. apply flat_map_app. Qed.

Lemma length_encoded a : length (encoded a) = 16 + length (body (records a)).
Proof. reflexivity. Qed.

Lemma write_records_spec (self : Plz.t) :
  parallel self -> Forall name_ok (filenames self) ->
  forall m k (s : stream),
    k + m = length (files self) ->
    (N.of_nat (length (data s) + length (body (drop k (records self))))
       < 4294967296)%N ->
    c s = length (data s) ->
    for_each (seq k m) (write_record self) s =
      (Ok tt, Stream (data s ++ body (drop k (records self)))
                     (c s + length (body (drop k (records self))))).
Proof.
  intros Hpar Hnames m. induction m as [| m IH]; intros k s Hk Hsz Hc.
  - cbn [seq for_each]. unfold ret.
    rewrite drop_ge by (unfold records; rewrite length_zip; unfold parallel in Hpar; lia).
    cbn [body flat_map length]. rewrite app_nil_r, Nat.add_0_r.
    destruct s; reflexivity.
  - cbn [seq for_each].
    destruct (lookup_lt_is_Some_2 (filenames self) k) as [name Hn];
      [unfold parallel in Hpar; lia |].
    destruct (lookup_lt_is_Some_2 (files self) k) as [file Hf]; [lia |].
    assert (Hrec : records self !! k = Some (name, file)).
    { unfold records. rewrite lookup_zip_with, Hn, Hf. reflexivity. }
    rewrite (drop_S _ _ _ Hrec) in *.
    cbn [body flat_map fst snd] in *. fold (body (drop (S k) (records self))) in *.
    rewrite length_app, length_record_bytes in Hsz.
    assert (Hok : name_ok name).
    { eapply Forall_lookup_1 in Hnames; eauto. }
    erewrite bind_ok by (apply write_record_spec; eauto; lia).
    rewrite IH; cbn [c data].
    + rewrite <- app_assoc, length_app, length_record_bytes.
      do 2 f_equal. lia.
    + lia.
    + rewrite length_app, length_record_bytes. lia.
    + rewrite length_app, length_record_bytes. lia.
Qed.

(** Encoding succeeds and yields [encoded]. *)
Lemma write_stream_spec (self : Plz.t) :
  parallel self -> Forall name_ok (filenames self) ->
  (N.of_nat (length (encoded self)) < 4294967296)%N ->
  write_stream self = (Ok tt, encoded self).
Proof.
  intros Hpar Hnames Hsz. rewrite length_encoded in Hsz.
  unfold write_stream, write_stream_wtr.
  erewrite bind_ok by (apply write_uint32_at_end; [reflexivity | reflexivity]).
  erewrite bind_ok by (apply write_uint32_at_end; [reflexivity | reflexivity]).
  erewrite bind_ok by (apply write_at_end; reflexivity).
  erewrite bind_ok by (apply write_uint32_at_end; [reflexivity | reflexivity]).
  cbn [of_bytes data c app length].
  erewrite bind_ok.
  2:{ apply (write_records_spec self Hpar Hnames (length (files self)) 0).
      - reflexivity.
      - cbn [data]. rewrite drop_0, !length_app, !length_le_bytes.
        cbn [length magic]. lia.
      - reflexivity. }
  rewrite drop_0. cbn [data c].
  unfold bind at 1. unfold gets. cbn [data].
  unfold bind at 1. unfold seek, modify. cbn [data].
  rewrite <- !app_assoc.
  rewrite (write_uint32_patch (le_bytes (N.of_nat 16))) by
    (rewrite ?length_app, ?length_le_bytes; cbn [length magic]; (reflexivity || lia)).
  cbn [data]. unfold encoded.
  rewrite !length_app, !length_le_bytes. cbn [length magic].
  replace (4 + (4 + (4 + (4 + length (body (records self))))))
    with (16 + length (body (records self))) by lia.
  reflexivity.
Qed.

Lemma read_record_spec (a : Plz.t) d k name file rest :
  ahead (Stream d k) = record_bytes name file ++ rest ->
  name_ok name ->
  (N.of_nat (total_size_of name file) < 4294967296)%N ->
  read_record (a, Stream d k) =
    (Ok tt, (Archive (filenames a ++ [name]) (files a ++ [file]),
             Stream d (k + total_size_of name file))).
Proof.
  intros H Hok Hsz.
  pose proof (header_size_bounds name) as [Hh _].
  pose proof (total_size_bounds name file) as [Ht _].
  unfold record_bytes in H. rewrite <- !app_assoc in H.
  generalize dependent (total_size_of name file). intros ts H Hsz Ht.
  generalize dependent (header_size_of name). intros hs Hh H Ht.
  unfold read_record.
  erewrite bind_on_snd_ok by reflexivity. cbn [c].
  pose proof (ahead_advance _ _ _ _ H) as H1. rewrite length_le_bytes in H1.
  erewrite bind_on_snd_ok by (eapply read_uint32_ahead; [| exact H]; lia).
  pose proof (ahead_advance _ _ _ _ H1) as H2. rewrite length_le_bytes in H2.
  erewrite bind_on_snd_ok by (eapply read_uint32_ahead; [| exact H1]; lia).
  erewrite bind_on_snd_ok by reflexivity. cbn [c data].
  pose proof (ahead_advance _ _ _ _ H2) as H3. rewrite length_le_bytes in H3.
  pose proof (ahead_advance _ _ _ _ H3) as H4. rewrite length_le_bytes in H4.
  erewrite bind_on_snd_ok by (eapply read_uint32_ahead; [| exact H3]; lia).
  erewrite bind_on_snd_ok by (eapply read_string_ahead; [exact Hok | exact H4]).
  erewrite bind_on_snd_ok by reflexivity. cbn [c data].
  rewrite !Nat2N.id.
  assert (H5 : ahead (Stream d (k + hs)) =
               file ++ replicate (ts - (hs + length file)) x00 ++ rest).
  { rewrite (app_assoc (list_byte_of_string name)) in H4.
    rewrite (app_assoc _ (replicate _ _)) in H4.
    apply ahead_advance in H4.
    rewrite !length_app, length_replicate, length_list_byte_of_string in H4.
    cbn [length] in H4.
    replace (k + 4 + 4 + 4 + 4 + (String.length name + 1 + (hs - (16 + String.length name + 1))))
      with (k + hs) in H4 by lia.
    exact H4. }
  erewrite bind_on_snd_ok by (eapply read_ahead; exact H5).
  erewrite bind_on_snd_ok by reflexivity. cbn [c data].
  reflexivity.
Qed.

Lemma body_positive r recs : 0 < length (body (r :: recs)).
Proof.
  cbn [body flat_map]. rewrite length_app, length_record_bytes.
  pose proof (total_size_bounds r.1 r.2) as [Ht _]. lia.
Qed.

Lemma read_records_spec d size :
  N.of_nat (length d) = size -> (size < 4294967296)%N ->
  forall recs fuel (a : Plz.t) k,
    length recs <= fuel ->
    Forall (fun r => name_ok r.1) recs ->
    ahead (Stream d k) = body recs -> k <= length d ->
    read_records fuel size (a, Stream d k) =
      (Ok tt, (Archive (filenames a ++ recs.*1) (files a ++ recs.*2),
               Stream d (length d))).
Proof.
  intros Hsize Hlt recs.
  induction recs as [| [name file] recs IH]; intros fuel a k Hfuel Hok Hk Hle.
  - assert (k = length d) as ->.
    { unfold ahead in Hk. cbn [c data body flat_map] in Hk.
      apply (f_equal length) in Hk. rewrite length_drop in Hk.
      cbn [length] in Hk. lia. }
    destruct fuel; cbn [read_records];
      (erewrite bind_on_snd_ok by reflexivity); cbn [c];
      rewrite Hsize, N.ltb_irrefl; unfold ret; cbn [fmap list_fmap];
      rewrite !app_nil_r; destruct a; reflexivity.
  - pose proof (body_positive (name, file) recs) as Hpos.
    assert (Hlen : k + length (body ((name, file) :: recs)) = length d).
    { unfold ahead in Hk. cbn [c data] in Hk.
      apply (f_equal length) in Hk. rewrite length_drop in Hk. lia. }
    destruct fuel as [| fuel]; [cbn [length] in Hfuel; lia |].
    cbn [read_records].
    erewrite bind_on_snd_ok by reflexivity. cbn [c].
    replace (N.of_nat k <? size)%N with true
      by (symmetry; apply N.ltb_lt; lia).
    cbn [body flat_map fst snd] in Hk, Hlen. fold (body recs) in Hk, Hlen.
    rewrite length_app, length_record_bytes in Hlen.
    apply Forall_cons in Hok as [Hok1 Hok].
    erewrite bind_ok.
    2:{ apply (read_record_spec _ _ _ _ _ _ Hk Hok1). lia. }
    rewrite (IH fuel).
    + cbn [filenames files fmap list_fmap fst snd].
      rewrite <- !app_assoc. reflexivity.
    + cbn [length] in Hfuel. lia.
    + exact Hok.
    + pose proof (ahead_advance _ _ _ _ Hk) as Hk'.
      rewrite length_record_bytes in Hk'. exact Hk'.
    + lia.
Qed.

(** Decoding an encoded archive gives the archive back, whatever the
    archive object held before. *)
Lemma read_stream_encoded (x a0 : Plz.t) fuel :
  parallel x -> Forall name_ok (filenames x) ->
  (N.of_nat (length (encoded x)) < 4294967296)%N ->
  length (files x) <= fuel ->
  read_stream fuel (encoded x) a0 = (Ok tt, x).
Proof.
  intros Hpar Hnames Hsz Hfuel.
  pose proof Hsz as Hsz'. rewrite length_encoded in Hsz'.
  unfold read_stream, read_stream_rdr.
  unfold bind at 1. unfold on_fst at 1. unfold modify at 1. cbn [fst snd].
  unfold bind at 1. unfold on_fst at 1. unfold modify at 1. cbn [fst snd filenames].
  unfold of_bytes.
  erewrite bind_on_snd_ok
    by (eapply (read_uint32_ahead _ _ 16); [reflexivity | reflexivity]).
  erewrite bind_on_snd_ok.
  2:{ eapply (read_uint32_ahead _ _ (N.of_nat (16 + length (body (records x)))));
        [exact Hsz' | reflexivity]. }
  erewrite bind_on_snd_ok by (eapply (read_ahead _ _ magic); reflexivity).
  rewrite decide_True by reflexivity.
  unfold bind at 1. unfold ret at 1.
  erewrite bind_on_snd_ok by reflexivity. cbn [c data length magic Nat.add N.to_nat].
  change (Pos.to_nat 16) with 16.
  rewrite (read_records_spec (encoded x) _ eq_refl Hsz' (records x)).
  - cbn [filenames files app]. unfold records.
    rewrite fst_zip, snd_zip by (unfold parallel in Hpar; lia).
    destruct x; reflexivity.
  - unfold records. rewrite length_zip. unfold parallel in Hpar. lia.
  - unfold records. apply Forall_forall. intros [n f] Hin.
    apply elem_of_zip_l in Hin. cbn [fst].
    eapply Forall_forall in Hnames; eauto.
  - reflexivity.
  - rewrite length_encoded. lia.
Qed.

End CodecFacts.



(** ** The ID bookkeeping under [add_file] and [remove_file] *)

Module TreeFacts.
Import Fnt.

(** Induction on a folder tree, with the hypothesis for every child. *)
Lemma Folder_tree_ind (P : Folder -> Prop) :
  (forall o fid fs fds, Forall (fun fd => P fd.2) fds -> P (MkFolder o fid fs fds)) ->
  forall t, P t.
Proof.
  intros Hstep. fix IH 1. intros [o fid fs fds]. apply Hstep.
  induction fds as [| [n f] fds IHfds]; constructor.
  - apply IH.
  - exact IHfds.
Qed.

Lemma nodes_unfold t :
  nodes t = t :: flat_map (fun fd : string * Folder => nodes fd.2) (folders t).
Proof. destruct t. reflexivity. Qed.

Lemma nodes_in_place (F : Folder -> Folder) :
  in_place F -> forall t, nodes (F t) = F <$> nodes t.
Proof.
  intros HF t. induction t as [o fid fs fds IH] using Folder_tree_ind.
  rewrite (nodes_unfold (F _)), HF, (nodes_unfold (MkFolder _ _ _ _)).
  cbn [folders]. rewrite fmap_cons. f_equal. clear HF.
  induction IH as [| [n f] fds Hf _ IHfds]; [reflexivity |].
  cbn [map flat_map snd]. rewrite fmap_app, <- IHfds. f_equal. exact Hf.
Qed.

Lemma append_file_in_place target name : in_place (append_file target name).
Proof. intros [o fid fs fds]. reflexivity. Qed.

Lemma remove_name_in_place target name : in_place (remove_name target name).
Proof. intros [o fid fs fds]. reflexivity. Qed.

Lemma increment_in_place target new_id :
  in_place (increment_first_index_if_needed target new_id).
Proof. intros [o fid fs fds]. reflexivity. Qed.

Lemma decrement_in_place removed_id :
  in_place (decrement_first_index_if_needed removed_id).
Proof. intros [o fid fs fds]. reflexivity. Qed.

Lemma child_in_nodes name fds f t :
  child name fds = Some f -> fds = folders t -> f ∈ nodes t.
Proof.
  intros Hc ->. destruct t as [o fid fs fds]. cbn [folders nodes] in *.
  apply elem_of_cons. right.
  induction fds as [| [n g] fds IH]; [discriminate |].
  cbn [child] in Hc. cbn [flat_map snd]. apply elem_of_app.
  destruct (decide (n = name)).
  - injection Hc as ->. left. destruct f. apply elem_of_cons. left. reflexivity.
  - right. apply IH, Hc.
Qed.

Lemma nodes_trans f g t : f ∈ nodes g -> g ∈ nodes t -> f ∈ nodes t.
Proof.
  intros Hf. induction t as [o fid fs fds IH] using Folder_tree_ind.
  cbn [nodes folders]. rewrite !elem_of_cons. intros [-> | Hg].
  - cbn [nodes folders] in Hf. rewrite elem_of_cons in Hf. exact Hf.
  - right. induction IH as [| [n c] fds Hc _ IHfds];
      [cbn in Hg; inversion Hg |].
    cbn [flat_map snd] in *. rewrite elem_of_app in *.
    destruct Hg as [Hg | Hg]; [left; apply Hc, Hg | right; apply IHfds, Hg].
Qed.

Lemma subfolder_in_nodes path : forall t f,
  subfolder path t = Some f -> f ∈ nodes t.
Proof.
  induction path as [| p rest IH]; intros t f H; cbn [subfolder] in H.
  - injection H as ->. destruct f. apply elem_of_cons. left. reflexivity.
  - destruct (child p (folders t)) as [c |] eqn:Ec; [| discriminate].
    eapply nodes_trans; [apply IH, H |].
    eapply child_in_nodes; [exact Ec | reflexivity].
Qed.

(** The ID of a file is the first ID of its folder plus its position. *)
Lemma idOf_path_app path name : forall t,
  idOf_path (path ++ [name]) t =
    match subfolder path t with
    | Some f => (fun i => firstID f + i) <$> list_index name (files f)
    | None => None
    end.
Proof.
  induction path as [| p rest IH]; intros t.
  - reflexivity.
  - cbn [app subfolder].
    assert (Hne : exists q qs, rest ++ [name] = q :: qs).
    { destruct rest; cbn; eauto. }
    destruct Hne as (q & qs & Hq).
    change (idOf_path (p :: rest ++ [name]) t)
      with (match rest ++ [name] with
            | [] => (fun i => firstID t + i) <$> list_index p (files t)
            | _ :: _ =>
                match child p (folders t) with
                | Some f => idOf_path (rest ++ [name]) f
                | None => None
                end
            end).
    rewrite Hq, <- Hq. destruct (child p (folders t)); [apply IH | reflexivity].
Qed.

(** A walk that goes on below the folder it has reached. *)
Lemma idOf_path_walk dirs rest : rest <> [] -> forall t,
  idOf_path (dirs ++ rest) t =
    match subfolder dirs t with
    | Some f => idOf_path rest f
    | None => None
    end.
Proof.
  intros Hrest. induction dirs as [| p dirs IH]; intros t; [reflexivity |].
  cbn [app subfolder].
  assert (Hne : exists q qs, dirs ++ rest = q :: qs).
  { destruct dirs; [destruct rest; [congruence | eauto] | cbn; eauto]. }
  destruct Hne as (q & qs & Hq).
  change (idOf_path (p :: dirs ++ rest) t)
    with (match dirs ++ rest with
          | [] => (fun i => firstID t + i) <$> list_index p (files t)
          | _ :: _ =>
              match child p (folders t) with
              | Some f => idOf_path (dirs ++ rest) f
              | None => None
              end
          end).
  rewrite Hq, <- Hq. destruct (child p (folders t)); [apply IH | reflexivity].
Qed.

Lemma child_name name fds c : child name fds = Some c -> name ∈ fds.*1.
Proof.
  induction fds as [| [n f] fds IH]; [discriminate |].
  cbn [child]. rewrite fmap_cons. cbn [fst].
  destruct (decide (n = name)) as [-> | Hne].
  - intros _. apply list_elem_of_here.
  - intros H. apply list_elem_of_further, IH, H.
Qed.

(** In a tree without a folder of the empty name, a walk does not get
    past an empty piece. *)
Lemma idOf_path_empty_piece dirs k rest t f :
  no_empty_name t -> subfolder dirs t = Some f -> rest <> [] ->
  idOf_path (dirs ++ replicate (S k) EmptyString ++ rest) t = None.
Proof.
  intros Hnames Hsub Hrest.
  rewrite idOf_path_walk, Hsub by (cbn; discriminate).
  assert (Hne : exists q qs, replicate k EmptyString ++ rest = q :: qs).
  { destruct k; [destruct rest; [congruence | eauto] | cbn; eauto]. }
  destruct Hne as (q & qs & Hq).
  cbn [replicate app]. rewrite Hq.
  change (idOf_path (EmptyString :: q :: qs) f)
    with (match child EmptyString (folders f) with
          | Some g => idOf_path (q :: qs) g
          | None => None
          end).
  destruct (child EmptyString (folders f)) as [g |] eqn:Ec; [| reflexivity].
  exfalso. apply child_name in Ec.
  unfold no_empty_name in Hnames. rewrite Forall_forall in Hnames.
  apply (Hnames f); [| exact Ec]. eapply subfolder_in_nodes, Hsub.
Qed.

(** The names of the folders stay under a function that rebuilds the tree
    in place. *)
Lemma no_empty_name_in_place (F : Folder -> Folder) t :
  in_place F -> no_empty_name t -> no_empty_name (F t).
Proof.
  intros HF. unfold no_empty_name. rewrite (nodes_in_place F HF), Forall_fmap.
  intros H. eapply Forall_impl; [exact H |]. intros f Hf. cbn. rewrite HF.
  assert (Hnames : (map (fun fd : string * Folder => let '(n, g) := fd in (n, F g))
                      (folders f)).*1 = (folders f).*1).
  { induction (folders f) as [| [n g] fds IH]; [reflexivity |].
    cbn [map]. rewrite !fmap_cons, IH. reflexivity. }
  rewrite Hnames. exact Hf.
Qed.

End TreeFacts.

(** ** Paths: [os.path.split] against [split("/")] *)

Module PathFacts.

Lemma split_slash_cons s : exists x xs, split_slash s = x :: xs.
Proof.
  induction s as [| ch s (x & xs & IH)]; cbn [split_slash]; [eauto |].
  destruct (decide (ch = slash)); [eauto |]. rewrite IH. eauto.
Qed.

Lemma split_slash_letter ch s x xs :
  ch <> slash -> split_slash s = x :: xs ->
  split_slash (String ch s) = String ch x :: xs.
Proof.
  intros Hch Hs. cbn [split_slash]. rewrite decide_False by exact Hch.
  rewrite Hs. reflexivity.
Qed.

(** The pieces of a path are the pieces of its head, whose last one is
    empty, with the tail in the place of that last piece. *)
Lemma split_at_last_slash_pieces p :
  let '(h, t) := split_at_last_slash p in
  (h = EmptyString /\ split_slash p = [t]) \/
  (exists xs, xs <> [] /\ split_slash h = xs ++ [EmptyString] /\
              split_slash p = xs ++ [t]).
Proof.
  induction p as [| ch p IH]; [left; split; reflexivity |].
  cbn [split_at_last_slash].
  destruct (split_at_last_slash p) as [h t].
  destruct IH as [[-> Hp] | (xs & Hxs & Hh & Hp)].
  - destruct (decide (ch = slash)) as [-> | Hch].
    + right. exists [EmptyString]. (split; [done | split]).
      * reflexivity.
      * cbn [split_slash]. rewrite decide_True by reflexivity.
        rewrite Hp. reflexivity.
    + left. split; [reflexivity |].
      apply split_slash_letter; assumption.
  - assert (Hne : h <> EmptyString).
    { intros ->. cbn in Hh. destruct xs as [| ? [| ? ?]]; cbn in Hh; congruence. }
    destruct h as [| c0 h0]; [congruence |].
    right. destruct (decide (ch = slash)) as [-> | Hch].
    + exists (EmptyString :: xs). (split; [done | split]).
      * cbn [split_slash] in *. rewrite decide_True by reflexivity.
        rewrite Hh. reflexivity.
      * cbn [split_slash]. rewrite decide_True by reflexivity.
        rewrite Hp. reflexivity.
    + destruct xs as [| x xs]; [congruence |].
      exists (String ch x :: xs). (split; [done | split]).
      * apply split_slash_letter; [exact Hch | exact Hh].
      * apply split_slash_letter; [exact Hch | exact Hp].
Qed.

(** Stripping the slashes at the end drops empty pieces at the end. *)
Lemma rstrip_slash_pieces h :
  exists k,
    (rstrip_slash h = EmptyString /\ split_slash h = replicate (S k) EmptyString) \/
    (rstrip_slash h <> EmptyString /\
     split_slash h = split_slash (rstrip_slash h) ++ replicate k EmptyString).
Proof.
  induction h as [| ch h [k IH]]; [exists 0; left; split; reflexivity |].
  cbn [rstrip_slash].
  destruct IH as [[Hr Hs] | [Hr Hs]].
  - rewrite Hr. destruct (decide (ch = slash)) as [-> | Hch].
    + exists (S k). left. split; [reflexivity |].
      cbn [split_slash]. rewrite decide_True by reflexivity.
      rewrite Hs. reflexivity.
    + exists k. right. split; [discriminate |].
      rewrite (split_slash_letter ch h EmptyString (replicate k EmptyString) Hch Hs).
      rewrite (split_slash_letter ch EmptyString EmptyString [] Hch eq_refl).
      reflexivity.
  - destruct (rstrip_slash h) as [| c0 r0] eqn:Er; [congruence |].
    exists k. right. split; [discriminate |].
    destruct (decide (ch = slash)) as [-> | Hch].
    + cbn [split_slash]. rewrite !decide_True by reflexivity.
      rewrite Hs. reflexivity.
    + destruct (split_slash_cons (String c0 r0)) as (x & xs & Hx).
      rewrite Hx in Hs.
      rewrite (split_slash_letter ch h x (xs ++ replicate k EmptyString) Hch Hs).
      rewrite (split_slash_letter ch _ x xs Hch Hx).
      reflexivity.
Qed.

(** *** The pieces that the folder tree looks up *)

Lemma split_slash_slash s :
  split_slash (String slash s) = EmptyString :: split_slash s.
Proof.
  destruct (split_slash_cons s) as (x & xs & Hs).
  cbn [split_slash]. rewrite decide_True by reflexivity. reflexivity.
Qed.

Lemma strip_empty_end_nil l :
  Fnt.strip_empty_end l = [] <-> Forall (fun x => x = EmptyString) l.
Proof.
  induction l as [| x l IH]; cbn [Fnt.strip_empty_end]; [split; auto |].
  destruct (Fnt.strip_empty_end l) as [| y r] eqn:E.
  - destruct (decide (x = EmptyString)) as [-> | Hx].
    + split; [| reflexivity]. intros _. constructor; [reflexivity | apply IH; reflexivity].
    + split; [discriminate |]. intros H. inversion H. contradiction.
  - split; [discriminate |]. intros H. inversion H as [| ? ? _ Hl].
    apply IH in Hl. discriminate.
Qed.

Lemma strip_empty_end_snoc l x :
  x <> EmptyString -> Fnt.strip_empty_end (l ++ [x]) = l ++ [x].
Proof.
  intros Hx. induction l as [| y l IH].
  - cbn. rewrite decide_False by exact Hx. reflexivity.
  - cbn [app Fnt.strip_empty_end]. rewrite IH.
    destruct (l ++ [x]) eqn:E; [destruct l; discriminate | reflexivity].
Qed.

Lemma strip_empty_end_empties l k :
  Fnt.strip_empty_end (l ++ replicate k EmptyString) = Fnt.strip_empty_end l.
Proof.
  induction l as [| y l IH].
  - cbn [app]. apply strip_empty_end_nil. apply Forall_replicate. reflexivity.
  - cbn [app Fnt.strip_empty_end]. rewrite IH. reflexivity.
Qed.

Lemma strip_empty_end_plain l :
  EmptyString ∉ l -> Fnt.strip_empty_end l = l.
Proof.
  induction l as [| y l IH]; [reflexivity |].
  intros H. apply not_elem_of_cons in H as [Hy Hl].
  cbn [Fnt.strip_empty_end]. rewrite (IH Hl).
  destruct l; [| reflexivity]. rewrite decide_False by congruence. reflexivity.
Qed.

(** What is left ends in a piece that is not empty. *)
Lemma strip_empty_end_last l :
  Fnt.strip_empty_end l = [] \/
  exists xs x, Fnt.strip_empty_end l = xs ++ [x] /\ x <> EmptyString.
Proof.
  induction l as [| y l IH]; [left; reflexivity |].
  cbn [Fnt.strip_empty_end].
  destruct IH as [-> | (xs & x & -> & Hx)].
  - destruct (decide (y = EmptyString)); [left; reflexivity |].
    right. exists [], y. auto.
  - right. exists (y :: xs), x. split; [| exact Hx].
    destruct (xs ++ [x]) eqn:E; [destruct xs; discriminate |].
    cbn [app]. rewrite E. reflexivity.
Qed.

Lemma strip_empty_end_idem l :
  Fnt.strip_empty_end (Fnt.strip_empty_end l) = Fnt.strip_empty_end l.
Proof.
  destruct (strip_empty_end_last l) as [-> | (xs & x & -> & Hx)]; [reflexivity |].
  apply strip_empty_end_snoc, Hx.
Qed.

Lemma path_list_Some path l :
  Fnt.path_list path = Some l ->
  Fnt.strip_empty_end (split_slash path) = l /\ l <> [] /\ Fnt.strip_empty_end l = l.
Proof.
  unfold Fnt.path_list. pose proof (strip_empty_end_idem (split_slash path)) as Hidem.
  destruct (Fnt.strip_empty_end (split_slash path)) as [| x xs]; [discriminate |].
  intros [= <-]. auto.
Qed.

(** A plain path is looked up by its pieces as they are. *)
Lemma path_list_plain path :
  plain path -> Fnt.path_list path = Some (split_slash path).
Proof.
  intros H. unfold Fnt.path_list. rewrite (strip_empty_end_plain _ H).
  destruct (split_slash_cons path) as (x & xs & ->). reflexivity.
Qed.

(** A string that does not end in a slash ends in a piece that is not
    empty. *)
Lemma rstrip_slash_last h :
  rstrip_slash h <> EmptyString ->
  exists xs x, split_slash (rstrip_slash h) = xs ++ [x] /\ x <> EmptyString.
Proof.
  induction h as [| ch h IH]; [intros H; contradiction H; reflexivity |].
  cbn [rstrip_slash]. destruct (rstrip_slash h) as [| c0 r0] eqn:Er.
  - destruct (decide (ch = slash)) as [-> | Hch]; [intros H; contradiction H; reflexivity |].
    intros _. exists [], (String ch EmptyString). split; [| discriminate].
    cbn [split_slash]. rewrite decide_False by exact Hch. reflexivity.
  - intros _. destruct (IH ltac:(discriminate)) as (xs & x & Hs & Hx).
    destruct (decide (ch = slash)) as [-> | Hch].
    + exists (EmptyString :: xs), x. split; [| exact Hx].
      rewrite split_slash_slash, Hs. reflexivity.
    + destruct xs as [| x0 xs].
      * exists [], (String ch x). split; [| discriminate].
        apply split_slash_letter; [exact Hch | exact Hs].
      * exists (String ch x0 :: xs), x. split; [| exact Hx].
        apply (split_slash_letter ch _ x0 (xs ++ [x]) Hch Hs).
Qed.

(** The pieces of a path against the pieces of the head that
    [os.path.split] yields: when the head has pieces, the path has these
    pieces, then an empty piece for every further slash in front of the
    tail, then the tail. *)
Lemma os_path_split_pieces file :
  let '(head, tail) := os_path_split file in
  Fnt.path_list head = None \/
  exists hl k, Fnt.path_list head = Some hl /\
               split_slash file = hl ++ replicate k EmptyString ++ [tail].
Proof.
  unfold os_path_split.
  pose proof (split_at_last_slash_pieces file) as Hsplit.
  destruct (split_at_last_slash file) as [h t].
  destruct Hsplit as [[-> Hp] | (xs & Hxs & Hh & Hp)]; [left; reflexivity |].
  destruct (rstrip_slash_pieces h) as [k [[Hr Hs] | [Hr Hs]]].
  - rewrite Hr. left. unfold Fnt.path_list. rewrite Hs.
    replace (Fnt.strip_empty_end (replicate (S k) EmptyString)) with (@nil string);
      [reflexivity |].
    symmetry. apply strip_empty_end_nil, Forall_replicate. reflexivity.
  - destruct (rstrip_slash_last h Hr) as (ys & y & Hq & Hy).
    destruct (rstrip_slash h) as [| c0 r0] eqn:Er; [congruence |].
    right. exists (ys ++ [y]).
    assert (Hk : exists k', k = S k').
    { destruct k as [| k']; [| eauto]. exfalso.
      rewrite app_nil_r, Hq in Hs. rewrite Hs in Hh.
      apply app_inj_tail in Hh as [_ Hh]. congruence. }
    destruct Hk as [k' ->]. exists k'. split.
    + unfold Fnt.path_list. rewrite Hq, (strip_empty_end_snoc _ _ Hy).
      destruct (ys ++ [y]) eqn:E; [destruct ys; discriminate | reflexivity].
    + rewrite Hp. rewrite Hq in Hs. rewrite Hs in Hh.
      assert (Hrep : replicate (S k') EmptyString = replicate k' EmptyString ++ [EmptyString]).
      { clear. induction k' as [| k' IH]; [reflexivity |].
        cbn [replicate app] in *. rewrite <- IH. reflexivity. }
      rewrite Hrep, !app_assoc in Hh. apply app_inj_tail in Hh as [Hh _].
      rewrite <- Hh, <- !app_assoc. reflexivity.
Qed.

(** For a plain path, the pieces are those of the head and the tail; a
    path of one piece has the empty head, which has no pieces. *)
Lemma os_path_split_plain file :
  plain file ->
  (os_path_split file).2 <> EmptyString /\
  (Fnt.path_list (os_path_split file).1 = None \/
   exists hl, Fnt.path_list (os_path_split file).1 = Some hl /\
              Fnt.path_list file = Some (hl ++ [(os_path_split file).2])).
Proof.
  intros Hplain. pose proof (os_path_split_pieces file) as H.
  pose proof (split_at_last_slash_pieces file) as Hsplit.
  assert (Htail : (os_path_split file).2 = (split_at_last_slash file).2).
  { unfold os_path_split. destruct (split_at_last_slash file) as [h t].
    destruct (rstrip_slash h); reflexivity. }
  assert (Hne : (os_path_split file).2 <> EmptyString).
  { rewrite Htail. destruct (split_at_last_slash file) as [h t]. cbn [snd].
    intros ->. apply Hplain.
    destruct Hsplit as [[_ ->] | (xs & _ & _ & ->)].
    - apply list_elem_of_here.
    - apply elem_of_app. right. apply list_elem_of_here. }
  split; [exact Hne |].
  destruct (os_path_split file) as [head tail]. cbn [fst snd] in *.
  destruct H as [H | (hl & k & Hhl & Hs)]; [left; exact H |].
  right. exists hl. split; [exact Hhl |].
  rewrite (path_list_plain _ Hplain), Hs.
  destruct k as [| k]; [reflexivity |].
  exfalso. apply Hplain. rewrite Hs. apply elem_of_app. right.
  apply elem_of_app. left. apply list_elem_of_here.
Qed.

End PathFacts.

(** ** Well-formed ID bookkeeping is kept *)

Module BookkeepingFacts.
Import Fnt TreeFacts PathFacts.

Lemma wf_ids_nodes n t : wf_ids n t <-> wf_nodes n (nodes t).
Proof.
  unfold wf_ids, wf_nodes. rewrite !Forall_forall.
  split; intros (H1 & H2 & H3); (split; [| split]); auto.
  - intros f g Hf Hg. specialize (H3 f Hf).
    rewrite Forall_forall in H3. auto.
  - intros f Hf. apply Forall_forall. auto.
Qed.

Lemma same_oid_same_node ns f g :
  NoDup (oid <$> ns) -> f ∈ ns -> g ∈ ns -> oid f = oid g -> f = g.
Proof.
  induction ns as [| h ns IH]; intros Hnd Hf Hg Ho; [inversion Hf |].
  rewrite fmap_cons in Hnd. apply NoDup_cons in Hnd as [Hh Hnd].
  apply elem_of_cons in Hf as [-> | Hf]; apply elem_of_cons in Hg as [-> | Hg].
  - reflexivity.
  - exfalso. apply Hh. rewrite Ho. apply list_elem_of_fmap_2, Hg.
  - exfalso. apply Hh. rewrite <- Ho. apply list_elem_of_fmap_2, Hf.
  - apply IH; assumption.
Qed.

(** A measure that changes at one folder object only changes the sum by
    that much. *)
Lemma sum_change (h h' : Folder -> nat) ns fa :
  NoDup (oid <$> ns) -> fa ∈ ns ->
  (forall f, f ∈ ns -> oid f <> oid fa -> h' f = h f) ->
  sum_list (map h' ns) + h fa = sum_list (map h ns) + h' fa.
Proof.
  induction ns as [| f ns IH]; intros Hnd Hfa Hsame; [inversion Hfa |].
  rewrite fmap_cons in Hnd. apply NoDup_cons in Hnd as [Hf Hnd].
  change (sum_list (map h' (f :: ns))) with (h' f + sum_list (map h' ns)).
  change (sum_list (map h (f :: ns))) with (h f + sum_list (map h ns)).
  apply elem_of_cons in Hfa as [-> | Hfa].
  - assert (Hrest : map h' ns = map h ns).
    { apply map_ext_in. intros g Hg. apply list_elem_of_In in Hg.
      apply Hsame; [apply elem_of_cons; right; exact Hg |].
      intros Ho. apply Hf. rewrite <- Ho. apply list_elem_of_fmap_2, Hg. }
    rewrite Hrest. lia.
  - assert (Hne : oid f <> oid fa).
    { intros Ho. apply Hf. rewrite Ho. apply list_elem_of_fmap_2, Hfa. }
    rewrite (Hsame f (list_elem_of_here f ns) Hne).
    specialize (IH Hnd Hfa
      ltac:(intros g Hg; apply Hsame, list_elem_of_further, Hg)).
    lia.
Qed.

Lemma added_oid target new_id name f : oid (added target new_id name f) = oid f.
Proof. destruct f. reflexivity. Qed.

Lemma added_firstID target new_id name f :
  firstID (added target new_id name f) =
    if decide (new_id <= firstID f /\ oid f <> target)
    then firstID f + 1 else firstID f.
Proof. destruct f. reflexivity. Qed.

Lemma added_length target new_id name f :
  length (files (added target new_id name f)) =
    if decide (oid f = target) then S (length (files f)) else length (files f).
Proof.
  destruct f as [o fid fs fds]. cbn [added append_file
    increment_first_index_if_needed files oid].
  destruct (decide (o = target)); [| reflexivity].
  rewrite length_app. cbn [length]. lia.
Qed.

(** Every folder other than [fa] lies apart from it; [fa] is itself. *)
Lemma relative_to ns n fa f :
  wf_nodes n ns -> fa ∈ ns -> f ∈ ns ->
  (oid f = oid fa /\ f = fa) \/ (oid f <> oid fa /\ apart f fa).
Proof.
  intros (Hnd & _ & Hpairs) Hfa Hf.
  destruct (decide (oid f = oid fa)) as [Ho | Ho].
  - left. split; [exact Ho |]. eapply same_oid_same_node; eauto.
  - right. split; [exact Ho |]. destruct (Hpairs f fa Hf Hfa); [contradiction | assumption].
Qed.

Lemma add_wf_nodes ns n fa name :
  wf_nodes n ns -> fa ∈ ns ->
  wf_nodes (S n)
    (added (oid fa) (firstID fa + length (files fa)) name <$> ns).
Proof.
  intros Hwf Hfa. pose proof Hwf as (Hnd & Hbound & Hpairs).
  set (G := added (oid fa) (firstID fa + length (files fa)) name).
  split; [| split].
  - rewrite <- list_fmap_compose.
    erewrite list_fmap_ext; [exact Hnd |].
    intros i f _. apply added_oid.
  - intros f' Hf'. apply list_elem_of_fmap in Hf' as (f & -> & Hf).
    pose proof (Hbound f Hf) as Hb. pose proof (Hbound fa Hfa) as Hba.
    destruct (relative_to ns n fa f Hwf Hfa Hf) as [[Ho ->] | [Ho Hap]];
      unfold G; rewrite added_firstID, added_length;
      repeat case_decide; unfold apart in *; lia.
  - intros f' g' Hf' Hg'.
    apply list_elem_of_fmap in Hf' as (f & -> & Hf).
    apply list_elem_of_fmap in Hg' as (g & -> & Hg).
    unfold G. rewrite !added_oid.
    destruct (decide (oid f = oid g)) as [Ho | Ho]; [left; exact Ho | right].
    destruct (Hpairs f g Hf Hg) as [? | Hap]; [contradiction |].
    pose proof (Hbound fa Hfa) as Hba.
    destruct (relative_to ns n fa f Hwf Hfa Hf) as [[Hof ->] | [Hof Hapf]];
    destruct (relative_to ns n fa g Hwf Hfa Hg) as [[Hog ->] | [Hog Hapg]];
      unfold apart in *; rewrite !added_firstID, !added_length;
      repeat case_decide; lia.
Qed.

(** [add_file] names one file more. *)
Lemma add_named_files ns fa target new_id name :
  NoDup (oid <$> ns) -> fa ∈ ns -> target = oid fa ->
  named_files (added target new_id name <$> ns) = S (named_files ns).
Proof.
  intros Hnd Hfa ->. unfold named_files.
  set (G := added (oid fa) new_id name).
  change (map (fun f => length (files f)) (G <$> ns))
    with (map (fun f => length (files f)) (map G ns)).
  rewrite map_map.
  pose proof (sum_change (fun f => length (files f))
                (fun f => length (files (G f))) ns fa Hnd Hfa) as Hs.
  cbn beta in Hs.
  assert (Hsame : forall f, f ∈ ns -> oid f <> oid fa ->
                    length (files (G f)) = length (files f)).
  { intros f Hf Ho. unfold G. rewrite added_length, decide_False by exact Ho.
    reflexivity. }
  specialize (Hs Hsame).
  assert (Hfa' : length (files (G fa)) = S (length (files fa))).
  { unfold G. rewrite added_length, decide_True by reflexivity. reflexivity. }
  rewrite Hfa' in Hs. lia.
Qed.

Lemma removed_oid target removed_id name f :
  oid (removed target removed_id name f) = oid f.
Proof. destruct f. reflexivity. Qed.

Lemma removed_firstID target removed_id name f :
  firstID (removed target removed_id name f) =
    if decide (removed_id < firstID f) then firstID f - 1 else firstID f.
Proof. destruct f. reflexivity. Qed.

Lemma removed_length_other target removed_id name f :
  oid f <> target ->
  length (files (removed target removed_id name f)) = length (files f).
Proof.
  intros Ho. destruct f as [o fid fs fds].
  cbn [removed remove_name decrement_first_index_if_needed files oid] in *.
  rewrite decide_False by exact Ho. reflexivity.
Qed.

Lemma removed_length_target removed_id name f idx :
  list_index name (files f) = Some idx ->
  S (length (files (removed (oid f) removed_id name f))) = length (files f).
Proof.
  intros Hidx. pose proof (list_index_lt _ _ _ Hidx) as Hlt.
  destruct f as [o fid fs fds].
  cbn [removed remove_name decrement_first_index_if_needed files oid] in *.
  rewrite decide_True by reflexivity.
  unfold list_remove. rewrite Hidx. cbn [fmap option_fmap option_map default].
  unfold Datatypes.id.
  rewrite length_delete by (apply lookup_lt_is_Some_2; exact Hlt). lia.
Qed.

Lemma remove_wf_nodes ns n fa name idx :
  wf_nodes n ns -> fa ∈ ns -> list_index name (files fa) = Some idx ->
  wf_nodes (n - 1) (removed (oid fa) (firstID fa + idx) name <$> ns).
Proof.
  intros Hwf Hfa Hidx. pose proof Hwf as (Hnd & Hbound & Hpairs).
  pose proof (list_index_lt _ _ _ Hidx) as Hlt.
  pose proof (removed_length_target (firstID fa + idx) name fa idx Hidx) as Hlen.
  pose proof (Hbound fa Hfa) as Hba.
  set (G := removed (oid fa) (firstID fa + idx) name) in *.
  assert (HG1 : forall f, firstID (G f) =
            if decide (firstID fa + idx < firstID f)
            then firstID f - 1 else firstID f)
    by (intros f; apply removed_firstID).
  assert (HG2 : forall f, oid f <> oid fa ->
            length (files (G f)) = length (files f))
    by (intros f Ho; apply removed_length_other, Ho).
  assert (Hrel : forall f, f ∈ ns ->
            (firstID f = firstID fa /\ length (files f) = length (files fa) /\
             oid f = oid fa /\ S (length (files (G f))) = length (files f)) \/
            (oid f <> oid fa /\ apart f fa /\
             length (files (G f)) = length (files f))).
  { intros f Hf.
    destruct (relative_to ns n fa f Hwf Hfa Hf) as [[Ho ->] | [Ho Hap]];
      [left | right]; auto. }
  split; [| split].
  - rewrite <- list_fmap_compose.
    erewrite list_fmap_ext; [exact Hnd |].
    intros i f _. apply removed_oid.
  - intros f' Hf'. apply list_elem_of_fmap in Hf' as (f & -> & Hf).
    pose proof (Hbound f Hf) as Hb.
    destruct (Hrel f Hf) as [(? & ? & ? & ?) | (? & ? & ?)];
      unfold apart in *; rewrite HG1; case_decide; lia.
  - intros f' g' Hf' Hg'.
    apply list_elem_of_fmap in Hf' as (f & -> & Hf).
    apply list_elem_of_fmap in Hg' as (g & -> & Hg).
    unfold G at 1 2. rewrite !removed_oid.
    destruct (decide (oid f = oid g)) as [Ho | Ho]; [left; exact Ho | right].
    destruct (Hpairs f g Hf Hg) as [? | Hap]; [contradiction |].
    destruct (Hrel f Hf) as [(? & ? & ? & ?) | (? & ? & ?)];
    destruct (Hrel g Hg) as [(? & ? & ? & ?) | (? & ? & ?)];
      unfold apart in *; rewrite !HG1; repeat case_decide; lia.
Qed.

(** [remove_file] names one file less. *)
Lemma remove_named_files ns fa removed_id name idx :
  NoDup (oid <$> ns) -> fa ∈ ns -> list_index name (files fa) = Some idx ->
  S (named_files (removed (oid fa) removed_id name <$> ns)) = named_files ns.
Proof.
  intros Hnd Hfa Hidx. unfold named_files.
  pose proof (removed_length_target removed_id name fa idx Hidx) as Hlen.
  set (G := removed (oid fa) removed_id name) in *.
  change (map (fun f => length (files f)) (G <$> ns))
    with (map (fun f => length (files f)) (map G ns)).
  rewrite map_map.
  pose proof (sum_change (fun f => length (files f))
                (fun f => length (files (G f))) ns fa Hnd Hfa) as Hs.
  cbn beta in Hs.
  assert (Hsame : forall f, f ∈ ns -> oid f <> oid fa ->
                    length (files (G f)) = length (files f)).
  { intros f Hf Ho. apply removed_length_other, Ho. }
  specialize (Hs Hsame). lia.
Qed.

(** *** When [firstID] is the least ID of the subtree *)

Lemma foldr_min_le x xs :
  foldr Nat.min x xs <= x /\ Forall (fun y => foldr Nat.min x xs <= y) xs.
Proof.
  induction xs as [| y ys [IH1 IH2]]; cbn [foldr]; [split; [lia | constructor] |].
  split; [lia |]. constructor; [lia |].
  eapply Forall_impl; [exact IH2 |]. cbn. intros z Hz. lia.
Qed.

Lemma foldr_min_in x xs : foldr Nat.min x xs ∈ x :: xs.
Proof.
  induction xs as [| y ys IH]; cbn [foldr]; [apply list_elem_of_here |].
  destruct (Nat.min_spec y (foldr Nat.min x ys)) as [[_ ->] | [_ ->]].
  - apply list_elem_of_further, list_elem_of_here.
  - apply elem_of_cons in IH as [-> | IH]; [apply list_elem_of_here |].
    do 2 apply list_elem_of_further. exact IH.
Qed.

(** [fid] is the least of [ids]: it is one of them and none is smaller,
    unless there is none. *)
Lemma least_of_spec ids fid :
  least_of ids fid <->
  ids = [] \/ (fid ∈ ids /\ forall i, i ∈ ids -> fid <= i).
Proof.
  unfold least_of, minimum. destruct ids as [| x xs]; [split; auto |].
  destruct (foldr_min_le x xs) as [Hx Hxs]. rewrite Forall_forall in Hxs.
  split.
  - intros ->. right. split; [apply foldr_min_in |].
    intros i Hi. apply elem_of_cons in Hi as [-> | Hi]; auto.
  - intros [H | [Hin Hle]]; [discriminate |].
    pose proof (Hle _ (foldr_min_in x xs)) as H1.
    apply elem_of_cons in Hin as [-> | Hin]; [lia |].
    specialize (Hxs _ Hin). lia.
Qed.

(** The slot IDs of a subtree: those in the range of one of its folders. *)
Lemma in_subtree_ids i f :
  i ∈ subtree_ids f <->
  exists g, g ∈ nodes f /\ firstID g <= i < firstID g + length (files g).
Proof.
  unfold subtree_ids, own_ids. rewrite list_elem_of_In, in_flat_map. split.
  - intros (g & Hg & Hi). apply in_seq in Hi. exists g.
    split; [apply list_elem_of_In, Hg | lia].
  - intros (g & Hg & Hi). exists g.
    split; [apply list_elem_of_In, Hg | apply in_seq; lia].
Qed.

Lemma nodes_self t : t ∈ nodes t.
Proof. rewrite nodes_unfold. apply list_elem_of_here. Qed.

Lemma added_in_place target new_id name : in_place (added target new_id name).
Proof.
  intros [o fid fs fds].
  cbn [added append_file increment_first_index_if_needed folders].
  rewrite map_map. apply map_ext. intros [n f]. reflexivity.
Qed.

Lemma removed_in_place target removed_id name :
  in_place (removed target removed_id name).
Proof.
  intros [o fid fs fds].
  cbn [removed remove_name decrement_first_index_if_needed folders].
  rewrite map_map. apply map_ext. intros [n f]. reflexivity.
Qed.

(** A subtree that holds a slot: its [firstID] is one of the slots, the
    first ID of a folder of the subtree that holds files, and no folder of
    the subtree that holds files starts below it. *)
Lemma subtree_min_node f :
  least_of (subtree_ids f) (firstID f) ->
  forall g, g ∈ nodes f -> files g <> [] ->
    firstID f <= firstID g /\
    exists g0, g0 ∈ nodes f /\ files g0 <> [] /\ firstID g0 = firstID f.
Proof.
  intros Hmin g Hg Hne. apply least_of_spec in Hmin.
  assert (Hlen : forall h : Folder, files h <> [] -> 0 < length (files h)).
  { intros h Hh. destruct (files h); [congruence | cbn; lia]. }
  assert (Hin : firstID g ∈ subtree_ids f).
  { apply in_subtree_ids. exists g. split; [exact Hg |].
    specialize (Hlen g Hne). lia. }
  destruct Hmin as [Hnil | [Hfirst Hle]]; [rewrite Hnil in Hin; inversion Hin |].
  split; [apply Hle, Hin |].
  apply in_subtree_ids in Hfirst as (g0 & Hg0 & Hrange).
  assert (Hne0 : files g0 <> []).
  { intros H0. rewrite H0 in Hrange. cbn in Hrange. lia. }
  exists g0. split; [exact Hg0 |]. split; [exact Hne0 |].
  assert (firstID g0 ∈ subtree_ids f).
  { apply in_subtree_ids. exists g0. split; [exact Hg0 |].
    specialize (Hlen g0 Hne0). lia. }
  specialize (Hle _ H). lia.
Qed.

(** The other way round. *)
Lemma subtree_min_from_nodes f :
  (forall g, g ∈ nodes f -> files g <> [] ->
     firstID f <= firstID g /\
     exists g0, g0 ∈ nodes f /\ files g0 <> [] /\ firstID g0 = firstID f) ->
  least_of (subtree_ids f) (firstID f).
Proof.
  intros H. apply least_of_spec.
  destruct (subtree_ids f) as [| i0 rest] eqn:E; [left; reflexivity |].
  right. rewrite <- E.
  assert (Hne : forall i g, g ∈ nodes f ->
            firstID g <= i < firstID g + length (files g) -> files g <> []).
  { intros i g _ Hrange H0. rewrite H0 in Hrange. cbn in Hrange. lia. }
  assert (Hi0 : i0 ∈ subtree_ids f) by (rewrite E; apply list_elem_of_here).
  apply in_subtree_ids in Hi0 as (g & Hg & Hrange).
  destruct (H g Hg (Hne _ _ Hg Hrange)) as (_ & g0 & Hg0 & Hne0 & Hfirst).
  split.
  - apply in_subtree_ids. exists g0. split; [exact Hg0 |].
    destruct (files g0); [congruence | cbn; lia].
  - intros i Hi. apply in_subtree_ids in Hi as (h & Hh & Hr).
    destruct (H h Hh (Hne _ _ Hh Hr)) as [Hle _]. lia.
Qed.

(** [add_file] into a folder that holds a file keeps [firstID] the least
    slot ID of every subtree. *)
Lemma add_subtree_min root n fa name :
  wf_nodes n (nodes root) -> fa ∈ nodes root -> files fa <> [] ->
  firstID_is_subtree_min root ->
  firstID_is_subtree_min
    (added (oid fa) (firstID fa + length (files fa)) name root).
Proof.
  intros Hwf Hfa Hne Hmin. unfold firstID_is_subtree_min in *.
  rewrite Forall_forall in Hmin. apply Forall_forall. intros f' Hf'.
  set (F := added (oid fa) (firstID fa + length (files fa)) name) in *.
  rewrite (nodes_in_place F (added_in_place _ _ _)) in Hf'.
  apply list_elem_of_fmap in Hf' as (f & -> & Hf).
  specialize (Hmin f Hf).
  assert (Hlen : forall h : Folder, files h <> [] <-> 0 < length (files h)).
  { intros h. destruct (files h); cbn; [split; [congruence | lia] |].
    split; [lia | discriminate]. }
  assert (Hlena : 0 < length (files fa)) by (apply Hlen, Hne).
  assert (Hback : forall g, g ∈ nodes f -> files (F g) <> [] -> files g <> []).
  { intros g Hg Hg'. pose proof (nodes_trans _ _ _ Hg Hf) as Hgr.
    destruct (relative_to _ n fa g Hwf Hfa Hgr) as [[_ ->] | [Ho _]]; [exact Hne |].
    apply Hlen. apply Hlen in Hg'. unfold F in Hg'.
    rewrite added_length, decide_False in Hg' by exact Ho. exact Hg'. }
  assert (Hforth : forall g, g ∈ nodes f -> files g <> [] -> files (F g) <> []).
  { intros g Hg Hg'. apply Hlen. apply Hlen in Hg'. unfold F.
    rewrite added_length. case_decide; lia. }
  assert (Hmono : forall g, g ∈ nodes f -> files g <> [] ->
            firstID f <= firstID g -> firstID (F f) <= firstID (F g)).
  { intros g Hg Hg' Hle. pose proof (nodes_trans _ _ _ Hg Hf) as Hgr.
    unfold F. rewrite !added_firstID.
    destruct (relative_to _ n fa g Hwf Hfa Hgr) as [[Ho ->] | [Ho _]];
      destruct (relative_to _ n fa f Hwf Hfa Hf) as [[Ho' Heq] | [Ho' _]];
      repeat case_decide; try lia; tauto. }
  apply subtree_min_from_nodes. intros g' Hg' Hne'.
  rewrite (nodes_in_place F (added_in_place _ _ _)) in Hg'.
  apply list_elem_of_fmap in Hg' as (g & -> & Hg).
  pose proof (Hback g Hg Hne') as Hneg.
  destruct (subtree_min_node f Hmin g Hg Hneg) as (Hle & g0 & Hg0 & Hne0 & Hfirst).
  split; [apply Hmono; assumption |].
  exists (F g0). split; [| split].
  - rewrite (nodes_in_place F (added_in_place _ _ _)).
    apply list_elem_of_fmap_2, Hg0.
  - apply Hforth; assumption.
  - pose proof (nodes_trans _ _ _ Hg0 Hf) as Hg0r.
    apply Hlen in Hne0. unfold F. rewrite !added_firstID.
    destruct (relative_to _ n fa g0 Hwf Hfa Hg0r) as [[Ho ->] | [Ho _]];
      destruct (relative_to _ n fa f Hwf Hfa Hf) as [[Ho' Heq] | [Ho' _]];
      try rewrite Heq in *; repeat case_decide; try lia; tauto.
Qed.

(** [remove_file] from a folder that holds another file keeps [firstID]
    the least slot ID of every subtree. *)
Lemma remove_subtree_min root n fa name idx :
  wf_nodes n (nodes root) -> fa ∈ nodes root ->
  list_index name (files fa) = Some idx -> 2 <= length (files fa) ->
  firstID_is_subtree_min root ->
  firstID_is_subtree_min (removed (oid fa) (firstID fa + idx) name root).
Proof.
  intros Hwf Hfa Hidx Htwo Hmin. unfold firstID_is_subtree_min in *.
  rewrite Forall_forall in Hmin. apply Forall_forall. intros f' Hf'.
  set (F := removed (oid fa) (firstID fa + idx) name) in *.
  rewrite (nodes_in_place F (removed_in_place _ _ _)) in Hf'.
  apply list_elem_of_fmap in Hf' as (f & -> & Hf).
  specialize (Hmin f Hf).
  assert (Hlen : forall h : Folder, files h <> [] <-> 0 < length (files h)).
  { intros h. destruct (files h); cbn; [split; [congruence | lia] |].
    split; [lia | discriminate]. }
  assert (Hlength : forall g, g ∈ nodes f ->
            (g = fa /\ S (length (files (F g))) = length (files g)) \/
            length (files (F g)) = length (files g)).
  { intros g Hg. pose proof (nodes_trans _ _ _ Hg Hf) as Hgr.
    destruct (relative_to _ n fa g Hwf Hfa Hgr) as [[_ ->] | [Ho _]].
    - left. split; [reflexivity |]. apply (removed_length_target _ _ _ idx), Hidx.
    - right. apply removed_length_other, Ho. }
  apply subtree_min_from_nodes. intros g' Hg' Hne'.
  rewrite (nodes_in_place F (removed_in_place _ _ _)) in Hg'.
  apply list_elem_of_fmap in Hg' as (g & -> & Hg).
  assert (Hneg : files g <> []).
  { apply Hlen. apply Hlen in Hne'. destruct (Hlength g Hg) as [[_ H] | H]; lia. }
  destruct (subtree_min_node f Hmin g Hg Hneg) as (Hle & g0 & Hg0 & Hne0 & Hfirst).
  split.
  - unfold F. rewrite !removed_firstID. repeat case_decide; lia.
  - exists (F g0). split; [| split].
    + rewrite (nodes_in_place F (removed_in_place _ _ _)).
      apply list_elem_of_fmap_2, Hg0.
    + apply Hlen. apply Hlen in Hne0.
      destruct (Hlength g0 Hg0) as [[-> H] | H]; lia.
    + unfold F. rewrite !removed_firstID, Hfirst. reflexivity.
Qed.

End BookkeepingFacts.

(** ** What the folder tree hands back for a path *)

Module LookupFacts.
Import Fnt TreeFacts PathFacts.

Lemma idOf_Ok path t r :
  idOf path t = Ok r <-> exists l, path_list path = Some l /\ idOf_path l t = r.
Proof.
  unfold idOf. destruct (path_list path) as [l |].
  - split; [intros [= <-]; eauto | intros (l' & [= <-] & <-); reflexivity].
  - split; [discriminate | intros (l' & Hl & _); discriminate].
Qed.

Lemma idOf_pieces path l t :
  path_list path = Some l -> idOf path t = Ok (idOf_path l t).
Proof. intros H. unfold idOf. rewrite H. reflexivity. Qed.

Lemma idOf_not_Loops path t : idOf path t <> Loops.
Proof. unfold idOf. destruct (path_list path); discriminate. Qed.

(** A key that stands for a folder: its pieces name no file and lead to
    the folder. *)
Lemma getitem_folder_pieces key t f :
  getitem key t = Ok (inr f) <->
  exists l, path_list key = Some l /\ idOf_path l t = None /\ subfolder l t = Some f.
Proof.
  unfold getitem, idOf, subfolder_at. destruct (path_list key) as [l |].
  - destruct (idOf_path l t) as [fid |] eqn:Eid.
    + split; [discriminate | intros (l' & [= <-] & H & _); congruence].
    + destruct (subfolder l t) as [g |] eqn:Esub.
      * split; [intros [= <-]; eauto | intros (l' & [= <-] & _ & H); congruence].
      * split; [discriminate | intros (l' & [= <-] & _ & H); congruence].
  - split; [discriminate | intros (l' & H & _); discriminate].
Qed.

Lemma getitem_KeyError key t :
  getitem key t = Raise KeyError <->
  exists l, path_list key = Some l /\ idOf_path l t = None /\ subfolder l t = None.
Proof.
  unfold getitem, idOf, subfolder_at. destruct (path_list key) as [l |].
  - destruct (idOf_path l t) as [fid |] eqn:Eid.
    + split; [discriminate | intros (l' & [= <-] & H & _); congruence].
    + destruct (subfolder l t) as [g |] eqn:Esub.
      * split; [discriminate | intros (l' & [= <-] & _ & H); congruence].
      * split; [intros _; eauto | reflexivity].
  - split; [discriminate | intros (l' & H & _); discriminate].
Qed.

Lemma getitem_outcomes key t :
  (exists x, getitem key t = Ok x) \/ getitem key t = Raise IndexError \/
  getitem key t = Raise KeyError.
Proof.
  unfold getitem, idOf, subfolder_at. destruct (path_list key) as [l |]; [| auto].
  destruct (idOf_path l t); [eauto |]. destruct (subfolder l t); eauto.
Qed.

(** A path that stands for a file and whose folder part stands for a
    folder: its pieces are those of the folder part and the tail, when the
    path is plain or no folder of the tree has the empty name. *)
Lemma listed_file_pieces file t hl fa fileid :
  plain file \/ no_empty_name t ->
  path_list (os_path_split file).1 = Some hl ->
  subfolder hl t = Some fa -> idOf_path hl t = None ->
  idOf file t = Ok (Some fileid) ->
  path_list file = Some (hl ++ [(os_path_split file).2]).
Proof.
  intros Hcase Hhl Hsub Hnofile Hid.
  pose proof (os_path_split_pieces file) as Hpieces.
  destruct (os_path_split file) as [head tail]. cbn [fst snd] in *.
  destruct Hpieces as [Hnone | (hl' & k & Hhl' & Hs)]; [congruence |].
  assert (hl' = hl) as -> by congruence.
  apply idOf_Ok in Hid as (l & Hl & Hid). rewrite Hl.
  apply path_list_Some in Hl as (Hl & _ & _). rewrite Hs in Hl.
  apply path_list_Some in Hhl as (_ & _ & Hstrip).
  destruct (decide (tail = EmptyString)) as [-> | Htail].
  - exfalso.
    change (replicate k EmptyString ++ [EmptyString])
      with (replicate k EmptyString ++ replicate 1 EmptyString) in Hl.
    rewrite <- replicate_add, strip_empty_end_empties, Hstrip in Hl. congruence.
  - rewrite app_assoc, (strip_empty_end_snoc _ _ Htail), <- app_assoc in Hl. subst l.
    destruct k as [| k]; [reflexivity |].
    exfalso. destruct Hcase as [Hplain | Hnames].
    + apply Hplain. rewrite Hs. apply elem_of_app. right.
      apply elem_of_app. left. apply list_elem_of_here.
    + rewrite (idOf_path_empty_piece hl k [tail] t fa Hnames Hsub) in Hid
        by discriminate.
      discriminate.
Qed.

(** The ID that [idOf] then finds is the ID of the entry of the folder. *)
Lemma idOf_of_listed_file file t hl fa idx fileid :
  plain file \/ no_empty_name t ->
  path_list (os_path_split file).1 = Some hl ->
  subfolder hl t = Some fa -> idOf_path hl t = None ->
  list_index (os_path_split file).2 (files fa) = Some idx ->
  idOf file t = Ok (Some fileid) ->
  fileid = firstID fa + idx.
Proof.
  intros Hcase Hhl Hsub Hnofile Hidx Hid.
  pose proof (listed_file_pieces _ _ _ _ _ Hcase Hhl Hsub Hnofile Hid) as Hl.
  rewrite (idOf_pieces _ _ _ Hl), idOf_path_app, Hsub, Hidx in Hid.
  cbn in Hid. congruence.
Qed.

(** A plain path whose folder part stands for a folder is looked up in
    that folder. *)
Lemma idOf_plain file t hl fa :
  plain file ->
  path_list (os_path_split file).1 = Some hl -> subfolder hl t = Some fa ->
  idOf file t =
    Ok ((fun i => firstID fa + i) <$> list_index (os_path_split file).2 (files fa)).
Proof.
  intros Hplain Hhl Hsub.
  destruct (os_path_split_plain file Hplain) as (_ & [Hnone | (hl' & Hhl' & Hl)]);
    [congruence |].
  assert (hl' = hl) as -> by congruence.
  rewrite (idOf_pieces _ _ _ Hl), idOf_path_app, Hsub. reflexivity.
Qed.

End LookupFacts.

(** ** [add_file] and [remove_file] on a well-formed filesystem *)

Module RomFacts.
Import Rom TreeFacts PathFacts BookkeepingFacts LookupFacts.

Lemma set_id_shape w0 fp new : preserves (same_shape w0) (set_id fp new).
Proof. apply preserves_modify. intros w H. exact H. Qed.

Lemma RomFile_flush_shape w0 fp : preserves (same_shape w0) (RomFile_flush fp).
Proof.
  unfold RomFile_flush.
  apply preserves_bind; [apply preserves_gets | intros hs].
  destruct (hs !! fp) as [h |]; [| apply preserves_ret].
  destruct (closed h); [apply preserves_ret |].
  assert (Hwrite : preserves (same_shape w0)
    (fs <- gets (owner_files (archive h));;
     match fs with
     | Some fs =>
         match py_index fs (id h) with
         | Some i => modify (set_owner_files (archive h) (<[i := value h]> fs))
         | None => raise IndexError
         end
     | None => raise AttributeError
     end)).
  { apply preserves_bind_gets. intros s Hs.
    destruct (owner_files (archive h) s) as [fs |] eqn:Efs; [| exact Hs].
    destruct (py_index fs (id h)) as [i |]; [| exact Hs].
    unfold modify. cbn [snd].
    destruct (archive h); cbn [owner_files set_owner_files] in *.
    - injection Efs as <-. destruct Hs as [Hlen Htree].
      split; [| exact Htree].
      cbn [set_files rom files]. rewrite length_insert. exact Hlen.
    - exact Hs. }
  destruct (opp h); [apply preserves_ret | exact Hwrite | exact Hwrite].
Qed.

Lemma RomFile_close_shape w0 fp : preserves (same_shape w0) (RomFile_close fp).
Proof.
  unfold RomFile_close.
  apply preserves_bind; [apply RomFile_flush_shape | intros _].
  apply preserves_bind; [| intros _]; apply preserves_modify; intros w H; exact H.
Qed.

(** The loop over the open handles at the end of [add_file] and
    [remove_file] keeps the shape. *)
Ltac handle_loop_keeps_shape :=
  apply preserves_for_each; intros ?fp;
  apply preserves_bind; [apply preserves_gets | intros ?i];
  apply preserves_bind;
    [destruct (decide _); [apply set_id_shape | apply preserves_ret] | intros _];
  apply preserves_bind; [apply preserves_gets | intros ?j];
  destruct (decide _); [apply RomFile_close_shape | apply preserves_ret].

Lemma wf_same_shape w0 w : same_shape w0 w -> wf w0 -> wf w.
Proof. unfold wf. intros [-> ->]. auto. Qed.

Lemma folder_of_spec folder_name w f w1 :
  folder_of folder_name w = (Ok f, w1) ->
  w1 = w /\
  exists hl,
    Fnt.path_list folder_name = Some hl /\
    Fnt.subfolder hl (filenames (rom w)) = Some f /\
    Fnt.idOf_path hl (filenames (rom w)) = None.
Proof.
  unfold folder_of, bind, gets.
  destruct (Fnt.getitem folder_name (filenames (rom w))) as [[i | g] | e |] eqn:E;
    try discriminate.
  intros [= <- <-]. split; [reflexivity |].
  apply getitem_folder_pieces in E as (l & Hl & Hid & Hsub). eauto.
Qed.

Lemma add_file_spec file w k w' :
  add_file file w = (Ok k, w') ->
  exists hl fa,
    Fnt.path_list (os_path_split file).1 = Some hl /\
    Fnt.subfolder hl (filenames (rom w)) = Some fa /\
    Fnt.idOf_path hl (filenames (rom w)) = None /\
    k = Fnt.firstID fa + length (Fnt.files fa) /\
    same_shape (after_add fa (os_path_split file).2 w) w'.
Proof.
  unfold add_file. destruct (os_path_split file) as [folder_name filename].
  cbn [fst snd]. unfold bind at 1.
  destruct (folder_of folder_name w) as [[fa | e |] w1] eqn:Efa; try discriminate.
  apply folder_of_spec in Efa as (-> & hl & Hhl & Hsub & Hnofile).
  unfold bind at 1. unfold modify at 1.
  unfold bind at 1. unfold modify at 1.
  unfold bind at 1. unfold modify at 1.
  fold (after_add fa filename w).
  unfold bind at 1. unfold gets at 1.
  set (loop := for_each _ _).
  assert (Hloop : preserves (same_shape (after_add fa filename w)) loop).
  { handle_loop_keeps_shape. }
  specialize (Hloop (after_add fa filename w) ltac:(split; reflexivity)).
  unfold bind. destruct (loop (after_add fa filename w)) as [[[] | e |] w2];
    try discriminate.
  unfold ret. intros [= <- <-]. exists hl, fa. auto 6.
Qed.

Lemma length_list_insert_at {A} i (x : A) l :
  length (list_insert_at i x l) = S (length l).
Proof.
  unfold list_insert_at. rewrite length_app. cbn [length].
  rewrite length_take, length_drop. lia.
Qed.

(** [add_file] makes the file list one entry longer whenever it returns. *)
Lemma add_file_grows file w k w' :
  add_file file w = (Ok k, w') ->
  length (files (rom w')) = S (length (files (rom w))).
Proof.
  intros H. apply add_file_spec in H as (hl & fa & _ & _ & _ & _ & [Hlen _]).
  rewrite Hlen. unfold after_add. cbn [set_filenames set_files rom files].
  apply length_list_insert_at.
Qed.

Lemma add_file_wf file w k w' :
  wf w -> add_file file w = (Ok k, w') -> wf w'.
Proof.
  intros Hwf H. apply add_file_spec in H as (hl & fa & _ & Hsub & _ & _ & Hshape).
  apply (wf_same_shape _ _ Hshape).
  unfold wf, after_add. cbn [set_filenames set_files rom files filenames].
  rewrite length_list_insert_at.
  apply wf_ids_nodes.
  rewrite (nodes_in_place _ (increment_in_place _ _)).
  rewrite (nodes_in_place _ (append_file_in_place _ _)).
  rewrite <- list_fmap_compose.
  apply add_wf_nodes.
  - apply wf_ids_nodes, Hwf.
  - eapply subfolder_in_nodes, Hsub.
Qed.

Lemma remove_file_spec file w w' :
  remove_file file w = (Ok tt, w') ->
  exists hl fa idx fileid,
    Fnt.path_list (os_path_split file).1 = Some hl /\
    Fnt.subfolder hl (filenames (rom w)) = Some fa /\
    Fnt.idOf_path hl (filenames (rom w)) = None /\
    list_index (os_path_split file).2 (Fnt.files fa) = Some idx /\
    Fnt.idOf file (filenames (rom w)) = Ok (Some fileid) /\
    fileid < length (files (rom w)) /\
    same_shape (after_remove fa (os_path_split file).2 fileid w) w'.
Proof.
  unfold remove_file.
  destruct (os_path_split file) as [folder_name filename].
  cbn [fst snd]. unfold bind at 1.
  destruct (folder_of folder_name w) as [[fa | e |] w1] eqn:Efa; try discriminate.
  apply folder_of_spec in Efa as (-> & hl & Hhl & Hsub & Hnofile).
  unfold bind at 1. unfold gets at 1.
  unfold bind at 1. unfold lift at 1.
  destruct (Fnt.idOf file (filenames (rom w))) as [fileid | e |] eqn:Eid;
    try discriminate.
  unfold Fnt.list_remove.
  destruct (list_index filename (Fnt.files fa)) as [idx |] eqn:Eidx;
    [| discriminate].
  cbn [fmap option_fmap option_map].
  unfold bind at 1. unfold modify at 1.
  destruct fileid as [fileid |]; [| discriminate].
  unfold bind at 1. unfold gets at 1.
  cbn [set_filenames rom files].
  destruct (decide (fileid < length (files (rom w)))) as [Hlt | Hge];
    [| discriminate].
  unfold bind at 1. unfold modify at 1.
  unfold bind at 1. unfold modify at 1.
  fold (after_remove fa filename fileid w).
  unfold bind at 1. unfold gets at 1.
  set (loop := for_each _ _).
  assert (Hloop : preserves (same_shape (after_remove fa filename fileid w)) loop).
  { handle_loop_keeps_shape. }
  specialize (Hloop _ ltac:(split; reflexivity)).
  destruct (loop _) as [[[] | e |] w2]; try discriminate.
  intros [= <-]. exists hl, fa, idx, fileid. auto 8.
Qed.

(** The file that [remove_file] takes out of the slot list is the one
    whose name it takes out of the folder, when the path is plain or no
    folder of the tree has the empty name. *)
Lemma remove_file_listed file w w' :
  plain file \/ Fnt.no_empty_name (filenames (rom w)) ->
  remove_file file w = (Ok tt, w') ->
  exists hl fa idx,
    Fnt.path_list (os_path_split file).1 = Some hl /\
    Fnt.subfolder hl (filenames (rom w)) = Some fa /\
    Fnt.idOf_path hl (filenames (rom w)) = None /\
    list_index (os_path_split file).2 (Fnt.files fa) = Some idx /\
    Fnt.idOf file (filenames (rom w)) = Ok (Some (Fnt.firstID fa + idx)) /\
    Fnt.firstID fa + idx < length (files (rom w)) /\
    same_shape
      (after_remove fa (os_path_split file).2 (Fnt.firstID fa + idx) w) w'.
Proof.
  intros Hcase H.
  apply remove_file_spec in H
    as (hl & fa & idx & fileid & Hhl & Hsub & Hnofile & Hidx & Hid & Hlt & Hshape).
  pose proof (idOf_of_listed_file _ _ _ _ _ _ Hcase Hhl Hsub Hnofile Hidx Hid) as ->.
  exists hl, fa, idx. auto 8.
Qed.

Lemma remove_file_wf file w w' :
  plain file \/ Fnt.no_empty_name (filenames (rom w)) ->
  wf w -> remove_file file w = (Ok tt, w') -> wf w'.
Proof.
  intros Hcase Hwf H.
  apply (remove_file_listed _ _ _ Hcase) in H
    as (hl & fa & idx & _ & Hsub & _ & Hidx & _ & Hlt & Hshape).
  apply (wf_same_shape _ _ Hshape).
  unfold wf, after_remove. cbn [set_filenames set_files rom files filenames].
  rewrite length_delete by (apply lookup_lt_is_Some_2; exact Hlt).
  apply wf_ids_nodes.
  rewrite (nodes_in_place _ (decrement_in_place _)).
  rewrite (nodes_in_place _ (remove_name_in_place _ _)).
  rewrite <- list_fmap_compose.
  apply (remove_wf_nodes _ _ fa _ idx).
  - apply wf_ids_nodes, Hwf.
  - eapply subfolder_in_nodes, Hsub.
  - exact Hidx.
Qed.

Lemma RomFile_init_same w0 o index op :
  preserves (same_files_and_names w0) (RomFile_init o index op).
Proof.
  unfold RomFile_init.
  apply preserves_bind; [apply preserves_gets | intros self].
  apply preserves_bind; [apply preserves_modify; intros w H; exact H | intros _].
  apply preserves_bind; [apply preserves_gets | intros reg].
  apply preserves_bind.
  { destruct (decide _); [apply preserves_ret |].
    apply preserves_modify. intros w H. exact H. }
  intros _.
  assert (Hread : preserves (same_files_and_names w0)
    (fs <- gets (owner_files o);;
     match fs with
     | Some fs =>
         match py_index fs index with
         | Some i =>
             modify (set_handles
               (<[self := MkRomFile o index op false (fs !!! i)]>));;
             ret self
         | None => raise IndexError
         end
     | None => raise AttributeError
     end)).
  { apply preserves_bind; [apply preserves_gets | intros [fs |]];
      [| apply preserves_raise].
    destruct (py_index fs index); [| apply preserves_raise].
    apply preserves_bind; [| intros _; apply preserves_ret].
    apply preserves_modify. intros w H. exact H. }
  destruct op; [exact Hread | apply preserves_ret | exact Hread].
Qed.

Lemma open_by_id_same w0 fileid mode :
  preserves (same_files_and_names w0) (open (By_id fileid) mode).
Proof.
  unfold open. destruct (parse_mode mode) as [[[op b] create] |];
    [| apply preserves_raise].
  apply preserves_bind.
  - apply preserves_bind; [apply preserves_gets | intros tree].
    destruct (Fnt.filenameOf _ _ _); [apply preserves_ret | apply preserves_raise].
  - intros i. apply preserves_bind; [apply RomFile_init_same |].
    intros fp. apply preserves_ret.
Qed.

Lemma plz_open_by_id_same w0 a fileid mode :
  preserves (same_files_and_names w0) (plz_open a (By_id fileid) mode).
Proof.
  unfold plz_open. destruct (parse_mode mode) as [[[op b] create] |];
    [| apply preserves_raise].
  apply preserves_bind; [apply preserves_ret | intros i].
  apply preserves_bind; [apply RomFile_init_same |].
  intros fp. apply preserves_ret.
Qed.

(** Without the [+], [open] of a path that does not resolve raises the
    not-found error and changes nothing. *)
Lemma open_unresolved_without_create path mode op b w :
  parse_mode mode = Some (op, b, false) ->
  Fnt.idOf path (filenames (rom w)) = Ok None ->
  open (By_path path) mode w = (Raise FileNotFoundError, w).
Proof.
  intros Hmode Hid. unfold open. rewrite Hmode.
  unfold bind, gets, lift. rewrite Hid. reflexivity.
Qed.

Lemma plz_open_unresolved_without_create a ar path mode op b w :
  parse_mode mode = Some (op, b, false) ->
  archives w !! a = Some ar ->
  list_index path (Plz.filenames ar) = None ->
  plz_open a (By_path path) mode w = (Raise FileNotFoundError, w).
Proof.
  intros Hmode Har Hid. unfold plz_open. rewrite Hmode.
  unfold bind, on_archive, gets. rewrite Har. cbn. rewrite Hid. cbn.
  unfold set_archives. rewrite list_insert_id by exact Har.
  destruct w. reflexivity.
Qed.

(** The folder that an operation works in is the one that [add_file] and
    [remove_file] look up. *)
Lemma folder_of_op_pieces op w hl fa :
  Fnt.path_list (os_path_split (path_of op)).1 = Some hl ->
  Fnt.subfolder hl (filenames (rom w)) = Some fa ->
  Fnt.idOf_path hl (filenames (rom w)) = None ->
  folder_of_op op w = Some fa.
Proof.
  intros Hhl Hsub Hnofile. unfold folder_of_op.
  replace (Fnt.getitem (os_path_split (path_of op)).1 (filenames (rom w)))
    with (@Ok (nat + Fnt.Folder) (inr fa)); [reflexivity |].
  symmetry. apply getitem_folder_pieces. eauto.
Qed.

Lemma add_file_tree file w k w' hl fa :
  add_file file w = (Ok k, w') ->
  Fnt.path_list (os_path_split file).1 = Some hl ->
  Fnt.subfolder hl (filenames (rom w)) = Some fa ->
  filenames (rom w') =
    Fnt.added (Fnt.oid fa) (Fnt.firstID fa + length (Fnt.files fa))
      (os_path_split file).2 (filenames (rom w)).
Proof.
  intros H Hhl Hsub.
  apply add_file_spec in H as (hl' & fa' & Hhl' & Hsub' & _ & _ & [_ ->]).
  assert (hl' = hl) as -> by congruence.
  assert (fa' = fa) as -> by congruence.
  reflexivity.
Qed.

Lemma add_file_subtree_min file w k w' :
  wf w -> Fnt.firstID_is_subtree_min (filenames (rom w)) ->
  keeps_a_file (Add_file file) w ->
  add_file file w = (Ok k, w') ->
  Fnt.firstID_is_subtree_min (filenames (rom w')).
Proof.
  intros Hwf Hmin Hkeeps H. pose proof H as Hspec.
  apply add_file_spec in Hspec as (hl & fa & Hhl & Hsub & Hnofile & _ & _).
  rewrite (add_file_tree _ _ _ _ _ _ H Hhl Hsub).
  unfold keeps_a_file in Hkeeps.
  rewrite (folder_of_op_pieces (Add_file file) w hl fa Hhl Hsub Hnofile) in Hkeeps.
  apply (add_subtree_min _ (length (files (rom w)))).
  - apply wf_ids_nodes, Hwf.
  - eapply subfolder_in_nodes, Hsub.
  - exact Hkeeps.
  - exact Hmin.
Qed.

Lemma remove_file_subtree_min file w w' :
  plain file \/ Fnt.no_empty_name (filenames (rom w)) ->
  wf w -> Fnt.firstID_is_subtree_min (filenames (rom w)) ->
  keeps_a_file (Remove_file file) w ->
  remove_file file w = (Ok tt, w') ->
  Fnt.firstID_is_subtree_min (filenames (rom w')).
Proof.
  intros Hcase Hwf Hmin Hkeeps H.
  apply (remove_file_listed _ _ _ Hcase) in H
    as (hl & fa & idx & Hhl & Hsub & Hnofile & Hidx & _ & _ & [_ ->]).
  unfold keeps_a_file in Hkeeps.
  rewrite (folder_of_op_pieces (Remove_file file) w hl fa Hhl Hsub Hnofile) in Hkeeps.
  unfold after_remove. cbn [set_filenames set_files rom filenames].
  apply (remove_subtree_min _ (length (files (rom w))) fa _ idx).
  - apply wf_ids_nodes, Hwf.
  - eapply subfolder_in_nodes, Hsub.
  - exact Hidx.
  - exact Hkeeps.
  - exact Hmin.
Qed.

Lemma run_op_subtree_min op w w' :
  wf w -> Fnt.no_empty_name (filenames (rom w)) ->
  Fnt.firstID_is_subtree_min (filenames (rom w)) ->
  keeps_a_file op w ->
  run_op op w = (Ok tt, w') ->
  Fnt.firstID_is_subtree_min (filenames (rom w')).
Proof.
  intros Hwf Hnames Hmin Hkeeps. destruct op as [file | file]; cbn [run_op].
  - unfold bind. destruct (add_file file w) as [[k | e |] w1] eqn:E;
      try discriminate.
    intros [= <-]. eapply add_file_subtree_min; eauto.
  - apply remove_file_subtree_min; auto.
Qed.

Lemma run_op_wf op w w' :
  wf w -> Fnt.no_empty_name (filenames (rom w)) ->
  run_op op w = (Ok tt, w') -> wf w'.
Proof.
  intros Hwf Hnames. destruct op as [file | file]; cbn [run_op].
  - unfold bind. destruct (add_file file w) as [[k | e |] w1] eqn:E;
      try discriminate.
    intros [= <-]. eapply add_file_wf; eauto.
  - apply remove_file_wf; auto.
Qed.

(** [add_file] and [remove_file] give no folder another name. *)
Lemma run_op_no_empty_name op w w' :
  Fnt.no_empty_name (filenames (rom w)) ->
  run_op op w = (Ok tt, w') ->
  Fnt.no_empty_name (filenames (rom w')).
Proof.
  intros Hnames. destruct op as [file | file]; cbn [run_op].
  - unfold bind. destruct (add_file file w) as [[k | e |] w1] eqn:E;
      try discriminate.
    intros [= <-].
    apply add_file_spec in E as (hl & fa & _ & _ & _ & _ & [_ ->]).
    unfold after_add. cbn [set_filenames set_files rom filenames].
    apply no_empty_name_in_place; [apply increment_in_place |].
    apply no_empty_name_in_place; [apply append_file_in_place | exact Hnames].
  - intros H.
    apply remove_file_spec in H
      as (hl & fa & idx & fileid & _ & _ & _ & _ & _ & _ & [_ ->]).
    unfold after_remove. cbn [set_filenames set_files rom filenames].
    apply no_empty_name_in_place; [apply decrement_in_place |].
    apply no_empty_name_in_place; [apply remove_name_in_place | exact Hnames].
Qed.

End RomFacts.

(** * The claims *)

(** ** The claims about the PLZ codec *)

Module CodecClaims.
Import Binary Plz BinaryFacts PlzFacts CodecFacts.

(** C1, as stated, fails: a name may hold a NUL character, the encoder
    writes it as it is, and the decoder ends the name at the first NUL. *)
Lemma roundtrip_nul_name_counterexample :
  let x := Archive [String "a" (String "000" (String "b" EmptyString))] [ [x01] ] in
  exists bs,
    write_stream x = (Ok tt, bs) /\
    read_stream 2 bs (Archive [] []) = (Ok tt, Archive ["a"%string] [ [x01] ]) /\
    Archive ["a"%string] [ [x01] ] <> x.
Proof.
  eexists. split; [vm_compute; reflexivity |].
  split; [vm_compute; reflexivity | discriminate].
Qed.

(** C1, amended. For every archive whose two lists have the same length,
    whose names are ASCII text without NUL and whose encoded form fits the
    32-bit size fields, encoding succeeds, and decoding the bytes (with one
    turn of the loop per entry) yields the same names and the same contents
    in the same order. *)
Theorem plz_decode_encode (x : Plz.t) (fuel : nat)
    (Hpar : parallel x)
    (Hnames : Forall name_ok (filenames x))
    (Hsize : (N.of_nat (length (encoded x)) < 4294967296)%N)
    (Hfuel : length (files x) <= fuel) :
  exists bs,
    write_stream x = (Ok tt, bs) /\
    forall a0, read_stream fuel bs a0 = (Ok tt, x).
Proof.
  exists (encoded x). split.
  - apply write_stream_spec; assumption.
  - intros a0. apply read_stream_encoded; assumption.
Qed.

(** Scenario B: the archive with the entries [("x", [1,2,3])] and
    [("yy", [])]. *)
Lemma plz_decode_encode_scenario_b :
  exists bs,
    write_stream scenario_b = (Ok tt, bs) /\
    forall a0, read_stream 2 bs a0 = (Ok tt, scenario_b).
Proof.
  apply (plz_decode_encode scenario_b 2).
  - reflexivity.
  - decide_by_evaluation.
  - vm_compute. reflexivity.
  - simpl. lia.
Defined.

(** C5, as stated, fails: for the name ["abc"] the header is 20 bytes long,
    already a multiple of 4, and the encoder writes 24; with a payload of
    4 bytes the record is 28 bytes long and the encoder writes 32. *)
Lemma record_sizes_align4_counterexample :
  let x := Archive ["abc"%string] [ [x01; x02; x03; x04] ] in
  let bs := (write_stream x).2 in
  le_value (take 4 (drop 16 bs)) = 24%N /\
  align4 (16 + String.length "abc" + 1) = 20 /\
  le_value (take 4 (drop 20 bs)) = 32%N /\
  align4 (24 + 4) = 28.
Proof. vm_compute. repeat split; reflexivity. Qed.

(** C5, amended. When an archive is encoded, the record of entry [i] starts
    right after the 16-byte header and the records before it, and its first
    two fields are [record_header_size = h + (4 - h % 4)] for
    [h = 16 + len(name) + 1] and [record_total_size = t + (4 - t % 4)] for
    [t = record_header_size + payload_size]: each is the next multiple of 4
    above the value, so a value that already is a multiple of 4 grows by
    4. *)
Theorem plz_record_sizes (x : Plz.t) (i : nat) (name : string) (file : list byte)
    (Hpar : parallel x)
    (Hnames : Forall name_ok (filenames x))
    (Hsize : (N.of_nat (length (encoded x)) < 4294967296)%N)
    (Hname : filenames x !! i = Some name)
    (Hfile : files x !! i = Some file) :
  let h := 16 + String.length name + 1 in
  let hs := h + (4 - h mod 4) in
  let t := hs + length file in
  let ts := t + (4 - t mod 4) in
  let start := 16 + length (body (take i (records x))) in
  exists bs,
    write_stream x = (Ok tt, bs) /\
    le_value (take 4 (drop start bs)) = N.of_nat hs /\
    le_value (take 4 (drop (start + 4) bs)) = N.of_nat ts /\
    (h < hs <= h + 4 /\ hs mod 4 = 0) /\
    (t < ts <= t + 4 /\ ts mod 4 = 0).
Proof.
  intros h hs t ts start.
  exists (encoded x). split; [apply write_stream_spec; assumption |].
  assert (Hrec : records x !! i = Some (name, file)).
  { unfold records. rewrite lookup_zip_with, Hname, Hfile. reflexivity. }
  assert (Hsplit : encoded x =
            (le_bytes 16 ++ le_bytes (N.of_nat (16 + length (body (records x)))) ++
             magic ++ le_bytes 0 ++ body (take i (records x))) ++
            le_bytes (N.of_nat hs) ++ le_bytes (N.of_nat ts) ++
            drop 8 (record_bytes name file) ++ body (drop (S i) (records x))).
  { unfold encoded.
    rewrite <- (take_drop_middle _ _ _ Hrec) at 2.
    rewrite body_app. cbn [body flat_map fst snd].
    fold (body (drop (S i) (records x))).
    rewrite <- !app_assoc. reflexivity. }
  assert (Hstart : start = length (le_bytes 16 ++
            le_bytes (N.of_nat (16 + length (body (records x)))) ++
            magic ++ le_bytes 0 ++ body (take i (records x)))).
  { rewrite !length_app, !length_le_bytes. cbn [length magic]. unfold start. lia. }
  pose proof (next_multiple_of_4 h) as [Hh1 Hh2].
  pose proof (next_multiple_of_4 t) as [Ht1 Ht2].
  assert (Hts : (N.of_nat ts < 4294967296)%N).
  { rewrite length_encoded in Hsize.
    rewrite <- (take_drop_middle _ _ _ Hrec), body_app, length_app in Hsize.
    cbn [body flat_map fst snd] in Hsize.
    rewrite length_app, length_record_bytes in Hsize.
    change (total_size_of name file) with ts in Hsize. lia. }
  repeat split; try assumption; try (subst hs ts; lia).
  - rewrite Hsplit, Hstart, drop_app_length.
    rewrite <- (length_le_bytes (N.of_nat hs)) at 1.
    rewrite take_app_length. apply le_value_le_bytes. lia.
  - rewrite Hsplit. rewrite (app_assoc _ (le_bytes (N.of_nat hs))).
    replace (start + 4) with (length ((le_bytes 16 ++
            le_bytes (N.of_nat (16 + length (body (records x)))) ++
            magic ++ le_bytes 0 ++ body (take i (records x))) ++
            le_bytes (N.of_nat hs)))
      by (rewrite length_app, <- Hstart, length_le_bytes; reflexivity).
    rewrite drop_app_length.
    rewrite <- (length_le_bytes (N.of_nat ts)) at 1.
    rewrite take_app_length. apply le_value_le_bytes. exact Hts.
Qed.

Lemma plz_record_sizes_witness :
  let bs := (write_stream scenario_b).2 in
  le_value (take 4 (drop 40 bs)) = 20%N /\
  le_value (take 4 (drop 44 bs)) = 24%N.
Proof.
  assert (H1 : parallel scenario_b) by reflexivity.
  assert (H2 : Forall name_ok (filenames scenario_b))
    by decide_by_evaluation.
  assert (H3 : (N.of_nat (length (encoded scenario_b)) < 4294967296)%N)
    by (vm_compute; reflexivity).
  destruct (plz_record_sizes scenario_b 1 "yy" [] H1 H2 H3 eq_refl eq_refl)
    as (bs & Hbs & Hh & Ht & _).
  rewrite Hbs. cbn [snd]. split; [exact Hh | exact Ht].
Defined.

(** C6, as stated, fails: [read_stream] empties both lists before it reads
    the header, so after a magic mismatch they are not what they were. *)
Lemma bad_magic_keeps_lists_counterexample :
  let bs := [x10; x00; x00; x00; x10; x00; x00; x00; x58; x58; x58; x58;
             x00; x00; x00; x00] in
  take 4 (drop 8 bs) <> magic /\
  read_stream 1 bs scenario_b = (Raise AssertionError, Archive [] []) /\
  Archive [] [] <> scenario_b.
Proof. repeat split; (discriminate || reflexivity). Qed.

(** C6, amended. Decoding a buffer that holds the two size fields and
    whose magic field differs from [PCK2] fails with the assertion error and
    exposes no partial result: the name list and the file list are both
    empty afterwards. *)
Theorem bad_magic_fails_with_empty_lists (fuel : nat) (bs : list byte) (a : Plz.t)
    (Hlen : 8 <= length bs)
    (Hmagic : take 4 (drop 8 bs) <> magic) :
  read_stream fuel bs a = (Raise AssertionError, Archive [] []).
Proof.
  do 8 (destruct bs as [| ? bs]; [simpl in Hlen; lia |]).
  cbn [drop] in Hmagic.
  unfold read_stream, read_stream_rdr, bind, on_fst, on_snd, modify,
    read_uint32, read, ret, raise, of_bytes, bind.
  cbn [fst snd data c take drop length Nat.add].
  rewrite !decide_True by reflexivity.
  cbn [fst snd data c take drop length Nat.add].
  rewrite decide_False by exact Hmagic.
  reflexivity.
Qed.

Lemma bad_magic_fails_with_empty_lists_witness :
  read_stream 1 (replicate 12 x00) scenario_b = (Raise AssertionError, Archive [] []).
Proof.
  apply bad_magic_fails_with_empty_lists; [simpl; lia | discriminate].
Defined.

(** C9. Decoding, [add_file], [remove_file] and [rename_file] of a PLZ
    archive keep [len(filenames) == len(files)]; decoding even establishes
    it, however it ends.  [add_file] returns [len(files)] as it was before
    the append, and that is the position of the new entry in both lists, so
    the IDs stay the range [0 .. n-1]. *)
Theorem plz_operations_keep_lists_parallel (a : Plz.t) (H : parallel a) :
  (forall fuel bs, parallel (read_stream fuel bs a).2) /\
  (forall name,
     let '(r, a') := add_file name a in
     r = Ok (length (files a)) /\ parallel a' /\
     length (files a') = S (length (files a)) /\
     filenames a' !! length (files a) = Some name /\
     files a' !! length (files a) = Some []) /\
  (forall name, parallel (remove_file name a).2) /\
  (forall old new, parallel (rename_file old new a).2).
Proof.
  unfold parallel in *. repeat split.
  - intros. apply read_stream_parallel.
  - simpl. rewrite !length_app. simpl. lia.
  - simpl. rewrite !length_app. simpl. lia.
  - simpl. rewrite <- H. apply list_lookup_middle. reflexivity.
  - simpl. apply list_lookup_middle. reflexivity.
  - intros name. unfold remove_file, bind, gets. simpl.
    destruct (list_index name (filenames a)) as [i |] eqn:Ei; simpl; [| exact H].
    pose proof (list_index_lt _ _ _ Ei) as Hi.
    unfold pop. destruct (decide (i < length (files a))); simpl; [| exact H].
    rewrite !length_delete by (apply lookup_lt_is_Some_2; lia). lia.
  - intros old new. unfold rename_file, bind, gets. simpl.
    destruct (list_index old (filenames a)) as [i |]; simpl; [| exact H].
    rewrite length_insert. exact H.
Qed.

Lemma plz_operations_keep_lists_parallel_witness :
  parallel scenario_b /\
  parallel (read_stream 3 (write_stream scenario_b).2 scenario_b).2 /\
  parallel (remove_file "x" scenario_b).2.
Proof.
  assert (H : parallel scenario_b) by reflexivity.
  pose proof (plz_operations_keep_lists_parallel scenario_b H) as (Hr & _ & Hd & _).
  split; [exact H |]. split; [apply Hr | apply Hd].
Defined.

End CodecClaims.

(** ** The claims about [open], [add_file] and [remove_file] *)

Module RomClaims.
Import Rom RomFacts.


(** C10. [open] with an integer first argument leaves the file list and the
    name structure as they are, on the ROM and on a PLZ archive, whatever
    the mode string and however the call ends; as [add_file] always makes
    the file list one entry longer ([add_file_grows]), it has not been
    called.  The [+] of the mode changes nothing: for each of the modes
    [r], [w], [a], [rb], [wb], [ab] the call with and without it is the
    same. *)
Theorem open_by_id_keeps_files_and_names (w : World) (fileid : Z) (mode : string) :
  same_files_and_names w (open (By_id fileid) mode w).2 /\
  (forall a, same_files_and_names w (plz_open a (By_id fileid) mode w).2) /\
  Forall (fun m : string =>
            open (By_id fileid) (m +:+ "+") w = open (By_id fileid) m w /\
            forall a, plz_open a (By_id fileid) (m +:+ "+") w
                      = plz_open a (By_id fileid) m w)
         ["r"; "w"; "a"; "rb"; "wb"; "ab"]%string.
Proof.
  assert (H0 : same_files_and_names w w) by (repeat split).
  split; [| split].
  - apply (open_by_id_same w fileid mode w H0).
  - intros a. apply (plz_open_by_id_same w a fileid mode w H0).
  - repeat constructor.
Qed.

(** C4, at the failing input. Creating the first entry of an empty archive,
    or the first file of an empty ROM: [add_file] runs and returns the new
    ID 0, [not fileid] takes it for a failure, and [open] raises the
    not-found error although the entry now exists.  No handle is
    returned. *)
Theorem open_create_at_id_0 :
  let w := empty_rom_world in
  (exists w',
     plz_open 0 (By_path "x") "wb+" w = (Raise FileNotFoundError, w') /\
     archives w' = [Plz.Archive ["x"%string] [ [] ]] /\
     handles w' = []) /\
  (exists w',
     open (By_path "data/a.bin") "wb+" w = (Raise FileNotFoundError, w') /\
     files (rom w') = [ [] ] /\
     Fnt.idOf "data/a.bin" (filenames (rom w')) = Ok (Some 0) /\
     handles w' = []).
Proof.
  intros w. split.
  - exists (plz_open 0 (By_path "x") "wb+" w).2.
    repeat split; vm_compute; reflexivity.
  - exists (open (By_path "data/a.bin") "wb+" w).2.
    repeat split; vm_compute; reflexivity.
Qed.

(** C3, at the failing input. In a ROM with [a] in the root folder, [p] in
    [aa/] and [b], [c] in [data/], a handle is opened on [data/c], slot 3.
    The handle registered itself in [Archive.opened_files]; [add_file] and
    [remove_file] walk [self._opened_files], which is empty.
    [add_file("aa/x")] inserts a slot at ID 2, so [data/c] moves to slot 4:
    the handle keeps ID 3, now the slot of [data/b], and stays open.
    [remove_file("data/b")] deletes slot 2, so [data/c] moves to slot 2: the
    handle keeps ID 3, which is no slot any more, and stays open. *)
Theorem add_file_misses_open_handle :
  let w0 := two_folders_world in
  exists fp w1 w2 w3,
    open (By_path "data/c") "rb" w0 = (Ok (Binary_file fp), w1) /\
    id <$> handles w1 !! fp = Some 3%Z /\
    opened_files w1 = [fp] /\ _opened_files (rom w1) = [] /\
    (add_file "aa/x" w1 = (Ok 2, w2) /\
     Fnt.idOf "data/c" (filenames (rom w2)) = Ok (Some 4) /\
     Fnt.idOf "data/b" (filenames (rom w2)) = Ok (Some 3) /\
     id <$> handles w2 !! fp = Some 3%Z /\
     closed <$> handles w2 !! fp = Some false) /\
    (remove_file "data/b" w1 = (Ok tt, w3) /\
     Fnt.idOf "data/c" (filenames (rom w3)) = Ok (Some 2) /\
     length (files (rom w3)) = 3 /\
     id <$> handles w3 !! fp = Some 3%Z /\
     closed <$> handles w3 !! fp = Some false).
Proof.
  intros w0.
  exists 0, (open (By_path "data/c") "rb" w0).2,
    (add_file "aa/x" (open (By_path "data/c") "rb" w0).2).2,
    (remove_file "data/b" (open (By_path "data/c") "rb" w0).2).2.
  repeat split; vm_compute; reflexivity.
Qed.

(** C8. When [get_archive(path)] has returned an archive object, a second
    call returns the same object and leaves every object as it is: nothing
    is opened, decoded or created. *)
Theorem get_archive_same_instance
    (decompress : list byte -> res (list byte)) (fuel fuel' : nat)
    (path : string) (w w1 : World) (a : nat)
    (Hfirst : get_archive decompress fuel path w = (Ok a, w1)) :
  get_archive decompress fuel' path w1 = (Ok a, w1) /\
  _loaded_archives (rom w1) !! path = Some a.
Proof.
  assert (Hloaded : _loaded_archives (rom w1) !! path = Some a).
  { unfold get_archive, bind, gets in Hfirst.
    destruct (_loaded_archives (rom w) !! path) as [a0 |] eqn:E.
    - cbn in Hfirst. rewrite E in Hfirst. injection Hfirst as <- <-. exact E.
    - unfold modify at 1 in Hfirst.
      destruct (PlzArchive_init decompress fuel path (set_get_archive_call true w))
        as [[a' | e |] w'] eqn:Einit; cbn in Hfirst; try discriminate.
      rewrite lookup_insert_eq in Hfirst. injection Hfirst as <- <-.
      cbn. apply lookup_insert_eq. }
  split; [| exact Hloaded].
  unfold get_archive, bind, gets. rewrite Hloaded. cbn. rewrite Hloaded.
  reflexivity.
Qed.

Lemma get_archive_same_instance_witness :
  exists a w1,
    get_archive Ok 2 "data/x.plz" plz_world = (Ok a, w1) /\
    get_archive Ok 0 "data/x.plz" w1 = (Ok a, w1) /\
    archives w1 !! a = Some scenario_b.
Proof.
  assert (H : exists w1, get_archive Ok 2 "data/x.plz" plz_world = (Ok 0, w1) /\
                         archives w1 !! 0 = Some scenario_b).
  { eexists. split; vm_compute; reflexivity. }
  destruct H as (w1 & H & Ha). exists 0, w1.
  split; [exact H |]. split; [| exact Ha].
  apply (get_archive_same_instance Ok 2 0 "data/x.plz" plz_world w1 0 H).
Defined.

End RomClaims.

(** ** The claim about [firstID] *)

Module BookkeepingClaims.
Import Rom RomFacts.

(** C2, as stated, fails. In scenario A the root folder has no files and
    [firstID] 0, the least slot ID of its subtree.  Removing [data/a.bin]
    and adding it again puts the file back at slot 0, and the cascade of
    [add_file] raises the [firstID] of the root, which is not the target
    folder, to 1. *)
Lemma firstID_subtree_min_counterexample :
  let w0 := scenario_a 0 [x0a] in
  wf w0 /\ Fnt.firstID_is_subtree_min (filenames (rom w0)) /\
  exists w1 w2,
    run [Remove_file "data/a.bin"; Add_file "data/a.bin"] w0 = Some [w1; w2] /\
    ~ Fnt.firstID_is_subtree_min (filenames (rom w2)) /\
    Fnt.firstID (filenames (rom w2)) = 1 /\
    Fnt.subtree_ids (filenames (rom w2)) = [0].
Proof.
  intros w0.
  split; [decide_by_evaluation |]. split; [decide_by_evaluation |].
  exists (remove_file "data/a.bin" w0).2,
         (add_file "data/a.bin" (remove_file "data/a.bin" w0).2).2.
  split; [vm_compute; reflexivity |].
  split; [decide_by_evaluation |].
  split; vm_compute; reflexivity.
Qed.

(** C2, amended. Start from a filesystem with well-formed ID bookkeeping:
    the folder objects are distinct, every folder's range
    [firstID .. firstID + len(files)) lies within the slot list, and the
    ranges of distinct folders do not cross; and no folder has the empty
    name.  After each operation of a sequence of [add_file] and
    [remove_file] calls that complete, the bookkeeping is well-formed
    again.  When at the start [firstID] is the least slot ID of every
    subtree that holds a slot, it is so after each operation, as long as no
    [add_file] puts the first file into a folder and no [remove_file] takes
    the last file out of one. *)
Theorem add_remove_keep_ids_well_formed (ops : list fs_op) (w : World)
    (ws : list World) (Hwf : wf w)
    (Hnames : Fnt.no_empty_name (filenames (rom w)))
    (Hrun : run ops w = Some ws) :
  Forall wf ws /\
  (Fnt.firstID_is_subtree_min (filenames (rom w)) ->
   keep_a_file ops w ->
   Forall (fun w' => Fnt.firstID_is_subtree_min (filenames (rom w'))) ws).
Proof.
  revert w ws Hwf Hnames Hrun.
  induction ops as [| op ops IH]; intros w ws Hwf Hnames Hrun.
  - injection Hrun as <-. split; [constructor | intros _ _; constructor].
  - cbn [run] in Hrun. cbn [keep_a_file].
    destruct (run_op op w) as [[[] | e |] w1] eqn:Eop; try discriminate.
    pose proof (run_op_wf _ _ _ Hwf Hnames Eop) as Hwf1.
    pose proof (run_op_no_empty_name _ _ _ Hnames Eop) as Hnames1.
    destruct (run ops w1) as [ws1 |] eqn:Erest; [| discriminate].
    injection Hrun as <-.
    destruct (IH w1 ws1 Hwf1 Hnames1 Erest) as [IH1 IH2]. split.
    + constructor; [exact Hwf1 | exact IH1].
    + intros Hmin [Hkeeps Hrest].
      pose proof (run_op_subtree_min _ _ _ Hwf Hnames Hmin Hkeeps Eop) as Hmin1.
      constructor; [exact Hmin1 | apply IH2; assumption].
Qed.

Lemma add_remove_keep_ids_well_formed_witness :
  exists ws,
    run [Add_file "data/b.bin"; Remove_file "data/a.bin"; Add_file "data/c.bin"]
        (scenario_a 0 [x0a]) = Some ws /\
    length ws = 3 /\
    Forall wf ws /\
    Forall (fun w' => Fnt.firstID_is_subtree_min (filenames (rom w'))) ws.
Proof.
  destruct (run [Add_file "data/b.bin"; Remove_file "data/a.bin";
                 Add_file "data/c.bin"] (scenario_a 0 [x0a])) as [ws |] eqn:E;
    [| vm_compute in E; discriminate].
  exists ws. split; [reflexivity |].
  assert (Hwf : wf (scenario_a 0 [x0a])) by decide_by_evaluation.
  assert (Hnames : Fnt.no_empty_name (filenames (rom (scenario_a 0 [x0a]))))
    by decide_by_evaluation.
  destruct (add_remove_keep_ids_well_formed _ _ _ Hwf Hnames E) as [H1 H2].
  split; [| split; [exact H1 |]].
  - vm_compute in E. injection E as <-. reflexivity.
  - apply H2; decide_by_evaluation.
Defined.

End BookkeepingClaims.

(** * Further properties *)

(** * Further properties *)

(** ** [list.index] *)

Module IndexFacts.

Section Index.
Context {A : Type} `{EqDecision A}.
Implicit Types (x y : A) (l k : list A).

Lemma list_index_None x l : list_index x l = None <-> x ∉ l.
Proof.
  induction l as [| y l IH]; cbn [list_index].
  - split; [intros _ H; inversion H | reflexivity].
  - rewrite not_elem_of_cons. destruct (decide (x = y)) as [-> | Hxy].
    + split; [discriminate | intros [H _]; contradiction].
    + destruct (list_index x l); cbn.
      * split; [discriminate |]. intros [_ H]. apply IH in H. discriminate.
      * split; [| reflexivity]. intros _. split; [exact Hxy | apply IH; reflexivity].
Qed.

Lemma list_index_Some x l i :
  list_index x l = Some i -> l !! i = Some x /\ x ∉ take i l.
Proof.
  revert i. induction l as [| y l IH]; intros i; cbn [list_index]; [discriminate |].
  destruct (decide (x = y)) as [-> | Hxy].
  - intros [= <-]. split; [reflexivity | cbn; apply not_elem_of_nil].
  - destruct (list_index x l) as [j |]; cbn; [| discriminate].
    intros [= <-]. destruct (IH j eq_refl) as [H1 H2].
    split; [exact H1 |]. cbn [take]. apply not_elem_of_cons. auto.
Qed.

Lemma list_index_first x l i :
  l !! i = Some x -> x ∉ take i l -> list_index x l = Some i.
Proof.
  revert i. induction l as [| y l IH]; intros i Hl Hn; [discriminate |].
  cbn [list_index]. destruct i as [| i]; cbn in Hl.
  - injection Hl as ->. rewrite decide_True by reflexivity. reflexivity.
  - cbn [take] in Hn. apply not_elem_of_cons in Hn as [Hxy Hn].
    rewrite decide_False by exact Hxy. rewrite (IH i Hl Hn). reflexivity.
Qed.

Lemma list_index_is_Some x l : x ∈ l -> is_Some (list_index x l).
Proof.
  intros H. destruct (list_index x l) eqn:E; [eauto |].
  apply list_index_None in E. contradiction.
Qed.

Lemma list_index_app_l x l k :
  x ∈ l -> list_index x (l ++ k) = list_index x l.
Proof.
  intros H. destruct (list_index_is_Some x l H) as [i Hi]. rewrite Hi.
  apply list_index_Some in Hi as [H1 H2]. pose proof (lookup_lt_Some _ _ _ H1).
  apply list_index_first.
  - rewrite lookup_app_l by lia. exact H1.
  - rewrite take_app_le by lia. exact H2.
Qed.

Lemma list_index_app_r x l k :
  x ∉ l -> list_index x (l ++ k) = (fun j => length l + j) <$> list_index x k.
Proof.
  intros H. induction l as [| y l IH]; cbn [app list_index length].
  - destruct (list_index x k); reflexivity.
  - apply not_elem_of_cons in H as [Hxy H]. rewrite decide_False by exact Hxy.
    rewrite (IH H). destruct (list_index x k); reflexivity.
Qed.

(** Deleting an element other than [x] moves the first [x] down by one
    when it stood behind the deleted position. *)
Lemma list_index_delete x y l i :
  l !! i = Some y -> x <> y ->
  list_index x (delete i l) =
    (fun j => if decide (j < i) then j else j - 1) <$> list_index x l.
Proof.
  revert i. induction l as [| z l IH]; intros i Hl Hxy; [discriminate |].
  destruct i as [| i]; cbn in Hl.
  - injection Hl as ->. cbn [delete list_delete list_index].
    rewrite decide_False by exact Hxy.
    destruct (list_index x l) as [j |]; cbn; [| reflexivity].
    rewrite Nat.sub_0_r. reflexivity.
  - change (delete (S i) (z :: l)) with (z :: delete i l).
    cbn [list_index]. destruct (decide (x = z)); [reflexivity |].
    rewrite (IH i Hl Hxy). destruct (list_index x l) as [j |] eqn:Ej; cbn;
      [| reflexivity].
    assert (j <> i).
    { intros ->. apply list_index_Some in Ej as [Ej _].
      assert (Hsame : Some x = Some y) by (rewrite <- Ej; exact Hl).
      injection Hsame as ->. contradiction. }
    f_equal. destruct (decide (j < i)), (decide (S j < S i)); lia.
Qed.

(** Overwriting the entry at [i] leaves the position of every other
    element alone. *)
Lemma list_index_insert_other x y new l i :
  l !! i = Some y -> x <> y -> x <> new ->
  list_index x (<[i := new]> l) = list_index x l.
Proof.
  revert i. induction l as [| z l IH]; intros i Hl Hxy Hxn; [discriminate |].
  destruct i as [| i]; cbn in Hl.
  - change (<[0 := new]> (z :: l)) with (new :: l).
    injection Hl as ->.
    cbn [list_index]. rewrite !decide_False by assumption. reflexivity.
  - change (<[S i := new]> (z :: l)) with (z :: <[i := new]> l).
    cbn [list_index]. destruct (decide (x = z)); [reflexivity |].
    rewrite (IH i Hl Hxy Hxn). reflexivity.
Qed.

Lemma list_index_insert_new new l i :
  i < length l -> new ∉ l -> list_index new (<[i := new]> l) = Some i.
Proof.
  intros Hi Hn. apply list_index_first.
  - apply list_lookup_insert_eq. exact Hi.
  - rewrite take_insert_ge by lia. intros H. apply Hn.
    apply elem_of_take in H as (j & Hj & _).
    eapply list_elem_of_lookup_2, Hj.
Qed.

Lemma lookup_delete_shift {B} (l : list B) i j :
  j <> i -> delete i l !! (if decide (j < i) then j else j - 1) = l !! j.
Proof.
  intros Hji. destruct (decide (j < i)).
  - apply list_lookup_delete_lt. exact l0.
  - rewrite list_lookup_delete_ge by lia. f_equal. lia.
Qed.

End Index.

End IndexFacts.

(** ** The entries of a [PlzArchive] under its list operations *)

Module ArchiveFacts.
Import Binary Plz IndexFacts BinaryFacts CodecFacts.

Lemma delete_at_end {A} (l : list A) x : delete (length l) (l ++ [x]) = l.
Proof.
  induction l as [| y l IH]; [reflexivity |].
  cbn [length app]. change (delete (S (length l)) (y :: l ++ [x]))
    with (y :: delete (length l) (l ++ [x])).
  rewrite IH. reflexivity.
Qed.

Lemma not_elem_of_delete_NoDup {A} (l : list A) i x :
  NoDup l -> l !! i = Some x -> x ∉ delete i l.
Proof.
  intros Hnd Hi. rewrite <- (take_drop_middle l i x Hi) in Hnd.
  apply NoDup_app in Hnd as (_ & Hl & Hr). apply NoDup_cons in Hr as [Hr _].
  rewrite delete_take_drop. intros H. apply elem_of_app in H as [H | H].
  - apply (Hl x H). apply elem_of_cons. left. reflexivity.
  - contradiction.
Qed.

(** A loop whose body is the same on the elements it visits. *)
Lemma for_each_ext {S A} (xs : list A) (f g : A -> M S unit) :
  (forall x, x ∈ xs -> forall s, f x s = g x s) ->
  forall s, for_each xs f s = for_each xs g s.
Proof.
  induction xs as [| x xs IH]; intros H s; [reflexivity |].
  cbn [for_each]. unfold bind.
  rewrite (H x (list_elem_of_here x xs)).
  destruct (g x s) as [[[] | e |] s1]; try reflexivity.
  apply IH. intros y Hy. apply H, list_elem_of_further, Hy.
Qed.

Lemma for_each_app {S A} (xs ys : list A) (f : A -> M S unit) s :
  for_each (xs ++ ys) f s = (for_each xs f;; for_each ys f) s.
Proof.
  revert s. induction xs as [| x xs IH]; intros s; [reflexivity |].
  cbn [app for_each]. unfold bind in *.
  destruct (f x s) as [[[] | e |] s1]; try reflexivity.
  apply IH.
Qed.

Lemma length_body_aligned recs : length (body recs) mod 4 = 0.
Proof.
  induction recs as [| [n f] recs IH]; [reflexivity |].
  cbn [body flat_map fst snd]. fold (body recs).
  rewrite length_app, length_record_bytes.
  pose proof (total_size_bounds n f) as [_ Ht].
  rewrite <- Nat.Div0.add_mod_idemp_l, Ht, Nat.add_0_l. exact IH.
Qed.

End ArchiveFacts.

Module ArchiveProperties.
Import Binary Plz IndexFacts BinaryFacts CodecFacts ArchiveFacts.

(** X1. [PlzArchive.add_file] appends without looking: a name that was not in
    the archive then resolves to the new, empty entry, whose position is
    the returned ID; a name that was there still resolves to its old entry,
    and every other name keeps its content. *)
Theorem plz_add_file_content (a : Plz.t) (name : string) (Hpar : parallel a) :
  (name ∉ filenames a ->
     list_index name (filenames (add_file name a).2) = Some (length (files a)) /\
     Content.plz name (add_file name a).2 = Some []) /\
  (forall n, n <> name \/ n ∈ filenames a ->
     Content.plz n (add_file name a).2 = Content.plz n a).
Proof.
  unfold parallel in Hpar. cbn [add_file bind gets modify ret snd].
  unfold Content.plz. cbn [filenames files]. split.
  - intros Hnew. rewrite (list_index_app_r _ _ _ Hnew).
    cbn [list_index]. rewrite decide_True by reflexivity.
    cbn. rewrite Nat.add_0_r, Hpar. split; [reflexivity |].
    apply list_lookup_middle. reflexivity.
  - intros n Hn. destruct (decide (n ∈ filenames a)) as [Hin | Hout].
    + rewrite (list_index_app_l _ _ _ Hin).
      destruct (list_index n (filenames a)) as [i |] eqn:Ei; [| reflexivity].
      cbn. apply list_index_lt in Ei. apply lookup_app_l. lia.
    + destruct Hn as [Hn | Hn]; [| contradiction].
      rewrite (list_index_app_r _ _ _ Hout). cbn [list_index].
      rewrite decide_False by exact Hn.
      apply list_index_None in Hout. rewrite Hout. reflexivity.
Qed.

Lemma plz_add_file_content_witness :
  parallel scenario_b /\
  Content.plz "x" (add_file "z" scenario_b).2 = Some [x01; x02; x03] /\
  Content.plz "z" (add_file "z" scenario_b).2 = Some [].
Proof.
  assert (H : parallel scenario_b) by reflexivity.
  destruct (plz_add_file_content scenario_b "z" H) as [Hnew Hold].
  split; [exact H |]. split.
  - rewrite Hold; [reflexivity | left; discriminate].
  - apply Hnew. decide_by_evaluation.
Defined.

(** X2. [PlzArchive.remove_file] returns without an error, whether the name is
    there or not.  A name that is not there leaves the archive as it is;
    otherwise the first entry of that name goes, every other name keeps its
    content, and when names are not repeated the name no longer resolves. *)
Theorem plz_remove_file_content (a : Plz.t) (name : string) (Hpar : parallel a) :
  (remove_file name a).1 = Ok tt /\
  (name ∉ filenames a -> (remove_file name a).2 = a) /\
  (name ∈ filenames a ->
     S (length (files (remove_file name a).2)) = length (files a)) /\
  (forall n, n <> name ->
     Content.plz n (remove_file name a).2 = Content.plz n a) /\
  (NoDup (filenames a) -> Content.plz name (remove_file name a).2 = None).
Proof.
  unfold parallel in Hpar. unfold remove_file, bind, gets.
  destruct (list_index name (filenames a)) as [i |] eqn:Ei.
  - pose proof (list_index_lt _ _ _ Ei) as Hlt.
    apply list_index_Some in Ei as [Hi Hfirst].
    unfold pop. rewrite decide_True by lia. cbn [modify fst snd files filenames].
    split; [reflexivity |]. split; [| split; [| split]].
    + intros Hout. exfalso. apply Hout. eapply list_elem_of_lookup_2, Hi.
    + intros _. rewrite length_delete by (apply lookup_lt_is_Some_2; lia). lia.
    + intros n Hn. unfold Content.plz. cbn [filenames files].
      rewrite (list_index_delete n name _ i Hi Hn).
      destruct (list_index n (filenames a)) as [j |] eqn:Ej; [| reflexivity].
      cbn. apply lookup_delete_shift.
      intros ->. apply list_index_Some in Ej as [Ej _].
      assert (Hsame : Some n = Some name) by (rewrite <- Ej; exact Hi).
      injection Hsame as ->. contradiction.
    + intros Hnd. unfold Content.plz. cbn [filenames files].
      pose proof (not_elem_of_delete_NoDup _ _ _ Hnd Hi) as Hgone.
      apply list_index_None in Hgone. rewrite Hgone. reflexivity.
  - cbn [ret fst snd]. split; [reflexivity |]. split; [reflexivity |].
    apply list_index_None in Ei. split; [intros Hin; contradiction |].
    split; [reflexivity |].
    intros _. unfold Content.plz. apply list_index_None in Ei. rewrite Ei.
    reflexivity.
Qed.

Lemma plz_remove_file_content_witness :
  parallel scenario_b /\
  Content.plz "yy" (remove_file "x" scenario_b).2 = Some [] /\
  Content.plz "x" (remove_file "x" scenario_b).2 = None.
Proof.
  assert (H : parallel scenario_b) by reflexivity.
  destruct (plz_remove_file_content scenario_b "x" H) as (_ & _ & _ & Hother & Hgone).
  split; [exact H |]. split.
  - rewrite Hother; [reflexivity | discriminate].
  - apply Hgone. decide_by_evaluation.
Defined.

(** X3. [PlzArchive.rename_file] onto a name that is not in use: the new name
    resolves to the content that the old name had, the buffers and every
    other name are untouched, and when names are not repeated the old name
    no longer resolves.  Renaming a name that is not there changes
    nothing. *)
Theorem plz_rename_file_content (a : Plz.t) (old new : string)
    (Hpar : parallel a) (Hnew : new ∉ filenames a) :
  (rename_file old new a).1 = Ok tt /\
  files (rename_file old new a).2 = files a /\
  (old ∉ filenames a -> (rename_file old new a).2 = a) /\
  (old ∈ filenames a ->
     Content.plz new (rename_file old new a).2 = Content.plz old a) /\
  (forall n, n <> old -> n <> new ->
     Content.plz n (rename_file old new a).2 = Content.plz n a) /\
  (NoDup (filenames a) -> old <> new ->
     Content.plz old (rename_file old new a).2 = None).
Proof.
  unfold rename_file, bind, gets.
  destruct (list_index old (filenames a)) as [i |] eqn:Ei.
  - pose proof (list_index_lt _ _ _ Ei) as Hlt.
    pose proof (list_index_Some _ _ _ Ei) as [Hi Hfirst].
    cbn [modify fst snd files filenames].
    split; [reflexivity |]. split; [reflexivity |]. split; [| split; [| split]].
    + intros Hout. exfalso. apply Hout. eapply list_elem_of_lookup_2, Hi.
    + intros _. unfold Content.plz. cbn [filenames files].
      rewrite (list_index_insert_new _ _ _ Hlt Hnew), Ei. reflexivity.
    + intros n Hn1 Hn2. unfold Content.plz. cbn [filenames files].
      rewrite (list_index_insert_other n old new _ i Hi Hn1 Hn2). reflexivity.
    + intros Hnd Hne. unfold Content.plz. cbn [filenames files].
      assert (Hgone : old ∉ <[i := new]> (filenames a)).
      { intros Hin. apply list_elem_of_lookup in Hin as [j Hj].
        destruct (decide (j = i)) as [-> | Hji].
        - rewrite list_lookup_insert_eq in Hj by exact Hlt. congruence.
        - rewrite list_lookup_insert_ne in Hj by congruence.
          apply Hji. eapply NoDup_lookup; eauto. }
      apply list_index_None in Hgone. rewrite Hgone. reflexivity.
  - cbn [ret fst snd]. split; [reflexivity |]. split; [reflexivity |].
    apply list_index_None in Ei. split; [reflexivity |].
    split; [intros Hin; contradiction |]. split; [reflexivity |].
    intros _ _. unfold Content.plz. apply list_index_None in Ei. rewrite Ei.
    reflexivity.
Qed.

Lemma plz_rename_file_content_witness :
  parallel scenario_b /\
  Content.plz "z" (rename_file "x" "z" scenario_b).2 = Some [x01; x02; x03] /\
  Content.plz "x" (rename_file "x" "z" scenario_b).2 = None.
Proof.
  assert (H : parallel scenario_b) by reflexivity.
  assert (Hnew : "z"%string ∉ filenames scenario_b) by decide_by_evaluation.
  destruct (plz_rename_file_content scenario_b "x" "z" H Hnew)
    as (_ & _ & _ & Hmoved & _ & Hgone).
  split; [exact H |]. split.
  - rewrite Hmoved; [reflexivity | decide_by_evaluation].
  - apply Hgone; [decide_by_evaluation | discriminate].
Defined.

(** X4. Adding a name that is not in the archive and removing it again gives
    the archive back. *)
Theorem plz_add_then_remove (a : Plz.t) (name : string)
    (Hpar : parallel a) (Hnew : name ∉ filenames a) :
  remove_file name (add_file name a).2 = (Ok tt, a).
Proof.
  unfold parallel in Hpar. cbn [add_file bind gets modify ret snd].
  unfold remove_file, bind, gets. cbn [filenames files].
  rewrite (list_index_app_r _ _ _ Hnew). cbn [list_index].
  rewrite decide_True by reflexivity. cbn [fmap option_fmap option_map].
  rewrite Nat.add_0_r. unfold pop. cbn [files].
  rewrite decide_True by (rewrite length_app; cbn [length]; lia).
  unfold modify. cbn [filenames files].
  rewrite delete_at_end, Hpar, delete_at_end. destruct a; reflexivity.
Qed.

Lemma plz_add_then_remove_witness :
  remove_file "z" (add_file "z" scenario_b).2 = (Ok tt, scenario_b).
Proof.
  apply plz_add_then_remove; [reflexivity | decide_by_evaluation].
Defined.

End ArchiveProperties.

Module EncoderProperties.
Import Binary Plz IndexFacts BinaryFacts CodecFacts ArchiveFacts.

(** X5. [write_stream] loops over [range(len(self.files))]: names beyond the
    number of buffers are never looked at, so an archive with surplus
    names is written exactly as the archive without them. *)
Theorem write_stream_ignores_surplus_names (a : Plz.t)
    (Hlen : length (files a) <= length (filenames a)) :
  write_stream a =
  write_stream (Archive (take (length (files a)) (filenames a)) (files a)).
Proof.
  set (a2 := Archive _ _).
  assert (Hloop : forall s,
    for_each (seq 0 (length (files a))) (write_record a) s =
    for_each (seq 0 (length (files a))) (write_record a2) s).
  { apply for_each_ext. intros i Hi s. apply elem_of_seq in Hi.
    unfold write_record, a2. cbn [filenames files].
    rewrite lookup_take_lt by lia. reflexivity. }
  unfold write_stream, write_stream_wtr. cbn [files a2]. unfold bind.
  repeat match goal with
  | |- context [write_uint32 ?n ?s] =>
      destruct (write_uint32 n s) as [[[] | ? |] ?]; try reflexivity
  | |- context [write magic ?s] =>
      destruct (write magic s) as [[[] | ? |] ?]; try reflexivity
  end.
  rewrite Hloop. reflexivity.
Qed.

Lemma write_stream_ignores_surplus_names_witness :
  write_stream (Archive ["x"; "yy"; "zzz"]%string [ [x01; x02; x03]; [] ]) =
  write_stream scenario_b.
Proof.
  apply (write_stream_ignores_surplus_names
           (Archive ["x"; "yy"; "zzz"]%string [ [x01; x02; x03]; [] ])).
  cbn. lia.
Defined.

(** X6. With fewer names than buffers, [write_stream] writes the records that
    have a name and then raises [IndexError] at [self.filenames[i]]. *)
Theorem write_stream_too_few_names (a : Plz.t)
    (Hlen : length (filenames a) < length (files a))
    (Hnames : Forall name_ok (filenames a))
    (Hsize : (N.of_nat (16 + length (body (records a))) < 4294967296)%N) :
  (write_stream a).1 = Raise IndexError.
Proof.
  set (n := length (filenames a)).
  set (a2 := Archive (filenames a) (take n (files a))).
  assert (Hpar2 : parallel a2).
  { unfold parallel, a2. cbn [filenames files]. rewrite length_take. lia. }
  assert (Hrec : records a2 = records a).
  { unfold records, a2, n. cbn [filenames files]. clear.
    generalize (files a). induction (filenames a) as [| x l IH]; intros k.
    - reflexivity.
    - destruct k as [| y k]; [reflexivity |].
      cbn [length take zip_with]. rewrite IH. reflexivity. }
  assert (Hloop : forall s,
    for_each (seq 0 n) (write_record a) s = for_each (seq 0 n) (write_record a2) s).
  { apply for_each_ext. intros i Hi s. apply elem_of_seq in Hi.
    unfold write_record, a2. cbn [filenames files].
    rewrite lookup_take_lt by lia. reflexivity. }
  unfold write_stream, write_stream_wtr.
  erewrite bind_ok by (apply write_uint32_at_end; [reflexivity | reflexivity]).
  erewrite bind_ok by (apply write_uint32_at_end; [reflexivity | reflexivity]).
  erewrite bind_ok by (apply write_at_end; reflexivity).
  erewrite bind_ok by (apply write_uint32_at_end; [reflexivity | reflexivity]).
  cbn [of_bytes data c app length].
  replace (length (files a)) with (n + (length (files a) - n)) by lia.
  rewrite seq_app. unfold bind at 1. rewrite for_each_app. unfold bind at 1.
  rewrite Hloop.
  rewrite (write_records_spec a2 Hpar2 Hnames n 0).
  - destruct (length (files a) - n) as [| m] eqn:Em; [lia |].
    cbn [seq for_each Nat.add]. unfold bind at 1. unfold write_record.
    rewrite (lookup_ge_None_2 (filenames a) n) by (unfold n; lia).
    reflexivity.
  - unfold a2. cbn [files]. rewrite length_take. lia.
  - rewrite drop_0, Hrec. cbn [data]. rewrite !length_app, !length_le_bytes.
    cbn [length magic]. lia.
  - reflexivity.
Qed.

Lemma write_stream_too_few_names_witness :
  (write_stream (Archive ["x"%string] [ [x01; x02; x03]; [] ])).1 = Raise IndexError.
Proof.
  apply write_stream_too_few_names.
  - cbn. lia.
  - decide_by_evaluation.
  - vm_compute. reflexivity.
Defined.

(** X7. What [write_stream] produces starts with the header size 16, holds its
    own length in the size field at offset 4 and the magic [PCK2] at
    offset 8, and is a multiple of 4 bytes long. *)
Theorem write_stream_header (a : Plz.t)
    (Hpar : parallel a) (Hnames : Forall name_ok (filenames a))
    (Hsize : (N.of_nat (length (encoded a)) < 4294967296)%N) :
  exists bs,
    write_stream a = (Ok tt, bs) /\
    le_value (take 4 bs) = 16%N /\
    le_value (take 4 (drop 4 bs)) = N.of_nat (length bs) /\
    take 4 (drop 8 bs) = magic /\
    length bs mod 4 = 0.
Proof.
  exists (encoded a). split; [apply write_stream_spec; assumption |].
  rewrite length_encoded in *.
  split; [reflexivity |]. split; [| split].
  - unfold encoded. cbn [le_bytes app drop take].
    change (take 4 (?b0 :: ?b1 :: ?b2 :: ?b3 :: ?rest)) with [b0; b1; b2; b3].
    apply (le_value_le_bytes _ Hsize).
  - reflexivity.
  - pose proof (length_body_aligned (records a)) as H.
    rewrite <- Nat.Div0.add_mod_idemp_r, H. reflexivity.
Qed.

Lemma write_stream_header_witness :
  exists bs,
    write_stream scenario_b = (Ok tt, bs) /\
    le_value (take 4 bs) = 16%N /\
    le_value (take 4 (drop 4 bs)) = N.of_nat (length bs) /\
    take 4 (drop 8 bs) = magic /\
    length bs mod 4 = 0.
Proof.
  apply write_stream_header.
  - reflexivity.
  - decide_by_evaluation.
  - vm_compute. reflexivity.
Defined.

End EncoderProperties.

(** ** What the methods leave alone

    A property of the world that none of the attribute writes in a set of
    methods can break is kept by these methods, however they end. *)

Module FrameFacts.
Import Rom.

Ltac frame_step :=
  match goal with
  | |- preserves _ (bind _ _) => apply preserves_bind; [| intros ?]
  | |- preserves _ (ret _) => apply preserves_ret
  | |- preserves _ (raise _) => apply preserves_raise
  | |- preserves _ loops => apply preserves_loops
  | |- preserves _ (gets _) => apply preserves_gets
  | |- preserves _ (for_each _ _) => apply preserves_for_each; intros ?
  | |- preserves _ (match ?x with _ => _ end) => destruct x
  end.

Section Frame.
Variable P : World -> Prop.
Hypothesis Hfiles : forall f w, P w -> P (set_files f w).
Hypothesis Harchives : forall f w, P w -> P (set_archives f w).
Hypothesis Hhandles : forall f w, P w -> P (set_handles f w).
Hypothesis Hopened : forall f w, P w -> P (set_opened_files f w).

Lemma set_owner_files_frame o fs w : P w -> P (set_owner_files o fs w).
Proof. destruct o; cbn [set_owner_files]; auto. Qed.

Lemma on_archive_frame {A} a (m : M Plz.t A) : preserves P (on_archive a m).
Proof.
  intros w H. unfold on_archive. destruct (archives w !! a) as [ar |]; [| exact H].
  destruct (m ar) as [r ar']. cbn [snd]. auto.
Qed.

Lemma set_id_frame fp new : preserves P (set_id fp new).
Proof. apply preserves_modify. auto. Qed.

Lemma RomFile_flush_frame fp : preserves P (RomFile_flush fp).
Proof.
  unfold RomFile_flush. repeat frame_step;
    apply preserves_modify; intros w H; apply set_owner_files_frame, H.
Qed.

Lemma RomFile_close_frame fp : preserves P (RomFile_close fp).
Proof.
  unfold RomFile_close. frame_step; [apply RomFile_flush_frame |].
  frame_step; apply preserves_modify; auto.
Qed.

Lemma RomFile_init_frame o index op : preserves P (RomFile_init o index op).
Proof.
  unfold RomFile_init. repeat frame_step; try (apply preserves_modify; auto).
Qed.

Lemma plz_open_frame a file mode : preserves P (plz_open a file mode).
Proof.
  unfold plz_open. destruct (parse_mode mode) as [[[op b] create] |];
    [| apply preserves_raise].
  frame_step; [| frame_step; [apply RomFile_init_frame | apply preserves_ret]].
  destruct file as [path | fileid]; [| apply preserves_ret].
  frame_step; [apply on_archive_frame |].
  frame_step; [| repeat frame_step].
  destruct (_ && _); [| apply preserves_ret].
  frame_step; [apply on_archive_frame | repeat frame_step].
Qed.

Hypothesis Hnames : forall f w, P w -> P (set_filenames f w).

Lemma folder_of_frame folder_name : preserves P (folder_of folder_name).
Proof. unfold folder_of. repeat frame_step. Qed.

Lemma add_file_frame file : preserves P (add_file file).
Proof.
  unfold add_file. destruct (os_path_split file) as [folder_name filename].
  frame_step; [apply folder_of_frame |].
  do 3 (frame_step; [apply preserves_modify; auto |]).
  frame_step; [apply preserves_gets |].
  frame_step; [| apply preserves_ret].
  frame_step. frame_step; [apply preserves_gets |].
  frame_step; [destruct (decide _); [apply set_id_frame | apply preserves_ret] |].
  frame_step; [apply preserves_gets |].
  destruct (decide _); [apply RomFile_close_frame | apply preserves_ret].
Qed.

Lemma remove_file_frame file : preserves P (remove_file file).
Proof.
  unfold remove_file. destruct (os_path_split file) as [folder_name filename].
  frame_step; [apply folder_of_frame |].
  frame_step; [apply preserves_gets |].
  frame_step; [apply preserves_lift |].
  destruct (Fnt.list_remove _ _); [| apply preserves_raise].
  frame_step; [apply preserves_modify; auto |].
  match goal with |- preserves _ (match ?x with _ => _ end) => destruct x end;
    [| apply preserves_raise].
  frame_step; [apply preserves_gets |].
  frame_step.
  { destruct (decide _); [apply preserves_modify; auto | apply preserves_raise]. }
  frame_step; [apply preserves_modify; auto |].
  frame_step; [apply preserves_gets |].
  frame_step. frame_step; [apply preserves_gets |].
  frame_step; [destruct (decide _); [apply set_id_frame | apply preserves_ret] |].
  frame_step; [apply preserves_gets |].
  destruct (decide _); [apply RomFile_close_frame | apply preserves_ret].
Qed.

Lemma open_frame file mode : preserves P (open file mode).
Proof.
  unfold open. destruct (parse_mode mode) as [[[op b] create] |];
    [| apply preserves_raise].
  frame_step; [| frame_step; [apply RomFile_init_frame | apply preserves_ret]].
  destruct file as [path | fileid]; [| repeat frame_step].
  frame_step; [apply preserves_gets |].
  frame_step; [apply preserves_lift |].
  frame_step; [| repeat frame_step].
  destruct (_ && _); [| apply preserves_ret].
  frame_step; [apply add_file_frame |].
  destruct (bool_decide _); [apply preserves_raise | apply preserves_ret].
Qed.

Lemma PlzArchive_init_frame decompress fuel filename :
  preserves P (PlzArchive_init decompress fuel filename).
Proof.
  unfold PlzArchive_init.
  frame_step; [apply preserves_gets |].
  frame_step; [apply preserves_modify; auto |].
  frame_step; [apply open_frame |].
  frame_step; [apply preserves_gets |].
  destruct (decompress _); [| apply preserves_raise | apply preserves_loops].
  frame_step; [apply on_archive_frame |].
  frame_step; [apply RomFile_close_frame | apply preserves_ret].
Qed.

Hypothesis Hloaded : forall f w, P w -> P (set_loaded_archives f w).
Hypothesis Hflag : forall b w, P w -> P (set_get_archive_call b w).

Lemma get_archive_frame decompress fuel path :
  preserves P (get_archive decompress fuel path).
Proof.
  unfold get_archive.
  frame_step; [apply preserves_gets |].
  frame_step.
  { destruct (_ !! _); [apply preserves_ret |].
    frame_step; [apply preserves_modify; auto |].
    frame_step; [apply PlzArchive_init_frame |].
    frame_step; apply preserves_modify; auto. }
  repeat frame_step.
Qed.

End Frame.

End FrameFacts.

(** ** Handles: [RomFile.__init__], [flush] and [close] step by step *)

Module HandleFacts.
Import Rom Handle.

Lemma py_index_nat {A} (l : list A) i :
  i < length l -> py_index l (Z.of_nat i) = Some i.
Proof.
  intros H. unfold py_index.
  replace (0 <=? Z.of_nat i)%Z with true by (symmetry; apply Z.leb_le; lia).
  replace (Z.of_nat i <? Z.of_nat (length l))%Z with true
    by (symmetry; apply Z.ltb_lt; lia).
  rewrite Nat2Z.id. reflexivity.
Qed.

(** A world is its four components. *)
Lemma world_eq (w w' : World) :
  rom w' = rom w -> archives w' = archives w -> handles w' = handles w ->
  opened_files w' = opened_files w -> w' = w.
Proof. destruct w, w'. cbn. congruence. Qed.

Lemma owner_files_set_handles o f w :
  owner_files o (set_handles f w) = owner_files o w.
Proof. destruct o; reflexivity. Qed.

Lemma owner_files_set_opened_files o f w :
  owner_files o (set_opened_files f w) = owner_files o w.
Proof. destruct o; reflexivity. Qed.

Lemma RomFile_init_ok o i op w fs :
  owner_files o w = Some fs -> i < length fs ->
  RomFile_init o (Z.of_nat i) op w =
    (Ok (length (handles w)), with_new_handle o i op fs w).
Proof.
  intros Hfs Hi. unfold RomFile_init, with_new_handle, new_handle.
  unfold bind at 1. unfold gets at 1.
  unfold bind at 1. unfold modify at 1.
  unfold bind at 1. unfold gets at 1. cbn [set_handles opened_files].
  unfold bind at 1.
  assert (Hins : forall (l : list RomFile) h h',
            <[length l := h']> (l ++ [h]) = l ++ [h']).
  { intros l h h'. rewrite insert_app_r_alt by lia.
    rewrite Nat.sub_diag. reflexivity. }
  assert (Hfs' : forall f g,
            owner_files o (set_opened_files g (set_handles f w)) = Some fs).
  { intros f g. rewrite owner_files_set_opened_files, owner_files_set_handles.
    exact Hfs. }
  destruct (decide (length (handles w) ∈ opened_files w)) as [Hin | Hout];
    [unfold ret at 1 | unfold modify at 1];
    (destruct op;
     [ unfold bind, gets; rewrite ?Hfs', ?owner_files_set_handles, ?Hfs;
       rewrite (py_index_nat _ _ Hi); unfold modify, ret
     | unfold ret
     | unfold bind, gets; rewrite ?Hfs', ?owner_files_set_handles, ?Hfs;
       rewrite (py_index_nat _ _ Hi); unfold modify, ret ]);
    unfold set_handles, set_opened_files;
    cbn [handles rom archives opened_files];
    rewrite ?Hins, ?(decide_True _ _ Hin), ?(decide_False _ _ Hout);
    reflexivity.
Qed.

(** [RomFile.__init__] on a slot that does not exist: the handle is made
    and registered before the slot is looked at. *)
Lemma RomFile_init_out_of_range o k op w fs :
  owner_files o w = Some fs -> py_index fs k = None ->
  RomFile_init o k op w =
    (match op with op_w => Ok (length (handles w)) | _ => Raise IndexError end,
     set_handles (fun l => l ++ [MkRomFile o k op false []])
       (set_opened_files
          (fun l => if decide (length (handles w) ∈ l) then l
                    else l ++ [length (handles w)]) w)).
Proof.
  intros Hfs Hk. unfold RomFile_init.
  unfold bind at 1. unfold gets at 1.
  unfold bind at 1. unfold modify at 1.
  unfold bind at 1. unfold gets at 1. cbn [set_handles opened_files].
  unfold bind at 1.
  assert (Hfs' : forall f g,
            owner_files o (set_opened_files g (set_handles f w)) = Some fs).
  { intros f g. rewrite owner_files_set_opened_files, owner_files_set_handles.
    exact Hfs. }
  destruct (decide (length (handles w) ∈ opened_files w)) as [Hin | Hout];
    [unfold ret at 1 | unfold modify at 1];
    (destruct op;
     [ unfold bind, gets; rewrite ?Hfs', ?owner_files_set_handles, ?Hfs;
       rewrite Hk; unfold raise
     | unfold ret
     | unfold bind, gets; rewrite ?Hfs', ?owner_files_set_handles, ?Hfs;
       rewrite Hk; unfold raise ]);
    unfold set_handles, set_opened_files;
    cbn [handles rom archives opened_files];
    rewrite ?(decide_True _ _ Hin), ?(decide_False _ _ Hout);
    reflexivity.
Qed.

(** [flush] changes neither a handle nor the registry. *)
Lemma RomFile_flush_handles fp w :
  handles (RomFile_flush fp w).2 = handles w /\
  opened_files (RomFile_flush fp w).2 = opened_files w.
Proof.
  apply (FrameFacts.RomFile_flush_frame
           (fun w' => handles w' = handles w /\ opened_files w' = opened_files w));
    auto.
Qed.

(** A closed handle, or an address without a handle, is not flushed. *)
Lemma RomFile_flush_closed fp w :
  default true (closed <$> handles w !! fp) = true ->
  RomFile_flush fp w = (Ok tt, w).
Proof.
  intros H. unfold RomFile_flush, bind, gets.
  destruct (handles w !! fp) as [h |]; [| reflexivity].
  cbn in H. rewrite H. reflexivity.
Qed.

Lemma set_owner_files_same o fs w :
  owner_files o w = Some fs ->
  rom (set_owner_files o fs w) = rom w /\
  archives (set_owner_files o fs w) = archives w.
Proof.
  destruct o as [| a]; cbn [owner_files set_owner_files].
  - intros [= <-]. split; [| reflexivity].
    cbn [set_files rom]. destruct (rom w). reflexivity.
  - destruct (archives w !! a) as [ar |] eqn:Ea; [| discriminate].
    cbn. intros [= <-]. split; [reflexivity |].
    rewrite Ea. apply list_insert_id. rewrite Ea. destruct ar. reflexivity.
Qed.

(** Open a slot that exists, write once, close. *)
Lemma open_write_close o i op data w fs :
  owner_files o w = Some fs -> i < length fs ->
  exists w1 w2 w3,
    RomFile_init o (Z.of_nat i) op w = (Ok (length (handles w)), w1) /\
    read_first (length (handles w)) w1 =
      (Ok (match op with op_r => fs !!! i | _ => [] end), w1) /\
    write_first (length (handles w)) data w1 = (Ok (length data), w2) /\
    RomFile_close (length (handles w)) w2 = (Ok tt, w3) /\
    rom w1 = rom w /\ archives w1 = archives w /\
    rom w3 = rom (set_owner_files o (<[i := written op (fs !!! i) data]> fs) w) /\
    archives w3 =
      archives (set_owner_files o (<[i := written op (fs !!! i) data]> fs) w) /\
    closed <$> handles w3 !! length (handles w) = Some true.
Proof.
  intros Hfs Hi. set (fp := length (handles w)).
  set (w1 := with_new_handle o i op fs w).
  assert (Hh1 : handles w1 !! fp = Some (new_handle o i op fs)).
  { unfold w1, with_new_handle. cbn [set_handles set_opened_files handles].
    apply list_lookup_middle. reflexivity. }
  set (h2 := MkRomFile o (Z.of_nat i) op false
               (match op with
                | op_a => value (new_handle o i op fs) ++ data
                | _ => data ++ drop (length data) (value (new_handle o i op fs))
                end)).
  set (w2 := set_handles (<[fp := h2]>) w1).
  assert (Hh2 : handles w2 !! fp = Some h2).
  { unfold w2. cbn [set_handles handles].
    apply list_lookup_insert_eq. eapply lookup_lt_Some, Hh1. }
  assert (Hvalue : op <> op_r -> value h2 = written op (fs !!! i) data).
  { unfold h2. cbn [value new_handle]. destruct op; [congruence | |]; intros _; cbn [written].
    - rewrite drop_nil. apply app_nil_r.
    - reflexivity. }
  assert (Hw2 : rom w2 = rom w /\ archives w2 = archives w) by (split; reflexivity).
  assert (Hfs2 : owner_files o w2 = Some fs).
  { unfold w2, w1, with_new_handle.
    rewrite !owner_files_set_handles, owner_files_set_opened_files. exact Hfs. }
  set (wf := match op with
             | op_r => w2
             | _ => set_owner_files o (<[i := value h2]> fs) w2
             end).
  assert (Hflush : RomFile_flush fp w2 = (Ok tt, wf)).
  { unfold RomFile_flush, bind, gets. rewrite Hh2. cbn [h2 closed opp archive id].
    unfold wf. destruct op; [reflexivity | |];
      rewrite Hfs2, (py_index_nat _ _ Hi); reflexivity. }
  assert (Hwf : rom wf = rom (set_owner_files o (<[i := written op (fs !!! i) data]> fs) w) /\
                archives wf = archives (set_owner_files o (<[i := written op (fs !!! i) data]> fs) w) /\
                handles wf = handles w2).
  { unfold wf. destruct op.
    - cbn [written]. rewrite list_insert_id
        by (apply list_lookup_lookup_total_lt; exact Hi).
      destruct (set_owner_files_same o fs w Hfs) as [-> ->]. auto.
    - rewrite (Hvalue ltac:(discriminate)).
      destruct o; cbn [set_owner_files]; auto.
    - rewrite (Hvalue ltac:(discriminate)).
      destruct o; cbn [set_owner_files]; auto. }
  destruct Hwf as (Hrom & Harch & Hhs).
  set (w3 := set_opened_files (fun l => default l (Fnt.list_remove fp l))
    (set_handles (fun hs =>
       match hs !! fp with
       | Some h => <[fp := MkRomFile (archive h) (id h) (opp h) true (value h)]> hs
       | None => hs
       end) wf)).
  exists w1, w2, w3.
  split; [apply RomFile_init_ok; assumption |].
  split.
  { unfold read_first, bind, gets. rewrite Hh1. cbn. destruct op; reflexivity. }
  split.
  { unfold write_first, bind, gets. rewrite Hh1. cbn [new_handle closed].
    unfold modify, ret. reflexivity. }
  split.
  { unfold RomFile_close. unfold bind at 1. rewrite Hflush.
    unfold bind, modify. reflexivity. }
  split; [reflexivity |]. split; [reflexivity |].
  split; [exact Hrom |]. split; [exact Harch |].
  unfold w3. cbn [set_opened_files set_handles handles]. rewrite Hhs, Hh2.
  rewrite list_lookup_insert_eq by (eapply lookup_lt_Some, Hh2). reflexivity.
Qed.

End HandleFacts.

Module HandleProperties.
Import Rom Handle HandleFacts.

(** X8. [RomFile.close] may be called again, as [__exit__] and [__del__] do:
    once a handle has been closed without an error and the registry holds
    no object twice, another [close] succeeds and changes nothing. *)
Theorem close_twice_is_close_once (fp : nat) (w w1 : World)
    (Hnd : NoDup (opened_files w))
    (Hclose : RomFile_close fp w = (Ok tt, w1)) :
  RomFile_close fp w1 = (Ok tt, w1).
Proof.
  unfold RomFile_close in Hclose. unfold bind at 1 in Hclose.
  pose proof (RomFile_flush_handles fp w) as [Hh Ho].
  destruct (RomFile_flush fp w) as [[[] | e |] w0]; try discriminate.
  cbn [snd] in Hh, Ho. unfold bind, modify in Hclose.
  injection Hclose as <-.
  set (w1 := set_opened_files _ _).
  assert (Hclosed : default true (closed <$> handles w1 !! fp) = true).
  { unfold w1. cbn [set_opened_files set_handles handles].
    destruct (handles w0 !! fp) as [h |] eqn:Eh; [| rewrite Eh; reflexivity].
    rewrite list_lookup_insert_eq by (eapply lookup_lt_Some, Eh). reflexivity. }
  assert (Hgone : Fnt.list_remove fp (opened_files w1) = None).
  { unfold w1. cbn [set_opened_files set_handles opened_files]. rewrite Ho.
    unfold Fnt.list_remove.
    destruct (list_index fp (opened_files w)) as [i |] eqn:Ei; cbn.
    - apply IndexFacts.list_index_Some in Ei as [Ei _].
      pose proof (ArchiveFacts.not_elem_of_delete_NoDup _ _ _ Hnd Ei) as Hout.
      apply IndexFacts.list_index_None in Hout. rewrite Hout. reflexivity.
    - rewrite Ei. reflexivity. }
  unfold RomFile_close. unfold bind at 1.
  rewrite (RomFile_flush_closed _ _ Hclosed). unfold bind, modify.
  f_equal. apply world_eq;
    cbn [set_opened_files set_handles rom archives handles opened_files].
  - reflexivity.
  - reflexivity.
  - destruct (handles w1 !! fp) as [h |] eqn:Eh; [| reflexivity].
    cbn in Hclosed. apply list_insert_id. rewrite Eh. destruct h. cbn in *.
    rewrite Hclosed. reflexivity.
  - rewrite Hgone. reflexivity.
Qed.

Lemma close_twice_is_close_once_witness :
  exists fp w0 w1,
    open (By_path "data/c") "wb" three_files_world = (Ok (Binary_file fp), w0) /\
    RomFile_close fp w0 = (Ok tt, w1) /\
    RomFile_close fp w1 = (Ok tt, w1).
Proof.
  exists 0, (open (By_path "data/c") "wb" three_files_world).2,
    (RomFile_close 0 (open (By_path "data/c") "wb" three_files_world).2).2.
  split; [vm_compute; reflexivity |]. split; [vm_compute; reflexivity |].
  apply (close_twice_is_close_once 0
           (open (By_path "data/c") "wb" three_files_world).2).
  - decide_by_evaluation.
  - vm_compute. reflexivity.
Defined.

(** X9. A handle on an entry of a [PlzArchive], opened by name in a binary
    mode: the first [read()] yields the entry's content in mode [r] and
    nothing in the modes [w] and [a]; after one [write(data)] and [close()]
    the name stands for the old content in mode [r], for [data] in mode [w]
    and for the old content followed by [data] in mode [a], and every other
    name stands for what it stood for. *)
Theorem plz_handle_round_trip (a : nat) (ar : Plz.t) (name : string)
    (mode : string) (op : operation) (plus : bool) (old data : list byte)
    (w : World)
    (Har : archives w !! a = Some ar)
    (Hold : Content.plz name ar = Some old)
    (Hmode : parse_mode mode = Some (op, true, plus)) :
  exists fp w1 w2 w3 ar',
    plz_open a (By_path name) mode w = (Ok (Binary_file fp), w1) /\
    read_first fp w1 = (Ok (match op with op_r => old | _ => [] end), w1) /\
    write_first fp data w1 = (Ok (length data), w2) /\
    RomFile_close fp w2 = (Ok tt, w3) /\
    rom w3 = rom w /\
    archives w3 = <[a := ar']> (archives w) /\
    Plz.filenames ar' = Plz.filenames ar /\
    Content.plz name ar' = Some (written op old data) /\
    (forall n, n <> name -> Content.plz n ar' = Content.plz n ar).
Proof.
  unfold Content.plz in Hold.
  destruct (list_index name (Plz.filenames ar)) as [i |] eqn:Ei; [| discriminate].
  cbn in Hold. pose proof (lookup_lt_Some _ _ _ Hold) as Hi.
  assert (Hold' : Plz.files ar !!! i = old)
    by (apply list_lookup_total_correct, Hold).
  set (w0 := set_archives (<[a := ar]>) w).
  assert (Hw0 : w0 = w).
  { apply world_eq; try reflexivity. unfold w0. cbn [set_archives archives].
    apply list_insert_id, Har. }
  assert (Hfs : owner_files (OwnerPlz a) w = Some (Plz.files ar)).
  { cbn [owner_files]. rewrite Har. reflexivity. }
  destruct (open_write_close (OwnerPlz a) i op data w (Plz.files ar) Hfs Hi)
    as (w1 & w2 & w3 & Hinit & Hread & Hwrite & Hclose & _ & _ & Hrom & Harch & _).
  exists (length (handles w)), w1, w2, w3,
    (Plz.Archive (Plz.filenames ar)
       (<[i := written op (Plz.files ar !!! i) data]> (Plz.files ar))).
  split.
  { unfold plz_open. rewrite Hmode. unfold bind at 1. unfold bind at 1.
    unfold on_archive at 1. rewrite Har. unfold gets at 1. fold w0. rewrite Hw0.
    rewrite Ei. rewrite bool_decide_eq_false_2 by discriminate.
    cbn [andb]. unfold ret, bind. rewrite Hinit. reflexivity. }
  rewrite Hold' in *.
  split; [exact Hread |]. split; [exact Hwrite |]. split; [exact Hclose |].
  split; [exact Hrom |].
  split; [rewrite Harch; cbn [set_owner_files set_archives archives];
          rewrite Har; reflexivity |].
  split; [reflexivity |].
  unfold Content.plz. cbn [Plz.filenames Plz.files]. split.
  - rewrite Ei. cbn. apply list_lookup_insert_eq. exact Hi.
  - intros n Hn. destruct (list_index n (Plz.filenames ar)) as [j |] eqn:Ej;
      [| reflexivity].
    cbn. apply list_lookup_insert_ne. intros ->.
    apply IndexFacts.list_index_Some in Ei as [Ei _].
    apply IndexFacts.list_index_Some in Ej as [Ej _].
    congruence.
Qed.

Lemma plz_handle_round_trip_witness :
  exists fp w1 w2 w3 ar',
    plz_open 0 (By_path "x") "wb" (MkWorld (rom empty_rom_world) [scenario_b] [] [])
      = (Ok (Binary_file fp), w1) /\
    write_first fp [x0a] w1 = (Ok 1, w2) /\
    RomFile_close fp w2 = (Ok tt, w3) /\
    archives w3 = [ar'] /\
    Content.plz "x" ar' = Some [x0a] /\
    Content.plz "yy" ar' = Some [].
Proof.
  destruct (plz_handle_round_trip 0 scenario_b "x" "wb" op_w false
              [x01; x02; x03] [x0a]
              (MkWorld (rom empty_rom_world) [scenario_b] [] [])
              eq_refl eq_refl eq_refl)
    as (fp & w1 & w2 & w3 & ar' & H1 & _ & H2 & H3 & _ & H4 & _ & H5 & H6).
  exists fp, w1, w2, w3, ar'.
  repeat (split; [assumption |]).
  rewrite H6; [reflexivity | discriminate].
Defined.

(** X10. A handle that [NintendoDSRom.open] returns in a binary mode for a
    path that stands for a slot other than slot 0: the first [read()]
    yields the slot's content in mode [r] and nothing in the modes [w] and
    [a]; after one [write(data)] and [close()] the slot holds the old
    content in mode [r], [data] in mode [w] and the old content followed by
    [data] in mode [a]; the other slots, the names and the archives are
    untouched. *)
Theorem rom_handle_round_trip (path : string) (k : nat)
    (mode : string) (op : operation) (plus : bool) (old data : list byte)
    (w : World)
    (Hid : Fnt.idOf path (filenames (rom w)) = Ok (Some (S k)))
    (Hold : files (rom w) !! S k = Some old)
    (Hmode : parse_mode mode = Some (op, true, plus)) :
  exists fp w1 w2 w3,
    open (By_path path) mode w = (Ok (Binary_file fp), w1) /\
    read_first fp w1 = (Ok (match op with op_r => old | _ => [] end), w1) /\
    write_first fp data w1 = (Ok (length data), w2) /\
    RomFile_close fp w2 = (Ok tt, w3) /\
    filenames (rom w3) = filenames (rom w) /\
    files (rom w3) = <[S k := written op old data]> (files (rom w)) /\
    archives w3 = archives w.
Proof.
  pose proof (lookup_lt_Some _ _ _ Hold) as Hi.
  assert (Hold' : files (rom w) !!! S k = old)
    by (apply list_lookup_total_correct, Hold).
  destruct (open_write_close OwnerRom (S k) op data w (files (rom w)) eq_refl Hi)
    as (w1 & w2 & w3 & Hinit & Hread & Hwrite & Hclose & _ & _ & Hrom & Harch & _).
  exists (length (handles w)), w1, w2, w3.
  split.
  { unfold open. rewrite Hmode. unfold bind at 1. unfold bind at 1.
    unfold gets at 1. unfold bind at 1. unfold lift at 1. rewrite Hid.
    rewrite bool_decide_eq_false_2 by (intros [|]; discriminate).
    cbn [andb]. unfold ret, bind. rewrite Hinit. reflexivity. }
  rewrite Hold' in *.
  split; [exact Hread |]. split; [exact Hwrite |]. split; [exact Hclose |].
  rewrite Hrom, Harch. repeat split.
Qed.

Lemma rom_handle_round_trip_witness :
  exists fp w1 w2 w3,
    open (By_path "data/c") "ab" three_files_world = (Ok (Binary_file fp), w1) /\
    write_first fp [x0d] w1 = (Ok 1, w2) /\
    RomFile_close fp w2 = (Ok tt, w3) /\
    files (rom w3) = [ [x0a]; [x0b]; [x0c; x0d] ].
Proof.
  destruct (rom_handle_round_trip "data/c" 1 "ab" op_a false [x0c] [x0d]
              three_files_world eq_refl eq_refl eq_refl)
    as (fp & w1 & w2 & w3 & H1 & _ & H2 & H3 & _ & H4 & _).
  exists fp, w1, w2, w3. repeat (split; [assumption |]). exact H4.
Defined.

End HandleProperties.

Module RegistryProperties.
Import Rom Handle HandleFacts FrameFacts.

(** X11. No method writes the attribute [_opened_files] that
    [NintendoDSRom.__init__] sets to the empty list: [open], [add_file],
    [remove_file], [get_archive], [PlzArchive.open] and [RomFile.close]
    leave it as it is, however they end. *)
Theorem private_registry_is_never_written (w : World) :
  (forall file mode,
     _opened_files (rom (open file mode w).2) = _opened_files (rom w)) /\
  (forall file,
     _opened_files (rom (add_file file w).2) = _opened_files (rom w)) /\
  (forall file,
     _opened_files (rom (remove_file file w).2) = _opened_files (rom w)) /\
  (forall decompress fuel path,
     _opened_files (rom (get_archive decompress fuel path w).2)
       = _opened_files (rom w)) /\
  (forall a file mode,
     _opened_files (rom (plz_open a file mode w).2) = _opened_files (rom w)) /\
  (forall fp,
     _opened_files (rom (RomFile_close fp w).2) = _opened_files (rom w)).
Proof.
  set (P := fun w' : World => _opened_files (rom w') = _opened_files (rom w)).
  assert (H0 : P w) by reflexivity.
  repeat split; intros.
  - apply (open_frame P); auto.
  - apply (add_file_frame P); auto.
  - apply (remove_file_frame P); auto.
  - apply (get_archive_frame P); auto.
  - apply (plz_open_frame P); auto.
  - apply (RomFile_close_frame P); auto.
Qed.

(** X12. [PlzArchive.open] with an integer does not look at the number of
    entries.  With an index out of range, the modes [r] and [a] raise
    [IndexError] after the new handle has registered itself, and it stays
    in the registry; mode [w] returns a handle, whose [close] raises
    [IndexError] and leaves it open. *)
Theorem plz_open_index_out_of_range (a : nat) (ar : Plz.t) (k : Z)
    (mode : string) (op : operation) (b plus : bool) (w : World)
    (Har : archives w !! a = Some ar)
    (Hk : py_index (Plz.files ar) k = None)
    (Hmode : parse_mode mode = Some (op, b, plus)) :
  let fp := length (handles w) in
  let w1 := (plz_open a (By_id k) mode w).2 in
  fp ∈ opened_files w1 /\ closed <$> handles w1 !! fp = Some false /\
  rom w1 = rom w /\ archives w1 = archives w /\
  match op with
  | op_w =>
      (plz_open a (By_id k) mode w).1 = Ok (wrap (negb b) fp) /\
      RomFile_close fp w1 = (Raise IndexError, w1)
  | _ => (plz_open a (By_id k) mode w).1 = Raise IndexError
  end.
Proof.
  intros fp w1.
  assert (Hfs : owner_files (OwnerPlz a) w = Some (Plz.files ar)).
  { cbn [owner_files]. rewrite Har. reflexivity. }
  assert (Hopen : plz_open a (By_id k) mode w =
    (match op with
     | op_w => Ok (wrap (negb b) fp)
     | _ => Raise IndexError
     end,
     set_handles (fun l => l ++ [MkRomFile (OwnerPlz a) k op false []])
       (set_opened_files
          (fun l => if decide (fp ∈ l) then l else l ++ [fp]) w))).
  { unfold plz_open. rewrite Hmode. unfold bind at 1. unfold ret at 1.
    unfold bind. rewrite (RomFile_init_out_of_range _ _ _ _ _ Hfs Hk).
    destruct op; reflexivity. }
  unfold w1. rewrite Hopen. cbn [fst snd].
  set (w' := set_handles _ _).
  assert (Hh : handles w' !! fp = Some (MkRomFile (OwnerPlz a) k op false [])).
  { unfold w'. cbn [set_handles set_opened_files handles].
    apply list_lookup_middle. reflexivity. }
  split.
  { unfold w'. cbn [set_handles set_opened_files opened_files].
    destruct (decide (fp ∈ opened_files w)); [assumption |].
    apply elem_of_app. right. apply list_elem_of_here. }
  split; [rewrite Hh; reflexivity |].
  split; [reflexivity |]. split; [reflexivity |].
  destruct op; try reflexivity.
  split; [reflexivity |].
  unfold RomFile_close. unfold bind at 1. unfold RomFile_flush.
  unfold bind at 1. unfold gets at 1. rewrite Hh. cbn [closed opp archive id].
  unfold bind at 1. unfold gets at 1.
  replace (owner_files (OwnerPlz a) w') with (Some (Plz.files ar))
    by (symmetry; unfold w';
        rewrite owner_files_set_handles, owner_files_set_opened_files; exact Hfs).
  rewrite Hk. reflexivity.
Qed.

Lemma plz_open_index_out_of_range_witness :
  let w := MkWorld (rom empty_rom_world) [scenario_b] [] [] in
  (plz_open 0 (By_id 2) "rb" w).1 = Raise IndexError /\
  opened_files (plz_open 0 (By_id 2) "rb" w).2 = [0].
Proof.
  intros w.
  destruct (plz_open_index_out_of_range 0 scenario_b 2 "rb" op_r true false w
              eq_refl eq_refl eq_refl) as (_ & _ & _ & _ & H).
  split; [exact H | reflexivity].
Defined.

End RegistryProperties.

Module ArchiveCacheProperties.
Import Rom Handle HandleFacts FrameFacts.

(** X13. When [get_archive] raises for a path that is not in the cache, the ROM
    is left with [_get_archive_call] set, which only a later successful
    [get_archive] resets, and the cache is as it was. *)
Theorem get_archive_failure_leaves_flag_set
    (decompress : list byte -> res (list byte)) (fuel : nat) (path : string)
    (w w' : World) (e : exn)
    (Hnew : _loaded_archives (rom w) !! path = None)
    (Hfail : get_archive decompress fuel path w = (Raise e, w')) :
  _get_archive_call (rom w') = true /\
  _loaded_archives (rom w') = _loaded_archives (rom w).
Proof.
  unfold get_archive in Hfail. unfold bind at 1 in Hfail.
  unfold gets at 1 in Hfail. rewrite Hnew in Hfail.
  unfold bind at 1 in Hfail. unfold bind at 1 in Hfail.
  unfold modify at 1 in Hfail. unfold bind at 1 in Hfail.
  set (w0 := set_get_archive_call true w) in Hfail.
  pose proof (PlzArchive_init_frame
    (fun s => _get_archive_call (rom s) = true /\
              _loaded_archives (rom s) = _loaded_archives (rom w))
    ltac:(auto) ltac:(auto) ltac:(auto) ltac:(auto) ltac:(auto)
    decompress fuel path w0 ltac:(split; reflexivity)) as Hframe.
  destruct (PlzArchive_init decompress fuel path w0) as [[a | e' |] w2].
  - exfalso. unfold bind, modify, gets in Hfail.
    cbn [set_loaded_archives set_get_archive_call rom _loaded_archives] in Hfail.
    rewrite lookup_insert_eq in Hfail. discriminate.
  - injection Hfail as <- <-. exact Hframe.
  - discriminate.
Qed.

Lemma get_archive_failure_leaves_flag_set_witness :
  exists w',
    get_archive Ok 0 "data/none.plz" plz_world = (Raise FileNotFoundError, w') /\
    _get_archive_call (rom w') = true.
Proof.
  exists (get_archive Ok 0 "data/none.plz" plz_world).2.
  assert (H : get_archive Ok 0 "data/none.plz" plz_world =
              (Raise FileNotFoundError, (get_archive Ok 0 "data/none.plz" plz_world).2))
    by (vm_compute; reflexivity).
  split; [exact H |].
  apply (get_archive_failure_leaves_flag_set Ok 0 "data/none.plz" plz_world _ _
           eq_refl H).
Defined.

(** X14. [get_archive] of a path that is not in the cache and stands for a slot
    other than slot 0: when the slot decompresses to the encoding of an
    archive, the call makes a new archive object that holds this archive,
    puts it in the cache under the path and resets [_get_archive_call]; the
    files and the names of the ROM are untouched and the handle it read
    from is closed. *)
Theorem get_archive_decodes_the_slot
    (decompress : list byte -> res (list byte)) (fuel : nat) (path : string)
    (k : nat) (raw : list byte) (x : Plz.t) (w : World)
    (Hnew : _loaded_archives (rom w) !! path = None)
    (Hid : Fnt.idOf path (filenames (rom w)) = Ok (Some (S k)))
    (Hraw : files (rom w) !! S k = Some raw)
    (Hdec : decompress raw = Ok (Plz.encoded x))
    (Hpar : Plz.parallel x) (Hnames : Forall Binary.name_ok (Plz.filenames x))
    (Hsize : (N.of_nat (length (Plz.encoded x)) < 4294967296)%N)
    (Hfuel : length (Plz.files x) <= fuel) :
  exists w1,
    get_archive decompress fuel path w = (Ok (length (archives w)), w1) /\
    archives w1 = archives w ++ [x] /\
    _loaded_archives (rom w1) = <[path := length (archives w)]> (_loaded_archives (rom w)) /\
    _get_archive_call (rom w1) = false /\
    files (rom w1) = files (rom w) /\ filenames (rom w1) = filenames (rom w) /\
    closed <$> handles w1 !! length (handles w) = Some true.
Proof.
  pose proof (lookup_lt_Some _ _ _ Hraw) as Hk.
  set (self := length (archives w)). set (fp := length (handles w)).
  set (wa := set_archives (fun l => l ++ [Plz.Archive [] []])
               (set_get_archive_call true w)).
  set (wb := with_new_handle OwnerRom (S k) op_r (files (rom w)) wa).
  assert (Hopen : open (By_path path) "rb" wa = (Ok (Binary_file fp), wb)).
  { unfold open. change (parse_mode "rb") with (Some (op_r, true, false)).
    unfold bind at 1. unfold bind at 1. unfold gets at 1.
    unfold bind at 1. unfold lift at 1.
    change (filenames (rom wa)) with (filenames (rom w)). rewrite Hid.
    rewrite bool_decide_eq_false_2 by (intros [|]; discriminate).
    cbn [andb]. unfold ret, bind.
    rewrite (RomFile_init_ok OwnerRom (S k) op_r wa (files (rom w)) eq_refl Hk).
    reflexivity. }
  assert (Hh : handles wb !! fp = Some (new_handle OwnerRom (S k) op_r (files (rom w)))).
  { unfold wb, with_new_handle. cbn [set_handles set_opened_files handles].
    apply list_lookup_middle. reflexivity. }
  set (wc := set_archives (<[self := x]>) wb).
  assert (Hread : on_archive self (Plz.read_stream fuel (Plz.encoded x)) wb = (Ok tt, wc)).
  { unfold on_archive.
    assert (Hself : archives wb !! self = Some (Plz.Archive [] [])).
    { unfold wb, with_new_handle, wa.
      cbn [set_handles set_opened_files set_archives set_get_archive_call archives].
      apply list_lookup_middle. reflexivity. }
    rewrite Hself.
    rewrite (CodecFacts.read_stream_encoded x _ fuel Hpar Hnames Hsize Hfuel).
    reflexivity. }
  set (wd := set_opened_files (fun l => default l (Fnt.list_remove fp l))
    (set_handles (fun hs =>
       match hs !! fp with
       | Some h => <[fp := MkRomFile (archive h) (id h) (opp h) true (value h)]> hs
       | None => hs
       end) wc)).
  assert (Hclose : RomFile_close fp wc = (Ok tt, wd)).
  { unfold RomFile_close. unfold bind at 1. unfold RomFile_flush.
    unfold bind at 1. unfold gets at 1.
    change (handles wc) with (handles wb). rewrite Hh. cbn [new_handle closed opp].
    unfold ret at 1. unfold bind, modify. reflexivity. }
  exists (set_get_archive_call false (set_loaded_archives (<[path := self]>) wd)).
  split.
  { unfold get_archive. unfold bind at 1. unfold gets at 1. rewrite Hnew.
    unfold bind at 1. unfold bind at 1. unfold modify at 1.
    unfold bind at 1. unfold PlzArchive_init.
    unfold bind at 1. unfold gets at 1.
    unfold bind at 1. unfold modify at 1. fold wa.
    unfold bind at 1. rewrite Hopen. cbn iota beta.
    unfold bind at 1. unfold gets at 1. rewrite Hh.
    cbn [fmap option_fmap option_map default from_option new_handle value].
    unfold Datatypes.id.
    rewrite (list_lookup_total_correct _ _ _ Hraw), Hdec.
    unfold bind at 1.
    change (length (archives (set_get_archive_call true w))) with self.
    rewrite Hread.
    unfold bind at 1. rewrite Hclose. unfold ret at 1.
    unfold bind, modify, gets.
    cbn [set_loaded_archives set_get_archive_call rom _loaded_archives].
    rewrite lookup_insert_eq. reflexivity. }
  split.
  { cbn [set_get_archive_call set_loaded_archives archives]. unfold wd.
    cbn [set_opened_files set_handles archives]. unfold wc, wb, with_new_handle, wa.
    cbn [set_archives set_opened_files set_handles set_get_archive_call archives].
    unfold self. rewrite insert_app_r_alt by lia. rewrite Nat.sub_diag.
    reflexivity. }
  split; [reflexivity |]. split; [reflexivity |].
  split; [reflexivity |]. split; [reflexivity |].
  cbn [set_get_archive_call set_loaded_archives handles]. unfold wd.
  cbn [set_opened_files set_handles handles].
  change (handles wc) with (handles wb). rewrite Hh.
  rewrite list_lookup_insert_eq by (eapply lookup_lt_Some, Hh). reflexivity.
Qed.

Lemma get_archive_decodes_the_slot_witness :
  exists w1,
    get_archive Ok 2 "data/x.plz" plz_world = (Ok 0, w1) /\
    archives w1 = [scenario_b] /\
    _get_archive_call (rom w1) = false.
Proof.
  destruct (get_archive_decodes_the_slot Ok 2 "data/x.plz" 0
              (Plz.write_stream scenario_b).2 scenario_b plz_world)
    as (w1 & H1 & H2 & _ & H3 & _).
  - reflexivity.
  - reflexivity.
  - reflexivity.
  - vm_compute. reflexivity.
  - reflexivity.
  - decide_by_evaluation.
  - vm_compute. reflexivity.
  - cbn. lia.
  - exists w1. split; [exact H1 |]. split; [exact H2 | exact H3].
Defined.

End ArchiveCacheProperties.

(** ** Path resolution in a tree that is rebuilt in place *)

Module ResolutionFacts.
Import Fnt TreeFacts IndexFacts BookkeepingFacts.

Lemma child_map (F : Folder -> Folder) name fds :
  child name (map (fun fd : string * Folder => let '(n, f) := fd in (n, F f)) fds)
  = F <$> child name fds.
Proof.
  induction fds as [| [n f] fds IH]; [reflexivity |].
  cbn [map child]. destruct (decide (n = name)); [reflexivity | exact IH].
Qed.

Lemma subfolder_in_place (F : Folder -> Folder) :
  in_place F -> forall path t, subfolder path (F t) = F <$> subfolder path t.
Proof.
  intros HF path. induction path as [| p rest IH]; intros t; [reflexivity |].
  cbn [subfolder]. rewrite HF, child_map.
  destruct (child p (folders t)) as [c |]; [apply IH | reflexivity].
Qed.

(** A path that resolves to a file: its folder, and the position of its
    name in the folder. *)
Lemma idOf_path_Some path t fid :
  idOf_path path t = Some fid ->
  exists dirs name f i,
    path = dirs ++ [name] /\ subfolder dirs t = Some f /\
    list_index name (files f) = Some i /\ fid = firstID f + i.
Proof.
  destruct (decide (path = [])) as [-> | Hne]; [discriminate |].
  destruct (exists_last Hne) as (dirs & name & ->).
  rewrite idOf_path_app.
  destruct (subfolder dirs t) as [f |] eqn:Ef; [| discriminate].
  destruct (list_index name (files f)) as [i |] eqn:Ei; [| discriminate].
  cbn. intros [= <-]. exists dirs, name, f, i. repeat split; assumption.
Qed.

Lemma idOf_path_in_place (F : Folder -> Folder) dirs name t :
  in_place F ->
  idOf_path (dirs ++ [name]) (F t) =
    match subfolder dirs t with
    | Some f => (fun i => firstID (F f) + i) <$> list_index name (files (F f))
    | None => None
    end.
Proof.
  intros HF. rewrite idOf_path_app, (subfolder_in_place F HF).
  destruct (subfolder dirs t); reflexivity.
Qed.

End ResolutionFacts.

(** ** [add_file] and [remove_file] on a ROM whose [_opened_files] is empty *)

Module StructureFacts.
Import Rom Handle HandleFacts TreeFacts IndexFacts BookkeepingFacts RomFacts
  ResolutionFacts.

Lemma folder_of_state folder_name w : (folder_of folder_name w).2 = w.
Proof.
  unfold folder_of, bind, gets.
  destruct (Fnt.getitem folder_name (filenames (rom w))) as [[i | f] | e |];
    reflexivity.
Qed.

Lemma add_file_exact file w :
  _opened_files (rom w) = [] ->
  add_file file w =
    match (folder_of (os_path_split file).1 w).1 with
    | Ok fa => (Ok (Fnt.firstID fa + length (Fnt.files fa)),
                after_add fa (os_path_split file).2 w)
    | Raise e => (Raise e, w)
    | Loops => (Loops, w)
    end.
Proof.
  intros Hreg. unfold add_file.
  destruct (os_path_split file) as [folder_name filename]. cbn [fst snd].
  unfold bind at 1. pose proof (folder_of_state folder_name w) as Hst.
  destruct (folder_of folder_name w) as [[fa | e |] w1]; cbn [fst snd] in *;
    subst w1; try reflexivity.
  unfold bind at 1. unfold modify at 1.
  unfold bind at 1. unfold modify at 1.
  unfold bind at 1. unfold modify at 1.
  fold (after_add fa filename w).
  unfold bind at 1. unfold gets at 1.
  change (_opened_files (rom (after_add fa filename w))) with (_opened_files (rom w)).
  rewrite Hreg. reflexivity.
Qed.

Lemma remove_file_exact file w :
  _opened_files (rom w) = [] ->
  remove_file file w =
    match (folder_of (os_path_split file).1 w).1 with
    | Ok fa =>
        match Fnt.idOf file (filenames (rom w)) with
        | Ok found =>
            match list_index (os_path_split file).2 (Fnt.files fa) with
            | None => (Raise ValueError, w)
            | Some _ =>
                let w1 := set_filenames
                  (Fnt.remove_name (Fnt.oid fa) (os_path_split file).2) w in
                match found with
                | None => (Raise TypeError, w1)
                | Some fileid =>
                    if decide (fileid < length (files (rom w)))
                    then (Ok tt, after_remove fa (os_path_split file).2 fileid w)
                    else (Raise IndexError, w1)
                end
            end
        | Raise e => (Raise e, w)
        | Loops => (Loops, w)
        end
    | Raise e => (Raise e, w)
    | Loops => (Loops, w)
    end.
Proof.
  intros Hreg. unfold remove_file.
  destruct (os_path_split file) as [folder_name filename]. cbn [fst snd].
  unfold bind at 1. pose proof (folder_of_state folder_name w) as Hst.
  destruct (folder_of folder_name w) as [[fa | e |] w1]; cbn [fst snd] in *;
    subst w1; try reflexivity.
  unfold bind at 1. unfold gets at 1. unfold bind at 1. unfold lift at 1.
  destruct (Fnt.idOf file (filenames (rom w))) as [found | e |]; try reflexivity.
  unfold Fnt.list_remove.
  destruct (list_index filename (Fnt.files fa)) as [idx |]; [| reflexivity].
  cbn [fmap option_fmap option_map]. unfold bind at 1. unfold modify at 1.
  destruct found as [fileid |]; [| reflexivity].
  unfold bind at 1. unfold gets at 1. cbn [set_filenames rom files].
  unfold bind at 1.
  destruct (decide (fileid < length (files (rom w)))); [| reflexivity].
  unfold modify at 1.
  unfold bind at 1. unfold modify at 1.
  fold (after_remove fa filename fileid w).
  unfold bind at 1. unfold gets at 1.
  change (_opened_files (rom (after_remove fa filename fileid w)))
    with (_opened_files (rom w)).
  rewrite Hreg. reflexivity.
Qed.

(** What a path stands for, by its pieces. *)
Lemma content_rom_pieces p l w :
  Fnt.path_list p = Some l ->
  Content.rom p w =
    Fnt.idOf_path l (filenames (rom w)) ≫= (fun i => files (rom w) !! i).
Proof.
  intros H. unfold Content.rom. rewrite (LookupFacts.idOf_pieces _ _ _ H).
  destruct (Fnt.idOf_path l (filenames (rom w))); reflexivity.
Qed.

(** What [self.filenames[folder_name]] can raise. *)
Lemma folder_of_raises folder_name w e :
  (folder_of folder_name w).1 = Raise e ->
  e = IndexError \/ e = KeyError \/ e = AttributeError.
Proof.
  unfold folder_of, bind, gets.
  destruct (LookupFacts.getitem_outcomes folder_name (filenames (rom w)))
    as [[[i | f] ->] | [-> | ->]]; cbn; try discriminate; intros [= <-]; auto.
Qed.

Lemma folder_of_not_Loops folder_name w : (folder_of folder_name w).1 <> Loops.
Proof.
  unfold folder_of, bind, gets.
  destruct (LookupFacts.getitem_outcomes folder_name (filenames (rom w)))
    as [[[i | f] ->] | [-> | ->]]; cbn; discriminate.
Qed.

(** [l.insert(i, x)] moves the entries from [i] on up by one. *)
Lemma lookup_list_insert_at_lt {A} (l : list A) i j x :
  j < i -> i <= length l -> list_insert_at i x l !! j = l !! j.
Proof.
  intros Hj Hi. unfold list_insert_at.
  rewrite lookup_app_l by (rewrite length_take; lia).
  apply lookup_take_lt. exact Hj.
Qed.

Lemma lookup_list_insert_at_ge {A} (l : list A) i j x :
  i <= j -> i <= length l -> list_insert_at i x l !! S j = l !! j.
Proof.
  intros Hj Hi. unfold list_insert_at.
  rewrite lookup_app_r by (rewrite length_take; lia).
  rewrite length_take, Nat.min_l by lia.
  replace (S j - i) with (S (j - i)) by lia. cbn [lookup list_lookup].
  change (drop i l !! (j - i) = l !! j).
  rewrite lookup_drop. f_equal. lia.
Qed.

Lemma lookup_list_insert_at_eq {A} (l : list A) i x :
  i <= length l -> list_insert_at i x l !! i = Some x.
Proof.
  intros Hi. unfold list_insert_at.
  apply list_lookup_middle. rewrite length_take. lia.
Qed.

Lemma added_files target new_id name f :
  Fnt.files (Fnt.added target new_id name f) =
    if decide (Fnt.oid f = target) then Fnt.files f ++ [name] else Fnt.files f.
Proof. destruct f. reflexivity. Qed.

Lemma removed_files target removed_id name f :
  Fnt.files (Fnt.removed target removed_id name f) =
    if decide (Fnt.oid f = target)
    then default (Fnt.files f) (Fnt.list_remove name (Fnt.files f))
    else Fnt.files f.
Proof. destruct f. reflexivity. Qed.

(** The slot of a file of any folder after [add_file] into [fa]. *)
Lemma add_keeps_slot {A} ns (fs : list A) fa f name i x :
  Fnt.wf_nodes (length fs) ns -> fa ∈ ns -> f ∈ ns ->
  i < length (Fnt.files f) ->
  let new_id := Fnt.firstID fa + length (Fnt.files fa) in
  list_insert_at new_id x fs
    !! (Fnt.firstID (Fnt.added (Fnt.oid fa) new_id name f) + i)
  = fs !! (Fnt.firstID f + i).
Proof.
  intros Hwf Hfa Hf Hi new_id.
  pose proof Hwf as (_ & Hbound & _).
  pose proof (Hbound fa Hfa) as Hba.
  rewrite added_firstID.
  destruct (relative_to _ _ _ _ Hwf Hfa Hf) as [[Ho ->] | [Ho Hap]].
  - rewrite decide_False by (intros [_ H]; apply H; reflexivity).
    apply lookup_list_insert_at_lt; unfold new_id; lia.
  - unfold Fnt.apart in Hap.
    destruct (decide (new_id <= Fnt.firstID f /\ Fnt.oid f <> Fnt.oid fa))
      as [[Hle _] | Hn].
    + replace (Fnt.firstID f + 1 + i) with (S (Fnt.firstID f + i)) by lia.
      apply lookup_list_insert_at_ge; unfold new_id in *; lia.
    + apply lookup_list_insert_at_lt; [| unfold new_id; lia].
      assert (~ new_id <= Fnt.firstID f) by tauto.
      unfold new_id in *. lia.
Qed.

(** The slot and the position of a file of any folder after [remove_file]
    of another file, the one at position [idx] of [fa]. *)
Lemma remove_keeps_slot {A} ns (fs : list A) fa f name idx nm i :
  Fnt.wf_nodes (length fs) ns -> fa ∈ ns -> f ∈ ns ->
  list_index name (Fnt.files fa) = Some idx ->
  list_index nm (Fnt.files f) = Some i ->
  Fnt.firstID f + i <> Fnt.firstID fa + idx ->
  let rid := Fnt.firstID fa + idx in
  let f' := Fnt.removed (Fnt.oid fa) rid name f in
  exists i',
    list_index nm (Fnt.files f') = Some i' /\
    delete rid fs !! (Fnt.firstID f' + i') = fs !! (Fnt.firstID f + i).
Proof.
  intros Hwf Hfa Hf Hidx Hnm Hne rid f'.
  pose proof (list_index_lt _ _ _ Hidx) as Hlt.
  pose proof (list_index_lt _ _ _ Hnm) as Hlt'.
  unfold f'. rewrite removed_files, removed_firstID.
  destruct (relative_to _ _ _ _ Hwf Hfa Hf) as [[Ho ->] | [Ho Hap]].
  - rewrite decide_True by reflexivity.
    rewrite decide_False by (unfold rid; lia).
    unfold Fnt.list_remove. rewrite Hidx. cbn [fmap option_fmap option_map default].
    assert (Hnn : nm <> name).
    { intros ->. rewrite Hidx in Hnm. injection Hnm as ->. lia. }
    pose proof (list_index_Some _ _ _ Hidx) as [Hat _].
    rewrite (list_index_delete nm name _ idx Hat Hnn), Hnm.
    cbn [fmap option_fmap option_map]. eexists. split; [reflexivity |].
    destruct (decide (i < idx)).
    + apply list_lookup_delete_lt. unfold rid. lia.
    + rewrite list_lookup_delete_ge by (unfold rid; lia).
      f_equal. lia.
  - rewrite decide_False by exact Ho. exists i. split; [exact Hnm |].
    unfold Fnt.apart in Hap.
    destruct (decide (rid < Fnt.firstID f)).
    + rewrite list_lookup_delete_ge by (unfold rid in *; lia).
      f_equal. lia.
    + apply list_lookup_delete_lt. unfold rid in *. lia.
Qed.

(** After [add_file] into [fa], with any content [x] in the new slot,
    pieces that stood for a file stand for the same content. *)
Lemma add_content tree (fs : list (list byte)) fa name x l :
  Fnt.wf_ids (length fs) tree -> fa ∈ Fnt.nodes tree ->
  Fnt.idOf_path l tree <> None ->
  Fnt.idOf_path l
      (Fnt.added (Fnt.oid fa) (Fnt.firstID fa + length (Fnt.files fa)) name tree)
    ≫= (fun i => list_insert_at (Fnt.firstID fa + length (Fnt.files fa)) x fs !! i)
  = Fnt.idOf_path l tree ≫= (fun i => fs !! i).
Proof.
  intros Hwf Hfa Hp. apply wf_ids_nodes in Hwf.
  destruct (Fnt.idOf_path l tree) as [fid |] eqn:Ep; [| congruence].
  apply idOf_path_Some in Ep as (dirs & nm & f & i & Hpath & Hsub & Hnm & ->).
  rewrite Hpath, (idOf_path_in_place _ _ _ _ (added_in_place _ _ _)), Hsub.
  pose proof (subfolder_in_nodes _ _ _ Hsub) as Hf.
  set (k := Fnt.firstID fa + length (Fnt.files fa)).
  assert (Hnm' : list_index nm (Fnt.files (Fnt.added (Fnt.oid fa) k name f)) = Some i).
  { rewrite added_files. destruct (decide _); [| exact Hnm].
    rewrite list_index_app_l; [exact Hnm |].
    apply list_index_Some in Hnm as [Hnm _]. eapply list_elem_of_lookup_2, Hnm. }
  rewrite Hnm'. cbn [fmap option_fmap option_map mbind option_bind].
  apply (add_keeps_slot _ _ _ _ _ _ _ Hwf Hfa Hf).
  eapply list_index_lt, Hnm.
Qed.

(** After [add_file] into [fa], a name that [fa] did not list stands for
    the new slot. *)
Lemma add_resolves tree dirs fa name :
  Fnt.subfolder dirs tree = Some fa -> name ∉ Fnt.files fa ->
  Fnt.idOf_path (dirs ++ [name])
    (Fnt.added (Fnt.oid fa) (Fnt.firstID fa + length (Fnt.files fa)) name tree)
  = Some (Fnt.firstID fa + length (Fnt.files fa)).
Proof.
  intros Efa Et.
  rewrite (idOf_path_in_place _ _ _ _ (added_in_place _ _ _)), Efa.
  rewrite added_files, decide_True by reflexivity.
  rewrite (list_index_app_r _ _ _ Et). cbn [list_index].
  rewrite decide_True by reflexivity. cbn [fmap option_fmap option_map].
  rewrite added_firstID.
  rewrite decide_False by (intros [_ H]; apply H; reflexivity).
  f_equal. lia.
Qed.

(** After [remove_file] of the file at position [idx] of [fa], pieces
    that stood for another file stand for the same content. *)
Lemma remove_content tree (fs : list (list byte)) fa name idx l :
  Fnt.wf_ids (length fs) tree -> fa ∈ Fnt.nodes tree ->
  list_index name (Fnt.files fa) = Some idx ->
  Fnt.idOf_path l tree <> None ->
  Fnt.idOf_path l tree <> Some (Fnt.firstID fa + idx) ->
  Fnt.idOf_path l (Fnt.removed (Fnt.oid fa) (Fnt.firstID fa + idx) name tree)
    ≫= (fun i => delete (Fnt.firstID fa + idx) fs !! i)
  = Fnt.idOf_path l tree ≫= (fun i => fs !! i).
Proof.
  intros Hwf Hfa Hidx Hp Hne. apply wf_ids_nodes in Hwf.
  destruct (Fnt.idOf_path l tree) as [fid |] eqn:Ep; [| congruence].
  apply idOf_path_Some in Ep as (dirs & nm & f & i & Hp' & Hsub & Hnm & ->).
  rewrite Hp', (idOf_path_in_place _ _ _ _ (removed_in_place _ _ _)), Hsub.
  pose proof (subfolder_in_nodes _ _ _ Hsub) as Hf.
  assert (Hne' : Fnt.firstID f + i <> Fnt.firstID fa + idx) by congruence.
  destruct (remove_keeps_slot _ _ _ _ _ _ _ _ Hwf Hfa Hf Hidx Hnm Hne')
    as (i' & Hi' & Hslot).
  rewrite Hi'. cbn [fmap option_fmap option_map mbind option_bind].
  exact Hslot.
Qed.

(** Taking a name away makes no pieces stand for a file that stood for
    none. *)
Lemma remove_unresolved tree target rid name l :
  Fnt.idOf_path l tree = None ->
  Fnt.idOf_path l (Fnt.removed target rid name tree) = None.
Proof.
  intros Hp.
  destruct (decide (l = [])) as [-> | Hne]; [reflexivity |].
  destruct (exists_last Hne) as (dirs & nm & Hpath). rewrite Hpath in *.
  rewrite (idOf_path_in_place _ _ _ _ (removed_in_place _ _ _)).
  rewrite idOf_path_app in Hp.
  destruct (Fnt.subfolder dirs tree) as [f |]; [| reflexivity].
  destruct (list_index nm (Fnt.files f)) eqn:En; [discriminate |].
  apply list_index_None in En.
  assert (Hout : nm ∉ Fnt.files (Fnt.removed target rid name f)).
  { rewrite removed_files. destruct (decide _); [| exact En].
    unfold Fnt.list_remove. destruct (list_index name (Fnt.files f)) as [j |];
      [| exact En].
    cbn. intros Hin. apply En.
    eapply elem_of_sublist; [exact Hin | apply sublist_delete]. }
  apply list_index_None in Hout. rewrite Hout. reflexivity.
Qed.

(** After [remove_file] of the entry at position [idx] of [fa], its name
    stands for no file in [fa], unless [fa] lists it a second time. *)
Lemma remove_gone tree dirs fa name idx rid :
  Fnt.subfolder dirs tree = Some fa ->
  list_index name (Fnt.files fa) = Some idx ->
  name ∉ delete idx (Fnt.files fa) ->
  Fnt.idOf_path (dirs ++ [name]) (Fnt.removed (Fnt.oid fa) rid name tree) = None.
Proof.
  intros Efa Hidx Hgone.
  rewrite (idOf_path_in_place _ _ _ _ (removed_in_place _ _ _)), Efa.
  rewrite removed_files, decide_True by reflexivity.
  unfold Fnt.list_remove. rewrite Hidx.
  cbn [fmap option_fmap option_map default from_option]. unfold Datatypes.id.
  apply list_index_None in Hgone. rewrite Hgone. reflexivity.
Qed.

End StructureFacts.

Module StructureProperties.
Import Rom Handle HandleFacts TreeFacts PathFacts IndexFacts BookkeepingFacts
  LookupFacts RomFacts ResolutionFacts StructureFacts.

(** What [add_file] and [remove_file] agree on, for a ROM whose
    [_opened_files] is empty: the folder of the path, by the path
    resolution of [self.filenames[folder_name]]. *)
Lemma folder_of_Ok folder_name w fa :
  (folder_of folder_name w).1 = Ok fa ->
  exists hl,
    Fnt.path_list folder_name = Some hl /\
    Fnt.subfolder hl (filenames (rom w)) = Some fa /\
    Fnt.idOf_path hl (filenames (rom w)) = None.
Proof.
  intros H. destruct (folder_of folder_name w) as [r w1] eqn:E.
  cbn [fst] in H. subst r. apply folder_of_spec in E as (_ & H). exact H.
Qed.

(** X15. [add_file] on a well-formed ROM whose [_opened_files] is empty: the
    new slot, at the returned ID, is empty; every path that stood for a
    file stands for the same content afterwards; and a plain path that
    stood for no file stands for the new slot. *)
Theorem add_file_keeps_content (file : string) (w w' : World) (k : nat)
    (Hwf : wf w) (Hreg : _opened_files (rom w) = [])
    (Hadd : add_file file w = (Ok k, w')) :
  wf w' /\ _opened_files (rom w') = [] /\
  files (rom w') !! k = Some [] /\
  (forall p fid, Fnt.idOf p (filenames (rom w)) = Ok (Some fid) ->
                 Content.rom p w' = Content.rom p w) /\
  (plain file ->
   Fnt.idOf file (filenames (rom w)) = Ok None ->
   Fnt.idOf file (filenames (rom w')) = Ok (Some k)).
Proof.
  split; [eapply add_file_wf; eauto |].
  rewrite (add_file_exact file w Hreg) in Hadd.
  destruct (folder_of (os_path_split file).1 w).1 as [fa | e |] eqn:Efa;
    try discriminate.
  injection Hadd as <- <-.
  apply folder_of_Ok in Efa as (hl & Hhl & Efa & _).
  pose proof (subfolder_in_nodes _ _ _ Efa) as Hfa.
  apply wf_ids_nodes in Hwf. pose proof Hwf as (_ & Hbound & _).
  pose proof (Hbound fa Hfa) as Hba.
  set (k := Fnt.firstID fa + length (Fnt.files fa)) in *.
  set (tail := (os_path_split file).2) in *.
  assert (Htree : filenames (rom (after_add fa tail w)) =
                  Fnt.added (Fnt.oid fa) k tail (filenames (rom w))) by reflexivity.
  assert (Hfiles : files (rom (after_add fa tail w)) =
                   list_insert_at k [] (files (rom w))) by reflexivity.
  split; [exact Hreg |]. split; [| split].
  - rewrite Hfiles. apply lookup_list_insert_at_eq. exact Hba.
  - intros p fid Hp. apply idOf_Ok in Hp as (l & Hl & Hp).
    rewrite !(content_rom_pieces p l) by exact Hl. rewrite Htree, Hfiles.
    apply add_content; [apply wf_ids_nodes, Hwf | exact Hfa | congruence].
  - intros Hplain Hnone. rewrite Htree.
    destruct (os_path_split_plain file Hplain) as (_ & [Hno | (hl' & Hhl' & Hl)]);
      [congruence |].
    assert (hl' = hl) as -> by congruence. fold tail in Hl.
    rewrite (idOf_pieces _ _ _ Hl) in Hnone. rewrite (idOf_pieces _ _ _ Hl).
    f_equal.
    apply add_resolves; [exact Efa |].
    injection Hnone as Hnone. rewrite idOf_path_app, Efa in Hnone.
    destruct (list_index tail (Fnt.files fa)) eqn:Et; [discriminate |].
    apply list_index_None in Et. exact Et.
Qed.

Lemma add_file_keeps_content_witness :
  exists w',
    add_file "data/d" three_files_world = (Ok 3, w') /\
    Content.rom "a" w' = Some [x0a] /\
    Content.rom "data/c" w' = Some [x0c] /\
    Fnt.idOf "data/d" (filenames (rom w')) = Ok (Some 3).
Proof.
  exists (add_file "data/d" three_files_world).2.
  assert (Hadd : add_file "data/d" three_files_world =
                 (Ok 3, (add_file "data/d" three_files_world).2))
    by (vm_compute; reflexivity).
  assert (Hwf : wf three_files_world) by decide_by_evaluation.
  destruct (add_file_keeps_content "data/d" three_files_world _ 3 Hwf eq_refl Hadd)
    as (_ & _ & _ & Hkeep & Hnew).
  split; [exact Hadd |]. split; [| split].
  - rewrite (Hkeep "a"%string 0); reflexivity.
  - rewrite (Hkeep "data/c"%string 2); reflexivity.
  - apply Hnew; [decide_by_evaluation | reflexivity].
Defined.

(** X16. [remove_file] on a well-formed ROM whose [_opened_files] is empty,
    for a plain path or in a tree without a folder of the empty name: one
    slot goes, and every path that stood for another file stands for the
    same content afterwards.  The name was listed by the folder that the
    folder part of the path stands for, and when that folder does not list
    it a second time, the path stands for no file any more. *)
Theorem remove_file_keeps_content (file : string) (w w' : World)
    (Hwf : wf w) (Hreg : _opened_files (rom w) = [])
    (Hpath : plain file \/ Fnt.no_empty_name (filenames (rom w)))
    (Hrm : remove_file file w = (Ok tt, w')) :
  wf w' /\ _opened_files (rom w') = [] /\
  S (length (files (rom w'))) = length (files (rom w)) /\
  (forall p fid,
     Fnt.idOf p (filenames (rom w)) = Ok (Some fid) ->
     Fnt.idOf file (filenames (rom w)) <> Ok (Some fid) ->
     Content.rom p w' = Content.rom p w) /\
  exists fa idx,
    Fnt.getitem (os_path_split file).1 (filenames (rom w)) = Ok (inr fa) /\
    list_index (os_path_split file).2 (Fnt.files fa) = Some idx /\
    Fnt.idOf file (filenames (rom w)) = Ok (Some (Fnt.firstID fa + idx)) /\
    ((os_path_split file).2 ∉ delete idx (Fnt.files fa) ->
     Fnt.idOf file (filenames (rom w')) = Ok None).
Proof.
  split; [eapply remove_file_wf; eauto |].
  pose proof (remove_file_listed _ _ _ Hpath Hrm)
    as (hl & fa & idx & Hhl & Efa & Hnofile & Hidx & Hid & Hlt & _).
  pose proof (listed_file_pieces _ _ _ _ _ Hpath Hhl Efa Hnofile Hid) as Hl.
  rewrite (remove_file_exact file w Hreg) in Hrm.
  set (head := (os_path_split file).1) in *.
  set (tail := (os_path_split file).2) in *.
  destruct (folder_of head w).1 as [fa0 | e |] eqn:Efa0; try discriminate.
  apply folder_of_Ok in Efa0 as (hl0 & Hhl0 & Efa0 & _).
  assert (hl0 = hl) as -> by congruence.
  assert (fa0 = fa) as -> by congruence.
  rewrite Hid, Hidx in Hrm. cbv zeta in Hrm.
  rewrite decide_True in Hrm by exact Hlt.
  injection Hrm as <-.
  pose proof (subfolder_in_nodes _ _ _ Efa) as Hfa.
  apply wf_ids_nodes in Hwf.
  set (rid := Fnt.firstID fa + idx) in *.
  assert (Htree : filenames (rom (after_remove fa tail rid w)) =
                  Fnt.removed (Fnt.oid fa) rid tail (filenames (rom w))) by reflexivity.
  assert (Hfiles : files (rom (after_remove fa tail rid w)) =
                   delete rid (files (rom w))) by reflexivity.
  split; [exact Hreg |]. split; [| split].
  - rewrite Hfiles, length_delete by (apply lookup_lt_is_Some_2; exact Hlt). lia.
  - intros p fid Hp Hne. apply idOf_Ok in Hp as (l & Hl' & Hp).
    rewrite !(content_rom_pieces p l) by exact Hl'. rewrite Htree, Hfiles.
    apply remove_content; [apply wf_ids_nodes, Hwf | exact Hfa | exact Hidx
                          | congruence |].
    intros H. apply Hne. rewrite Hp in H. injection H as ->. exact Hid.
  - exists fa, idx. split; [| split; [exact Hidx | split; [exact Hid |]]].
    + apply getitem_folder_pieces. eauto.
    + intros Hgone. rewrite Htree, (idOf_pieces _ _ _ Hl). f_equal.
      apply (remove_gone _ _ _ _ idx); assumption.
Qed.

Lemma remove_file_keeps_content_witness :
  exists w',
    remove_file "data/b" three_files_world = (Ok tt, w') /\
    Content.rom "a" w' = Some [x0a] /\
    Content.rom "data/c" w' = Some [x0c] /\
    Fnt.idOf "data/b" (filenames (rom w')) = Ok None.
Proof.
  exists (remove_file "data/b" three_files_world).2.
  assert (Hrm : remove_file "data/b" three_files_world =
                (Ok tt, (remove_file "data/b" three_files_world).2))
    by (vm_compute; reflexivity).
  assert (Hwf : wf three_files_world) by decide_by_evaluation.
  assert (Hplain : plain "data/b") by decide_by_evaluation.
  destruct (remove_file_keeps_content "data/b" three_files_world _ Hwf eq_refl
              (or_introl Hplain) Hrm)
    as (_ & _ & _ & Hkeep & fa & idx & Hfa & Hidx & _ & Hgone).
  split; [exact Hrm |]. split; [| split].
  - rewrite (Hkeep "a"%string 0); [reflexivity | reflexivity | discriminate].
  - rewrite (Hkeep "data/c"%string 2); [reflexivity | reflexivity | discriminate].
  - apply Hgone. vm_compute in Hfa. injection Hfa as <-.
    vm_compute in Hidx. injection Hidx as <-. decide_by_evaluation.
Defined.

(** X17. On a well-formed ROM whose [_opened_files] is empty, [add_file] and
    [remove_file] return or raise, and when [add_file] raises nothing has
    changed: the folder is looked up before the first write.  The same
    holds for [remove_file] of a plain path, which raises nothing but
    [IndexError], [KeyError], [AttributeError] and [ValueError]. *)
Theorem add_remove_raise_before_writing (file : string) (w : World)
    (Hwf : wf w) (Hreg : _opened_files (rom w) = []) :
  (add_file file w).1 <> Loops /\ (remove_file file w).1 <> Loops /\
  (forall e w', add_file file w = (Raise e, w') -> w' = w) /\
  (plain file ->
   forall e w', remove_file file w = (Raise e, w') ->
     w' = w /\
     (e = IndexError \/ e = KeyError \/ e = AttributeError \/ e = ValueError)).
Proof.
  rewrite (add_file_exact file w Hreg), (remove_file_exact file w Hreg).
  set (head := (os_path_split file).1) in *.
  set (tail := (os_path_split file).2) in *.
  pose proof (folder_of_raises head w) as Herr.
  pose proof (folder_of_not_Loops head w) as Hnoloop.
  pose proof (idOf_not_Loops file (filenames (rom w))) as Hnoloop'.
  destruct (folder_of head w).1 as [fa | e0 |] eqn:Efa; [| | congruence].
  - apply folder_of_Ok in Efa as (hl & Hhl & Efa & _).
    pose proof (subfolder_in_nodes _ _ _ Efa) as Hfa.
    apply wf_ids_nodes in Hwf. destruct Hwf as (_ & Hbound & _).
    specialize (Hbound fa Hfa).
    split; [discriminate |]. split; [| split; [discriminate |]].
    + destruct (Fnt.idOf file (filenames (rom w))) as [found | e |];
        [| discriminate | congruence].
      destruct (list_index tail (Fnt.files fa)); [| discriminate].
      cbv zeta. destruct found as [fid0 |]; [| discriminate].
      destruct (decide (fid0 < length (files (rom w)))); discriminate.
    + intros Hplain e w'.
      rewrite (idOf_plain file _ hl fa Hplain Hhl Efa). fold tail.
      destruct (list_index tail (Fnt.files fa)) as [idx |] eqn:Eidx.
      * pose proof (list_index_lt _ _ _ Eidx) as Hlt.
        cbn [fmap option_fmap option_map]. cbv zeta.
        rewrite decide_True by lia. discriminate.
      * intros [= <- <-]. auto.
  - split; [discriminate |]. split; [discriminate |]. split.
    + intros e w' [= _ <-]. reflexivity.
    + intros _ e w' [= <- <-]. split; [reflexivity |].
      destruct (Herr e0 eq_refl) as [H | [H | H]]; auto.
Qed.

Lemma add_remove_raise_before_writing_witness :
  (add_file "nowhere/x" three_files_world).1 = Raise KeyError /\
  (add_file "nowhere/x" three_files_world).2 = three_files_world /\
  (remove_file "data/x" three_files_world).1 = Raise ValueError /\
  (remove_file "data/x" three_files_world).2 = three_files_world /\
  (remove_file "a" three_files_world).1 = Raise IndexError /\
  (remove_file "a" three_files_world).2 = three_files_world.
Proof.
  assert (Hwf : wf three_files_world) by decide_by_evaluation.
  destruct (add_remove_raise_before_writing "nowhere/x" three_files_world
              Hwf eq_refl) as (_ & _ & Hadd & _).
  destruct (add_remove_raise_before_writing "data/x" three_files_world
              Hwf eq_refl) as (_ & _ & _ & Hrm).
  destruct (add_remove_raise_before_writing "a" three_files_world
              Hwf eq_refl) as (_ & _ & _ & Hrm').
  split; [vm_compute; reflexivity |].
  split; [apply (Hadd KeyError); vm_compute; reflexivity |].
  split; [vm_compute; reflexivity |].
  split.
  { apply (Hrm ltac:(decide_by_evaluation) ValueError). vm_compute. reflexivity. }
  split; [vm_compute; reflexivity |].
  apply (Hrm' ltac:(decide_by_evaluation) IndexError). vm_compute. reflexivity.
Defined.

End StructureProperties.

Module SlotZeroFacts.
Import Fnt TreeFacts.

(** [filenameOf] finds a name for an ID that lies in the range of some
    folder of the tree. *)
Lemma filenameOf_finds (fid : nat) t : forall prefix,
  (exists f, f ∈ nodes t /\ firstID f <= fid < firstID f + length (files f)) ->
  filenameOf prefix (Z.of_nat fid) t <> None.
Proof.
  induction t as [o first fs fds IH] using Folder_tree_ind.
  intros prefix (f & Hf & Hrange). cbn [filenameOf firstID files folders].
  destruct (decide (first <= fid < first + length fs)) as [Hin | Hout].
  - replace (Z.of_nat first <=? Z.of_nat fid)%Z with true
      by (symmetry; apply Z.leb_le; lia).
    replace (Z.of_nat fid <? Z.of_nat (first + length fs))%Z with true
      by (symmetry; apply Z.ltb_lt; lia).
    cbn [andb]. rewrite Nat2Z.id.
    destruct (lookup_lt_is_Some_2 fs (fid - first) ltac:(lia)) as [n Hn].
    rewrite Hn. discriminate.
  - cbn [nodes folders] in Hf. apply elem_of_cons in Hf as [-> | Hf];
      [cbn [firstID files] in Hrange; lia |].
    match goal with
    | |- match ?h with Some r => Some r | None => _ end <> None =>
        destruct h; [discriminate |]
    end.
    clear Hout. induction IH as [| [n c] fds Hc _ IHfds];
      [cbn in Hf; inversion Hf |].
    cbn [flat_map snd] in Hf. apply elem_of_app in Hf as [Hf | Hf].
    + specialize (Hc (prefix +:+ n +:+ "/") (ex_intro _ f (conj Hf Hrange))).
      cbn [snd] in Hc.
      destruct (filenameOf (prefix +:+ n +:+ "/") (Z.of_nat fid) c);
        [discriminate | contradiction].
    + destruct (filenameOf (prefix +:+ n +:+ "/") (Z.of_nat fid) c);
        [discriminate | apply IHfds, Hf].
Qed.

End SlotZeroFacts.

Module SlotZeroProperties.
Import Rom Handle HandleFacts TreeFacts ResolutionFacts SlotZeroFacts.

(** X18. The file in slot 0.  [open] with its path and without the [+] raises
    the not-found error and changes nothing, because [not fileid] holds for
    the ID 0; [open] with the integer 0 returns a handle on it. *)
Theorem slot_0_opens_by_id_only (path : string) (mode : string)
    (op : operation) (b : bool) (w : World)
    (Hid : Fnt.idOf path (filenames (rom w)) = Ok (Some 0))
    (Hslot : files (rom w) <> [])
    (Hmode : parse_mode mode = Some (op, b, false)) :
  open (By_path path) mode w = (Raise FileNotFoundError, w) /\
  exists w1,
    open (By_id 0) mode w = (Ok (wrap (negb b) (length (handles w))), w1) /\
    handles w1 !! length (handles w)
      = Some (new_handle OwnerRom 0 op (files (rom w))).
Proof.
  split.
  - unfold open. rewrite Hmode. unfold bind, gets, lift. rewrite Hid. reflexivity.
  - assert (Hname : Fnt.filenameOf "" 0 (filenames (rom w)) <> None).
    { apply LookupFacts.idOf_Ok in Hid as (l & _ & Hid).
      apply idOf_path_Some in Hid as (dirs & nm & f & i & _ & Hsub & Hnm & H0).
      apply (filenameOf_finds 0). exists f. split.
      - eapply subfolder_in_nodes, Hsub.
      - apply list_index_lt in Hnm. lia. }
    assert (Hlen : 0 < length (files (rom w)))
      by (destruct (files (rom w)); [congruence | cbn; lia]).
    exists (with_new_handle OwnerRom 0 op (files (rom w)) w). split.
    + unfold open. rewrite Hmode. unfold bind at 1. unfold bind at 1.
      unfold gets at 1.
      destruct (Fnt.filenameOf "" 0 (filenames (rom w))); [| congruence].
      unfold ret at 1. unfold bind.
      pose proof (RomFile_init_ok OwnerRom 0 op w (files (rom w)) eq_refl Hlen)
        as Hinit.
      change (Z.of_nat 0) with 0%Z in Hinit. rewrite Hinit. reflexivity.
    + unfold with_new_handle. cbn [set_handles set_opened_files handles].
      apply list_lookup_middle. reflexivity.
Qed.

Lemma slot_0_opens_by_id_only_witness :
  open (By_path "a") "rb" three_files_world
    = (Raise FileNotFoundError, three_files_world) /\
  exists w1,
    open (By_id 0) "rb" three_files_world = (Ok (Binary_file 0), w1) /\
    value <$> handles w1 !! 0 = Some [x0a].
Proof.
  destruct (slot_0_opens_by_id_only "a" "rb" op_r true three_files_world
              eq_refl ltac:(discriminate) eq_refl) as [Hpath (w1 & Hopen & Hh)].
  split; [exact Hpath |]. exists w1. split; [exact Hopen |].
  cbn in Hh. rewrite Hh. reflexivity.
Defined.

End SlotZeroProperties.

(** ** [NintendoDSRom.rename_file] *)

Module RenameFacts.
Import Fnt Tree TreeFacts BookkeepingFacts.

Lemma set_file_name_in_place target index new :
  in_place (set_file_name target index new).
Proof. intros [o fid fs fds]. reflexivity. Qed.

Lemma set_file_name_files target index new f :
  files (set_file_name target index new f) =
    if decide (oid f = target) then <[index := new]> (files f) else files f.
Proof. destruct f. reflexivity. Qed.

Lemma set_file_name_firstID target index new f :
  firstID (set_file_name target index new f) = firstID f.
Proof. destruct f. reflexivity. Qed.

Lemma set_file_name_oid target index new f :
  oid (set_file_name target index new f) = oid f.
Proof. destruct f. reflexivity. Qed.

(** Well-formed bookkeeping looks at the identity, the first ID and the
    number of files of each folder only. *)
Lemma wf_nodes_fmap (F : Folder -> Folder) n ns :
  (forall f, oid (F f) = oid f) -> (forall f, firstID (F f) = firstID f) ->
  (forall f, length (files (F f)) = length (files f)) ->
  wf_nodes n ns -> wf_nodes n (F <$> ns).
Proof.
  intros Ho Hf Hl (Hnd & Hbound & Hpairs). split; [| split].
  - rewrite <- list_fmap_compose.
    replace (oid ∘ F <$> ns) with (oid <$> ns); [exact Hnd |].
    apply list_fmap_ext. intros i x _. cbn. symmetry. apply Ho.
  - intros f' Hin. apply list_elem_of_fmap in Hin as (f & -> & Hin).
    rewrite Hf, Hl. auto.
  - intros f' g' Hin Hin'.
    apply list_elem_of_fmap in Hin as (f & -> & Hin).
    apply list_elem_of_fmap in Hin' as (g & -> & Hin').
    unfold apart. rewrite !Ho, !Hf, !Hl. apply Hpairs; assumption.
Qed.

End RenameFacts.

Module RenameProperties.
Import Rom NintendoDSRom TreeFacts IndexFacts BookkeepingFacts RomFacts
  ResolutionFacts StructureFacts RenameFacts.

(** X19. [NintendoDSRom.rename_file] on a well-formed ROM, when it returns: the
    slots and the bookkeeping are as before, and when the folder did not
    list the new name, the new name stands for the slot of the renamed
    file and every path that stood for another slot still does. *)
Theorem rename_file_keeps_slots (path new_filename : string) (w w' : World)
    (Hwf : wf w) (Hrn : rename_file path new_filename w = (Ok tt, w')) :
  wf w' /\ files (rom w') = files (rom w) /\
  exists hl fa idx,
    Fnt.path_list (os_path_split path).1 = Some hl /\
    Fnt.subfolder hl (filenames (rom w)) = Some fa /\
    list_index (os_path_split path).2 (Fnt.files fa) = Some idx /\
    (new_filename ∉ Fnt.files fa ->
     Fnt.idOf_path (hl ++ [new_filename])
                   (filenames (rom w')) = Some (Fnt.firstID fa + idx) /\
     forall p fid,
       Fnt.idOf p (filenames (rom w)) = Ok (Some fid) ->
       fid <> Fnt.firstID fa + idx ->
       Fnt.idOf p (filenames (rom w')) = Ok (Some fid)).
Proof.
  unfold rename_file in Hrn.
  destruct (os_path_split path) as [head tail]. cbn [fst snd].
  unfold bind at 1 in Hrn.
  destruct (folder_of head w) as [[fa | e |] w1] eqn:Efa; try discriminate.
  apply folder_of_spec in Efa as (-> & hl & Hhl & Efa & _).
  destruct (list_index tail (Fnt.files fa)) as [idx |] eqn:Eidx; [| discriminate].
  unfold modify in Hrn. injection Hrn as <-.
  set (F := Tree.set_file_name (Fnt.oid fa) idx new_filename).
  assert (Htree : filenames (rom (set_filenames F w)) = F (filenames (rom w)))
    by reflexivity.
  pose proof (subfolder_in_nodes _ _ _ Efa) as Hfa.
  pose proof (list_index_lt _ _ _ Eidx) as Hlt.
  pose proof (list_index_Some _ _ _ Eidx) as [Hat _].
  apply wf_ids_nodes in Hwf.
  split; [| split; [reflexivity |]].
  - apply wf_ids_nodes.
    change (Fnt.wf_nodes (length (files (rom w))) (Fnt.nodes (F (filenames (rom w))))).
    unfold F. rewrite (nodes_in_place _ (set_file_name_in_place _ _ _)).
    apply wf_nodes_fmap; try exact Hwf.
    + apply set_file_name_oid.
    + apply set_file_name_firstID.
    + intros f. rewrite set_file_name_files.
      destruct (decide _); [apply length_insert | reflexivity].
  - exists hl, fa, idx. split; [exact Hhl |]. split; [exact Efa |].
    split; [exact Eidx |].
    intros Hnew. rewrite Htree. unfold F. split.
    + rewrite (idOf_path_in_place _ _ _ _ (set_file_name_in_place _ _ _)), Efa.
      rewrite set_file_name_files, decide_True by reflexivity.
      rewrite (list_index_insert_new _ _ _ Hlt Hnew).
      rewrite set_file_name_firstID. reflexivity.
    + intros p fid Hp Hne. apply LookupFacts.idOf_Ok in Hp as (l & Hl & Hp).
      rewrite (LookupFacts.idOf_pieces _ _ _ Hl). f_equal.
      apply idOf_path_Some in Hp as (dirs & nm & f & i & Hpath & Hsub & Hnm & ->).
      rewrite Hpath, (idOf_path_in_place _ _ _ _ (set_file_name_in_place _ _ _)), Hsub.
      rewrite set_file_name_files, set_file_name_firstID.
      pose proof (subfolder_in_nodes _ _ _ Hsub) as Hf.
      destruct (decide (Fnt.oid f = Fnt.oid fa)) as [Ho | Ho]; [| rewrite Hnm; reflexivity].
      destruct Hwf as (Hnd & _).
      pose proof (same_oid_same_node _ _ _ Hnd Hf Hfa Ho) as ->.
      pose proof (list_index_Some _ _ _ Hnm) as [Hat' _].
      rewrite (list_index_insert_other nm tail new_filename _ idx Hat); [rewrite Hnm; reflexivity | |].
      * intros ->. rewrite Eidx in Hnm. injection Hnm as ->. lia.
      * intros ->. apply Hnew. eapply list_elem_of_lookup_2, Hat'.
Qed.

Lemma rename_file_keeps_slots_witness :
  exists w',
    rename_file "data/b" "z" three_files_world = (Ok tt, w') /\
    wf w' /\
    Fnt.idOf "data/z" (filenames (rom w')) = Ok (Some 1) /\
    Fnt.idOf "data/c" (filenames (rom w')) = Ok (Some 2).
Proof.
  exists (rename_file "data/b" "z" three_files_world).2.
  assert (Hrn : rename_file "data/b" "z" three_files_world =
                (Ok tt, (rename_file "data/b" "z" three_files_world).2))
    by (vm_compute; reflexivity).
  assert (Hwf : wf three_files_world) by decide_by_evaluation.
  destruct (rename_file_keeps_slots "data/b" "z" three_files_world _ Hwf Hrn)
    as (Hwf' & _ & _).
  split; [exact Hrn |]. split; [exact Hwf' |].
  split; vm_compute; reflexivity.
Defined.

End RenameProperties.

(** ** [NintendoDSRom.move_file] *)

Module MoveFacts.
Import Rom Handle HandleFacts NintendoDSRom TreeFacts IndexFacts
  BookkeepingFacts RomFacts ResolutionFacts StructureFacts.

(** [close] of a handle that is closed or read-only writes no slot. *)
Lemma RomFile_close_no_flush fp w h :
  handles w !! fp = Some h -> closed h = true \/ opp h = op_r ->
  exists w',
    RomFile_close fp w = (Ok tt, w') /\
    rom w' = rom w /\ archives w' = archives w /\
    handles w' = <[fp := MkRomFile (archive h) (id h) (opp h) true (value h)]> (handles w).
Proof.
  intros Hh Hno. eexists. split.
  - unfold RomFile_close. unfold bind at 1. unfold RomFile_flush.
    unfold bind at 1. unfold gets at 1. rewrite Hh.
    assert (Hflush : (if closed h then ret tt
                      else match opp h with
                           | op_r => ret tt
                           | _ =>
                               fs <- gets (owner_files (archive h));;
                               match fs with
                               | Some fs =>
                                   match py_index fs (id h) with
                                   | Some i =>
                                       modify (set_owner_files (archive h) (<[i := value h]> fs))
                                   | None => raise IndexError
                                   end
                               | None => raise AttributeError
                               end
                           end) w = (Ok tt, w)).
    { destruct Hno as [-> | ->]; [reflexivity |]. destruct (closed h); reflexivity. }
    rewrite Hflush. unfold bind, modify. reflexivity.
  - cbn [set_opened_files set_handles rom archives handles]. rewrite Hh. auto.
Qed.

(** [__exit__] of a handle that is read-only. *)
Lemma RomFile_exit_read_only fp w h :
  handles w !! fp = Some h -> opp h = op_r ->
  exists w',
    RomFile_exit fp w = (Ok tt, w') /\
    rom w' = rom w /\ archives w' = archives w /\
    length (handles w') = length (handles w).
Proof.
  intros Hh Hr.
  destruct (RomFile_close_no_flush fp w h Hh (or_intror Hr))
    as (w1 & Hc1 & Hrom1 & Harch1 & Hh1).
  assert (Hh1' : handles w1 !! fp =
                 Some (MkRomFile (archive h) (id h) (opp h) true (value h))).
  { rewrite Hh1. apply list_lookup_insert_eq. eapply lookup_lt_Some, Hh. }
  destruct (RomFile_close_no_flush fp w1 _ Hh1' (or_introl eq_refl))
    as (w2 & Hc2 & Hrom2 & Harch2 & Hh2).
  exists w2. split.
  - unfold RomFile_exit, bind. rewrite Hc1. exact Hc2.
  - rewrite Hrom2, Harch2, Hh2, Hh1, !length_insert. auto.
Qed.

(** [with] on a handle that is open runs the body and then [__exit__]. *)
Lemma with_file_open {A} fp (body : nat -> M World A) w h :
  handles w !! fp = Some h -> closed h = false ->
  with_file (Binary_file fp) body w =
    match body fp w with
    | (Ok a, w') => (RomFile_exit fp;; ret a) w'
    | (Raise e, w') => (RomFile_exit fp;; raise e) w'
    | (Loops, w') => (Loops, w')
    end.
Proof.
  intros Hh Hc. unfold with_file. cbn [handle_of].
  unfold bind at 1. unfold gets at 1. rewrite Hh. cbn. rewrite Hc.
  reflexivity.
Qed.

Lemma folder_of_rom folder_name w w2 :
  rom w2 = rom w -> (folder_of folder_name w2).1 = (folder_of folder_name w).1.
Proof.
  intros H. unfold folder_of, bind, gets. rewrite H.
  destruct (Fnt.getitem folder_name (filenames (rom w))) as [[i | f] | e |];
    reflexivity.
Qed.

(** Pieces that stood for another file than the removed one still stand
    for a file. *)
Lemma remove_still_resolves tree n fa name idx l :
  Fnt.wf_ids n tree -> fa ∈ Fnt.nodes tree ->
  list_index name (Fnt.files fa) = Some idx ->
  Fnt.idOf_path l tree <> None ->
  Fnt.idOf_path l tree <> Some (Fnt.firstID fa + idx) ->
  Fnt.idOf_path l (Fnt.removed (Fnt.oid fa) (Fnt.firstID fa + idx) name tree) <> None.
Proof.
  intros Hwf Hfa Hidx Hp Hne. apply wf_ids_nodes in Hwf.
  destruct (Fnt.idOf_path l tree) as [fid |] eqn:Ep; [| congruence].
  apply idOf_path_Some in Ep as (dirs & nm & f & i & Hp' & Hsub & Hnm & ->).
  rewrite Hp', (idOf_path_in_place _ _ _ _ (removed_in_place _ _ _)), Hsub.
  pose proof (subfolder_in_nodes _ _ _ Hsub) as Hf.
  assert (Hne' : Fnt.firstID f + i <> Fnt.firstID fa + idx) by congruence.
  destruct (remove_keeps_slot (A := unit) _ (replicate n tt) _ _ _ _ _ _
              ltac:(rewrite length_replicate; exact Hwf) Hfa Hf Hidx Hnm Hne')
    as (i' & Hi' & _).
  rewrite Hi'. discriminate.
Qed.

Lemma insert_list_insert_at {A} (l : list A) i x y :
  i <= length l -> <[i := y]> (list_insert_at i x l) = list_insert_at i y l.
Proof.
  intros Hi. unfold list_insert_at.
  rewrite insert_app_r_alt by (rewrite length_take; lia).
  rewrite length_take, Nat.min_l, Nat.sub_diag by lia. reflexivity.
Qed.

(** The folder and the name of a plain path that stands for a file, when
    the folder part of the path stands for a folder. *)
Lemma resolved_file file tree fid fa :
  plain file ->
  Fnt.idOf file tree = Ok (Some fid) ->
  Fnt.getitem (os_path_split file).1 tree = Ok (inr fa) ->
  exists hl idx,
    Fnt.path_list (os_path_split file).1 = Some hl /\
    Fnt.subfolder hl tree = Some fa /\
    Fnt.path_list file = Some (hl ++ [(os_path_split file).2]) /\
    list_index (os_path_split file).2 (Fnt.files fa) = Some idx /\
    fid = Fnt.firstID fa + idx.
Proof.
  intros Hplain Hid Hhead.
  apply LookupFacts.getitem_folder_pieces in Hhead as (hl & Hhl & _ & Hsub).
  destruct (PathFacts.os_path_split_plain file Hplain)
    as (_ & [Hno | (hl' & Hhl' & Hl)]); [congruence |].
  assert (hl' = hl) as -> by congruence.
  rewrite (LookupFacts.idOf_pieces _ _ _ Hl), idOf_path_app, Hsub in Hid.
  destruct (list_index (os_path_split file).2 (Fnt.files fa)) as [idx |] eqn:Eidx;
    [| discriminate].
  cbn in Hid. injection Hid as <-. exists hl, idx. auto.
Qed.

Lemma folder_of_resolved folder_name w fa :
  Fnt.getitem folder_name (filenames (rom w)) = Ok (inr fa) ->
  (folder_of folder_name w).1 = Ok fa.
Proof. intros H. unfold folder_of, bind, gets. rewrite H. reflexivity. Qed.

(** The first half of [move_file]: the content is read through a handle
    that is closed again, and the old file is removed. *)
Lemma move_file_after_removal (old_path new_path : string) (k : nat)
    (data : list byte) (fa : Fnt.Folder) (w : World) :
  wf w -> _opened_files (rom w) = [] ->
  plain old_path ->
  Fnt.idOf old_path (filenames (rom w)) = Ok (Some (S k)) ->
  files (rom w) !! S k = Some data ->
  Fnt.getitem (os_path_split old_path).1 (filenames (rom w)) = Ok (inr fa) ->
  exists idx w3,
    fa ∈ Fnt.nodes (filenames (rom w)) /\
    list_index (os_path_split old_path).2 (Fnt.files fa) = Some idx /\
    S k = Fnt.firstID fa + idx /\
    move_file old_path new_path w =
      (f <- open (By_path new_path) "wb+";;
       with_file f (fun fp => write_first fp data);; ret tt) w3 /\
    filenames (rom w3) =
      Fnt.removed (Fnt.oid fa) (S k) (os_path_split old_path).2 (filenames (rom w)) /\
    files (rom w3) = delete (S k) (files (rom w)) /\
    _opened_files (rom w3) = [] /\ wf w3.
Proof.
  intros Hwf Hreg Hplain Hold Hdata Hold_head.
  pose proof (lookup_lt_Some _ _ _ Hdata) as Hk.
  destruct (resolved_file _ _ _ _ Hplain Hold Hold_head)
    as (hl & idx & Hhl & Hfa & _ & Hidx & Hrid).
  set (head_o := (os_path_split old_path).1) in *.
  set (tail_o := (os_path_split old_path).2) in *.
  set (tree := filenames (rom w)) in *. set (fs := files (rom w)) in *.
  pose proof (subfolder_in_nodes _ _ _ Hfa) as Hfa_in.
  (* the first block: open, read, close *)
  set (fp := length (handles w)).
  set (w1 := with_new_handle OwnerRom (S k) op_r fs w).
  assert (Hopen1 : open (By_path old_path) "rb" w = (Ok (Binary_file fp), w1)).
  { unfold open. change (parse_mode "rb") with (Some (op_r, true, false)).
    unfold bind at 1. unfold bind at 1. unfold gets at 1.
    unfold bind at 1. unfold lift at 1. fold tree. rewrite Hold.
    rewrite bool_decide_eq_false_2 by (intros [|]; discriminate).
    cbn [andb]. unfold ret, bind.
    rewrite (RomFile_init_ok OwnerRom (S k) op_r w fs eq_refl Hk). reflexivity. }
  assert (Hh1 : handles w1 !! fp = Some (new_handle OwnerRom (S k) op_r fs)).
  { unfold w1, with_new_handle. cbn [set_handles set_opened_files handles].
    apply list_lookup_middle. reflexivity. }
  destruct (RomFile_exit_read_only fp w1 _ Hh1 eq_refl)
    as (w2 & Hexit1 & Hrom2 & Harch2 & Hlen2).
  change (rom w1) with (rom w) in Hrom2.
  assert (Hwith1 : with_file (Binary_file fp) read_first w1 = (Ok data, w2)).
  { rewrite (with_file_open fp _ w1 _ Hh1 eq_refl).
    unfold read_first, bind at 1. unfold gets at 1. rewrite Hh1.
    cbn [new_handle closed opp value]. unfold ret at 1.
    unfold bind. rewrite Hexit1. unfold ret.
    rewrite (list_lookup_total_correct _ _ _ Hdata). reflexivity. }
  (* the removal *)
  assert (Hreg2 : _opened_files (rom w2) = []) by (rewrite Hrom2; exact Hreg).
  assert (Hwf2 : wf w2) by (unfold wf; rewrite Hrom2; exact Hwf).
  set (G := Fnt.removed (Fnt.oid fa) (S k) tail_o).
  set (w3 := after_remove fa tail_o (S k) w2).
  assert (Hrm : remove_file old_path w2 = (Ok tt, w3)).
  { rewrite (remove_file_exact old_path w2 Hreg2). fold head_o tail_o.
    rewrite (folder_of_rom head_o w w2 Hrom2).
    rewrite (folder_of_resolved head_o w fa Hold_head).
    rewrite Hrom2. fold tree fs. rewrite Hold, Hidx. cbv zeta.
    rewrite decide_True by exact Hk. reflexivity. }
  assert (Htree3 : filenames (rom w3) = G tree)
    by (unfold w3, after_remove; cbn [set_filenames set_files rom filenames];
        rewrite Hrom2; reflexivity).
  assert (Hfiles3 : files (rom w3) = delete (S k) fs)
    by (unfold w3, after_remove; cbn [set_filenames set_files rom files];
        rewrite Hrom2; reflexivity).
  assert (Hreg3 : _opened_files (rom w3) = [])
    by (unfold w3, after_remove; cbn [set_filenames set_files rom _opened_files];
        exact Hreg2).
  assert (Hwf3 : wf w3).
  { apply (remove_file_wf old_path w2 w3); [left; exact Hplain | exact Hwf2 | exact Hrm]. }
  exists idx, w3. split; [exact Hfa_in |]. split; [exact Hidx |].
  split; [exact Hrid |]. split.
  { unfold move_file. unfold bind at 1. rewrite Hopen1.
    unfold bind at 1. rewrite Hwith1.
    unfold bind at 1. rewrite Hrm. reflexivity. }
  auto.
Qed.

End MoveFacts.

Module MoveProperties.
Import Rom Handle HandleFacts NintendoDSRom TreeFacts PathFacts IndexFacts
  BookkeepingFacts LookupFacts RomFacts ResolutionFacts StructureFacts MoveFacts.

(** X20. [move_file] on a well-formed ROM whose [_opened_files] is empty, for
    two plain paths whose folder parts stand for folders: from a path that
    stands for a file in a slot other than slot 0 to a path that stands for
    none, in a folder that will not give the new file the ID 0.  The call
    returns, the new path stands for the content that the old path stood
    for, every path that stood for another file stands for the same
    content, and the bookkeeping is well-formed. *)
Theorem move_file_moves_the_content (old_path new_path : string) (k : nat)
    (data : list byte) (fa fb : Fnt.Folder) (w : World)
    (Hwf : wf w) (Hreg : _opened_files (rom w) = [])
    (Hold_plain : plain old_path) (Hnew_plain : plain new_path)
    (Hold : Fnt.idOf old_path (filenames (rom w)) = Ok (Some (S k)))
    (Hdata : files (rom w) !! S k = Some data)
    (Hfa : Fnt.getitem (os_path_split old_path).1 (filenames (rom w)) = Ok (inr fa))
    (Hnew : Fnt.idOf new_path (filenames (rom w)) = Ok None)
    (Hfb : Fnt.getitem (os_path_split new_path).1 (filenames (rom w)) = Ok (inr fb))
    (Hnonzero : 1 < Fnt.firstID fb + length (Fnt.files fb)) :
  exists w',
    move_file old_path new_path w = (Ok tt, w') /\
    wf w' /\ length (files (rom w')) = length (files (rom w)) /\
    Content.rom new_path w' = Some data /\
    (forall p fid, Fnt.idOf p (filenames (rom w)) = Ok (Some fid) ->
                   fid <> S k ->
                   Content.rom p w' = Content.rom p w).
Proof.
  pose proof (lookup_lt_Some _ _ _ Hdata) as Hk.
  destruct (move_file_after_removal old_path new_path k data fa w
              Hwf Hreg Hold_plain Hold Hdata Hfa)
    as (idx & w3 & Hfa_in & Hidx & Hrid & Hmove & Htree3 & Hfiles3 & Hreg3 & Hwf3).
  set (tail_o := (os_path_split old_path).2) in *.
  set (head_n := (os_path_split new_path).1) in *.
  set (tail_n := (os_path_split new_path).2) in *.
  set (tree := filenames (rom w)) in *. set (fs := files (rom w)) in *.
  apply getitem_folder_pieces in Hfb as (hl_n & Hhl_n & Hnofile_n & Hfb).
  pose proof (subfolder_in_nodes _ _ _ Hfb) as Hfb_in.
  destruct (os_path_split_plain new_path Hnew_plain)
    as (_ & [Hno | (hl' & Hhl' & Hl_n)]); [fold head_n in Hno; congruence |].
  fold head_n in Hhl'. assert (hl' = hl_n) as -> by congruence.
  fold tail_n in Hl_n.
  rewrite (idOf_pieces _ _ _ Hl_n) in Hnew. injection Hnew as Hnew.
  set (G := Fnt.removed (Fnt.oid fa) (S k) tail_o) in *.
  (* the second block: open with creation, write, close *)
  assert (Hnew3 : Fnt.idOf new_path (filenames (rom w3)) = Ok None).
  { rewrite Htree3, (idOf_pieces _ _ _ Hl_n). f_equal.
    apply remove_unresolved, Hnew. }
  assert (Hsub3 : Fnt.subfolder hl_n (G tree) = Some (G fb)).
  { unfold G. rewrite (subfolder_in_place _ (removed_in_place _ _ _)), Hfb.
    reflexivity. }
  assert (Hfb3 : (folder_of head_n w3).1 = Ok (G fb)).
  { apply folder_of_resolved. rewrite Htree3. apply getitem_folder_pieces.
    exists hl_n. split; [exact Hhl_n |]. split; [| exact Hsub3].
    apply remove_unresolved, Hnofile_n. }
  set (k' := Fnt.firstID (G fb) + length (Fnt.files (G fb))).
  set (w4 := after_add (G fb) tail_n w3).
  assert (Hadd : add_file new_path w3 = (Ok k', w4)).
  { rewrite (add_file_exact new_path w3 Hreg3). fold head_n tail_n.
    rewrite Hfb3. reflexivity. }
  assert (Hwf4 : wf w4) by (eapply add_file_wf; eauto).
  assert (Hk' : 0 < k').
  { unfold k', G. rewrite removed_firstID.
    destruct (decide (Fnt.oid fb = Fnt.oid fa)) as [Ho | Ho].
    - pose proof (proj1 (proj1 (wf_ids_nodes _ _) Hwf)) as Hnd.
      pose proof (same_oid_same_node _ _ _ Hnd Hfb_in Hfa_in Ho) as ->.
      pose proof (removed_length_target (S k) tail_o fa idx Hidx) as Hlen.
      rewrite decide_False by lia. lia.
    - rewrite (removed_length_other _ _ _ _ Ho).
      destruct (decide (S k < Fnt.firstID fb)); lia. }
  assert (Htree4 : filenames (rom w4) = Fnt.added (Fnt.oid (G fb)) k' tail_n (G tree))
    by (unfold w4, after_add; cbn [set_filenames set_files rom filenames];
        rewrite Htree3; reflexivity).
  assert (Hfiles4 : files (rom w4) = list_insert_at k' [] (delete (S k) fs))
    by (unfold w4, after_add; cbn [set_filenames set_files rom files];
        rewrite Hfiles3; reflexivity).
  assert (Hbound3 : k' <= length (delete (S k) fs)).
  { apply wf_ids_nodes in Hwf3. destruct Hwf3 as (_ & Hb & _).
    rewrite Htree3, Hfiles3 in Hb. apply (Hb (G fb)).
    unfold G. rewrite (nodes_in_place _ (removed_in_place _ _ _)).
    apply list_elem_of_fmap_2, Hfb_in. }
  assert (Hk4 : k' < length (files (rom w4))).
  { rewrite Hfiles4, length_list_insert_at. lia. }
  destruct (open_write_close OwnerRom k' op_w data w4 (files (rom w4)) eq_refl Hk4)
    as (w5 & w6 & w7 & Hinit & _ & Hwrite & Hclose & _ & _ & Hrom7 & _ & Hclosed7).
  set (fp2 := length (handles w4)) in *.
  assert (Hopen2 : open (By_path new_path) "wb+" w3 = (Ok (Binary_file fp2), w5)).
  { unfold open. change (parse_mode "wb+") with (Some (op_w, true, true)).
    unfold bind at 1. unfold bind at 1. unfold gets at 1.
    unfold bind at 1. unfold lift at 1. rewrite Hnew3.
    rewrite bool_decide_eq_true_2 by (left; reflexivity). cbn [andb].
    unfold bind at 1. unfold bind at 1. rewrite Hadd.
    rewrite bool_decide_eq_false_2
      by (intros [H | H]; [discriminate | injection H; lia]).
    unfold ret at 1. destruct k' as [| n] eqn:Ek'; [lia |].
    unfold ret at 1. unfold bind. rewrite Hinit. reflexivity. }
  assert (Hh5 : handles w5 !! fp2 = Some (new_handle OwnerRom k' op_w (files (rom w4)))).
  { pose proof (RomFile_init_ok OwnerRom k' op_w w4 (files (rom w4)) eq_refl Hk4)
      as Hinit'.
    rewrite Hinit in Hinit'. injection Hinit' as ->.
    unfold with_new_handle. cbn [set_handles set_opened_files handles].
    apply list_lookup_middle. reflexivity. }
  destruct (handles w7 !! fp2) as [h7 |] eqn:Hh7; [| discriminate].
  cbn in Hclosed7. injection Hclosed7 as Hclosed7.
  destruct (RomFile_close_no_flush fp2 w7 h7 Hh7 (or_introl Hclosed7))
    as (w8 & Hclose2 & Hrom8 & _ & _).
  assert (Hwith2 : with_file (Binary_file fp2) (fun fp => write_first fp data) w5
                   = (Ok (length data), w8)).
  { rewrite (with_file_open fp2 _ w5 _ Hh5 eq_refl), Hwrite.
    unfold RomFile_exit, bind. rewrite Hclose, Hclose2. reflexivity. }
  exists w8. split.
  { rewrite Hmove. unfold bind at 1. rewrite Hopen2.
    unfold bind. rewrite Hwith2. reflexivity. }
  assert (Htree8 : filenames (rom w8) = Fnt.added (Fnt.oid (G fb)) k' tail_n (G tree)).
  { rewrite Hrom8, Hrom7. cbn [set_owner_files set_files rom filenames].
    exact Htree4. }
  assert (Hfiles8 : files (rom w8) = list_insert_at k' data (delete (S k) fs)).
  { rewrite Hrom8, Hrom7. cbn [set_owner_files set_files rom files written].
    rewrite Hfiles4. apply insert_list_insert_at. exact Hbound3. }
  assert (Hlen3 : S (length (delete (S k) fs)) = length fs)
    by (rewrite length_delete by (apply lookup_lt_is_Some_2; exact Hk); lia).
  assert (HGfb : G fb ∈ Fnt.nodes (G tree)).
  { unfold G. rewrite (nodes_in_place _ (removed_in_place _ _ _)).
    apply list_elem_of_fmap_2, Hfb_in. }
  assert (Hwf3' : Fnt.wf_ids (length (delete (S k) fs)) (G tree))
    by (unfold wf in Hwf3; rewrite Htree3, Hfiles3 in Hwf3; exact Hwf3).
  split; [| split; [| split]].
  - unfold wf. rewrite Htree8, Hfiles8, length_list_insert_at.
    unfold wf in Hwf4. rewrite Htree4, Hfiles4, length_list_insert_at in Hwf4.
    exact Hwf4.
  - rewrite Hfiles8, length_list_insert_at. exact Hlen3.
  - rewrite (content_rom_pieces _ _ _ Hl_n), Htree8, Hfiles8.
    unfold k'. rewrite (add_resolves (G tree) _ (G fb) tail_n Hsub3).
    + cbn [mbind option_bind]. apply lookup_list_insert_at_eq. exact Hbound3.
    + assert (Hnone : Fnt.idOf_path (hl_n ++ [tail_n]) (G tree) = None)
        by apply remove_unresolved, Hnew.
      rewrite idOf_path_app, Hsub3 in Hnone.
      destruct (list_index tail_n (Fnt.files (G fb))) eqn:Et; [discriminate |].
      apply list_index_None in Et. exact Et.
  - intros p fid Hp Hne. apply idOf_Ok in Hp as (l & Hl & Hp).
    rewrite !(content_rom_pieces p l) by exact Hl. rewrite Htree8, Hfiles8.
    fold tree fs. unfold k'.
    assert (Hp1 : Fnt.idOf_path l tree <> None) by congruence.
    assert (Hp2 : Fnt.idOf_path l tree <> Some (Fnt.firstID fa + idx)) by congruence.
    rewrite (add_content (G tree) (delete (S k) fs) (G fb) tail_n data l Hwf3' HGfb).
    + unfold G. rewrite Hrid. apply remove_content; assumption.
    + unfold G. rewrite Hrid.
      apply (remove_still_resolves tree (length fs)); assumption.
Qed.

Lemma move_file_moves_the_content_witness :
  exists w',
    move_file "data/c" "data/z" three_files_world = (Ok tt, w') /\
    Content.rom "data/z" w' = Some [x0c] /\
    Content.rom "data/b" w' = Some [x0b] /\
    Content.rom "a" w' = Some [x0a].
Proof.
  assert (Hwf : wf three_files_world) by decide_by_evaluation.
  destruct (move_file_moves_the_content "data/c" "data/z" 1 [x0c]
              (Fnt.MkFolder 1 1 ["b"; "c"]%string [])
              (Fnt.MkFolder 1 1 ["b"; "c"]%string []) three_files_world
              Hwf eq_refl ltac:(decide_by_evaluation) ltac:(decide_by_evaluation)
              eq_refl eq_refl eq_refl eq_refl eq_refl ltac:(cbn; lia))
    as (w' & Hmove & _ & _ & Hnew & Hkeep).
  exists w'. split; [exact Hmove |]. split; [exact Hnew |]. split.
  - rewrite (Hkeep "data/b"%string 1); [reflexivity | reflexivity | discriminate].
  - rewrite (Hkeep "a"%string 0); [reflexivity | reflexivity | discriminate].
Defined.

(** X21. [move_file] removes the old file before it creates the new one.  For
    a plain old path that stands for a file in a slot other than slot 0
    and whose folder part stands for a folder, and a new path that stands
    for no file: when the folder part of the new path stands for nothing,
    the call raises [KeyError] with the old file removed: its slot is
    gone. *)
Theorem move_file_into_missing_folder (old_path new_path : string) (k : nat)
    (data : list byte) (fa : Fnt.Folder) (w : World)
    (Hwf : wf w) (Hreg : _opened_files (rom w) = [])
    (Hold_plain : plain old_path)
    (Hold : Fnt.idOf old_path (filenames (rom w)) = Ok (Some (S k)))
    (Hdata : files (rom w) !! S k = Some data)
    (Hfa : Fnt.getitem (os_path_split old_path).1 (filenames (rom w)) = Ok (inr fa))
    (Hnew : Fnt.idOf new_path (filenames (rom w)) = Ok None)
    (Hmissing : Fnt.getitem (os_path_split new_path).1 (filenames (rom w))
                = Raise KeyError) :
  exists w',
    move_file old_path new_path w = (Raise KeyError, w') /\
    files (rom w') = delete (S k) (files (rom w)) /\
    S (length (files (rom w'))) = length (files (rom w)) /\
    Fnt.idOf new_path (filenames (rom w')) = Ok None.
Proof.
  pose proof (lookup_lt_Some _ _ _ Hdata) as Hk.
  destruct (move_file_after_removal old_path new_path k data fa w
              Hwf Hreg Hold_plain Hold Hdata Hfa)
    as (idx & w3 & Hfa_in & Hidx & Hrid & Hmove & Htree3 & Hfiles3 & Hreg3 & Hwf3).
  assert (Hnew3 : Fnt.idOf new_path (filenames (rom w3)) = Ok None).
  { apply idOf_Ok in Hnew as (l & Hl & Hnew).
    rewrite Htree3, (idOf_pieces _ _ _ Hl). f_equal.
    apply remove_unresolved, Hnew. }
  exists w3. split; [| split; [exact Hfiles3 | split; [| exact Hnew3]]].
  - rewrite Hmove. unfold bind at 1.
    unfold open. change (parse_mode "wb+") with (Some (op_w, true, true)).
    unfold bind at 1. unfold bind at 1. unfold gets at 1.
    unfold bind at 1. unfold lift at 1. rewrite Hnew3.
    rewrite bool_decide_eq_true_2 by (left; reflexivity). cbn [andb].
    unfold bind at 1. unfold bind at 1.
    rewrite (add_file_exact new_path w3 Hreg3).
    assert (Hfolder : (folder_of (os_path_split new_path).1 w3).1 = Raise KeyError).
    { unfold folder_of, bind, gets. rewrite Htree3.
      apply getitem_KeyError in Hmissing as (l & Hl & Hnofile & Hnofolder).
      replace (Fnt.getitem (os_path_split new_path).1
                 (Fnt.removed (Fnt.oid fa) (S k) (os_path_split old_path).2
                    (filenames (rom w))))
        with (@Raise (nat + Fnt.Folder) KeyError); [reflexivity |].
      symmetry. apply getitem_KeyError. exists l. split; [exact Hl |]. split.
      - apply remove_unresolved, Hnofile.
      - rewrite (subfolder_in_place _ (removed_in_place _ _ _)), Hnofolder.
        reflexivity. }
    rewrite Hfolder. reflexivity.
  - rewrite Hfiles3, length_delete by (apply lookup_lt_is_Some_2; exact Hk). lia.
Qed.

Lemma move_file_into_missing_folder_witness :
  exists w',
    move_file "data/c" "nowhere/c" three_files_world = (Raise KeyError, w') /\
    files (rom w') = [ [x0a]; [x0b] ] /\
    Fnt.idOf "data/c" (filenames (rom w')) = Ok None.
Proof.
  assert (Hwf : wf three_files_world) by decide_by_evaluation.
  destruct (move_file_into_missing_folder "data/c" "nowhere/c" 1 [x0c]
              (Fnt.MkFolder 1 1 ["b"; "c"]%string []) three_files_world
              Hwf eq_refl ltac:(decide_by_evaluation) eq_refl eq_refl eq_refl
              eq_refl eq_refl)
    as (w' & Hmove & Hfiles & _ & _).
  exists w'. split; [exact Hmove |]. split; [exact Hfiles |].
  assert (E : w' = (move_file "data/c" "nowhere/c" three_files_world).2)
    by (rewrite Hmove; reflexivity).
  rewrite E. vm_compute. reflexivity.
Defined.

End MoveProperties.

(** ** The folder methods *)

Module JoinFacts.
Import PathFacts.

(** Splitting at the slashes is splitting each side of a slash. *)
Lemma split_slash_app a b :
  split_slash (a +:+ String slash b) = split_slash a ++ split_slash b.
Proof.
  induction a as [| ch a IH].
  - change (EmptyString +:+ String slash b) with (String slash b).
    cbn [split_slash]. rewrite decide_True by reflexivity. reflexivity.
  - change (String ch a +:+ String slash b) with (String ch (a +:+ String slash b)).
    cbn [split_slash]. rewrite IH. destruct (decide (ch = slash)); [reflexivity |].
    destruct (split_slash_cons a) as (x & xs & ->). reflexivity.
Qed.

(** A piece of a split path holds no slash. *)
Lemma split_slash_pieces s : Forall (fun x => split_slash x = [x]) (split_slash s).
Proof.
  induction s as [| ch s IH]; cbn [split_slash]; [repeat constructor |].
  destruct (decide (ch = slash)); [constructor; [reflexivity | exact IH] |].
  destruct (split_slash_cons s) as (x & xs & Hs). rewrite Hs in *.
  apply Forall_cons in IH as [Hx Hxs]. constructor; [| exact Hxs].
  apply split_slash_letter; assumption.
Qed.

Lemma split_slash_join l :
  l <> [] -> Forall (fun x => split_slash x = [x]) l ->
  split_slash (join_slash l) = l.
Proof.
  induction l as [| x l IH]; [congruence |]. intros _ Hl.
  apply Forall_cons in Hl as [Hx Hl]. destruct l as [| y l]; [exact Hx |].
  change (join_slash (x :: y :: l)) with (x +:+ String slash (join_slash (y :: l))).
  rewrite split_slash_app, Hx, IH by (congruence || assumption). reflexivity.
Qed.

(** ["/".join(basedirs) + "/"] is read by the folder tree as [basedirs]
    again. *)
Lemma path_list_join path l k :
  folder_split path = l ++ k -> l <> [] ->
  Fnt.path_list (join_slash l +:+ "/") = Some l.
Proof.
  intros Hpath Hne.
  assert (Hall : Forall (fun x => split_slash x = [x] /\ x <> EmptyString) l).
  { apply Forall_forall. intros x Hx.
    assert (Hin : x ∈ folder_split path)
      by (rewrite Hpath; apply elem_of_app; left; exact Hx).
    unfold folder_split in Hin. apply list_elem_of_filter in Hin as [Hnz Hin].
    split; [| exact Hnz].
    pose proof (split_slash_pieces path) as Hp.
    rewrite Forall_forall in Hp. apply Hp, Hin. }
  unfold Fnt.path_list.
  change (join_slash l +:+ "/") with (join_slash l +:+ String slash EmptyString).
  rewrite split_slash_app, split_slash_join.
  - change (split_slash EmptyString) with (replicate 1 EmptyString).
    rewrite strip_empty_end_empties, strip_empty_end_plain.
    + destruct l; [congruence | reflexivity].
    + rewrite Forall_forall in Hall. intros Hin. apply (Hall _ Hin). reflexivity.
  - exact Hne.
  - eapply Forall_impl; [exact Hall |]. intros x [H _]. exact H.
Qed.

End JoinFacts.

Module FolderFacts.
Import Fnt Tree TreeFacts BookkeepingFacts IndexFacts ResolutionFacts.

Lemma NoDup_submseteq_inv {A} (l k : list A) : l ⊆+ k -> NoDup k -> NoDup l.
Proof.
  intros Hsub Hnd. apply submseteq_sublist_r in Hsub as (l' & Hperm & Hsl).
  rewrite Hperm. eapply sublist_NoDup; eauto.
Qed.

Lemma wf_nodes_keys n ns ns' :
  key <$> ns' ⊆+ key <$> ns -> wf_nodes n ns -> wf_nodes n ns'.
Proof.
  intros Hsub (Hnd & Hbound & Hpairs).
  assert (Hin : forall f', f' ∈ ns' -> exists f, f ∈ ns /\ key f = key f').
  { intros f' Hf'. apply (list_elem_of_fmap_2 key) in Hf'.
    eapply elem_of_submseteq in Hf'; [| exact Hsub].
    apply list_elem_of_fmap in Hf' as (f & Hk & Hf). eauto. }
  split; [| split].
  - assert (Hoid : oid <$> ns' ⊆+ oid <$> ns).
    { replace (oid <$> ns') with ((fun k : nat * nat * list string => k.1.1) <$> (key <$> ns'))
        by (rewrite <- list_fmap_compose; reflexivity).
      replace (oid <$> ns) with ((fun k : nat * nat * list string => k.1.1) <$> (key <$> ns))
        by (rewrite <- list_fmap_compose; reflexivity).
      apply fmap_submseteq, Hsub. }
    eapply NoDup_submseteq_inv; eauto.
  - intros f' Hf'. destruct (Hin f' Hf') as (f & Hf & Hk).
    unfold key in Hk. injection Hk as E1 E2 E3. rewrite <- E2, <- E3. auto.
  - intros f' g' Hf' Hg'.
    destruct (Hin f' Hf') as (f & Hf & Hk). destruct (Hin g' Hg') as (g & Hg & Hk').
    unfold key in Hk, Hk'. injection Hk as E1 E2 E3. injection Hk' as E4 E5 E6.
    unfold apart. rewrite <- E1, <- E2, <- E3, <- E4, <- E5, <- E6.
    apply Hpairs; assumption.
Qed.

Lemma key_append_folder target item f :
  key (append_folder target item f) = key f.
Proof. destruct f. reflexivity. Qed.

Lemma key_delete_folder target index f :
  key (delete_folder target index f) = key f.
Proof. destruct f. reflexivity. Qed.

Lemma key_rename_folder_item target index name f :
  key (rename_folder_item target index name f) = key f.
Proof. destruct f. reflexivity. Qed.

Lemma nodes_cons o fid fs fds :
  nodes (MkFolder o fid fs fds) =
  MkFolder o fid fs fds :: flat_map (fun fd : string * Folder => nodes fd.2) fds.
Proof. reflexivity. Qed.

(** The folders of the tree after [target.folders.append(item)]: those
    that were there, and those of [item] when [target] is in the tree. *)
Lemma nodes_append_folder target item t :
  NoDup (oid <$> nodes t) ->
  key <$> nodes (append_folder target item t) ≡ₚ
    (key <$> nodes t) ++
    (if decide (target ∈ oid <$> nodes t) then key <$> nodes item.2 else []).
Proof.
  set (K := key <$> nodes item.2).
  induction t as [o fid fs fds IH] using Folder_tree_ind. intros Hnd.
  set (A' := fun fd : string * Folder =>
               let '(n, f) := fd in (n, append_folder target item f)).
  assert (Hkids :
    NoDup (oid <$> flat_map (fun fd : string * Folder => nodes fd.2) fds) ->
    key <$> flat_map (fun fd : string * Folder => nodes fd.2) (map A' fds) ≡ₚ
      (key <$> flat_map (fun fd : string * Folder => nodes fd.2) fds) ++
      (if decide (target ∈ oid <$> flat_map (fun fd : string * Folder => nodes fd.2) fds)
       then K else [])).
  { clear Hnd. induction IH as [| [n c] fds Hc _ IHfds]; intros Hnd.
    - cbn. reflexivity.
    - cbn [map flat_map snd A'] in *. rewrite !fmap_app in *.
      apply NoDup_app in Hnd as (Hndc & Hdisj & Hndr).
      rewrite (Hc Hndc), (IHfds Hndr). fold K.
      destruct (decide (target ∈ oid <$> nodes c)) as [Hin | Hout].
      + rewrite (decide_False (P := target ∈ oid <$> flat_map _ fds))
          by (apply Hdisj, Hin).
        rewrite decide_True by (apply elem_of_app; left; exact Hin).
        rewrite app_nil_r, <- !app_assoc. apply Permutation_app_head.
        apply Permutation_app_comm.
      + rewrite app_nil_r, <- app_assoc. apply Permutation_app_head.
        destruct (decide (target ∈ oid <$> flat_map _ fds)) as [Hin | Hout'].
        * rewrite decide_True by (apply elem_of_app; right; exact Hin). reflexivity.
        * rewrite decide_False; [reflexivity |].
          intros H. apply elem_of_app in H as [H | H]; contradiction. }
  rewrite nodes_cons, fmap_cons in Hnd. apply NoDup_cons in Hnd as [Ho Hndk].
  cbn [oid] in Ho. specialize (Hkids Hndk).
  cbn [append_folder oid firstID files folders]. fold A'.
  rewrite !nodes_cons, !fmap_cons. cbn [key oid firstID files].
  destruct (decide (o = target)) as [-> | Hne].
  - rewrite decide_True by (apply elem_of_cons; left; reflexivity).
    rewrite flat_map_app, fmap_app. cbn [flat_map]. rewrite app_nil_r.
    rewrite Hkids, decide_False by exact Ho. rewrite app_nil_r. fold K.
    reflexivity.
  - rewrite Hkids. apply Permutation_cons; [reflexivity |].
    apply Permutation_app_head.
    destruct (decide (target ∈ oid <$> flat_map _ fds)) as [Hin | Hout].
    + rewrite decide_True by (apply elem_of_cons; right; exact Hin). reflexivity.
    + rewrite decide_False; [reflexivity |].
      intros H. apply elem_of_cons in H as [H | H]; [congruence | contradiction].
Qed.

Lemma child_app name l k :
  child name (l ++ k) =
    match child name l with Some f => Some f | None => child name k end.
Proof.
  induction l as [| [n f] l IH]; [reflexivity |].
  cbn [app child]. destruct (decide (n = name)); [reflexivity | exact IH].
Qed.

Lemma subfolder_app a b t :
  subfolder (a ++ b) t = subfolder a t ≫= subfolder b.
Proof.
  revert t. induction a as [| p a IH]; intros t; [reflexivity |].
  cbn [app subfolder]. destruct (child p (folders t)); [apply IH | reflexivity].
Qed.

Lemma idOf_path_empty_folder path o fid :
  idOf_path path (MkFolder o fid [] []) = None.
Proof. destruct path as [| x [| y r]]; reflexivity. Qed.

Lemma folders_append_folder target item t :
  folders (append_folder target item t) =
    map (fun fd : string * Folder =>
           let '(n, f) := fd in (n, append_folder target item f)) (folders t)
    ++ (if decide (oid t = target) then [item] else []).
Proof.
  destruct t as [o fid fs fds]. cbn [append_folder folders oid].
  destruct (decide (o = target)); [reflexivity | rewrite app_nil_r; reflexivity].
Qed.

(** A new folder without files and folders makes no path stand for a
    file, and takes no file away from a path. *)
Lemma idOf_path_append_empty target name o fid path : forall t,
  idOf_path path (append_folder target (name, MkFolder o fid [] []) t)
  = idOf_path path t.
Proof.
  induction path as [| p rest IH]; intros t; [reflexivity |].
  destruct rest as [| q rest].
  - destruct t. reflexivity.
  - change (idOf_path (p :: q :: rest) ?x)
      with (match child p (folders x) with
            | Some f => idOf_path (q :: rest) f
            | None => None
            end).
    rewrite folders_append_folder, child_app, child_map.
    destruct (child p (folders t)) as [c |]; [apply IH |].
    cbn [fmap option_fmap option_map].
    destruct (decide (oid t = target)); [| reflexivity].
    cbn [child]. destruct (decide (name = p)); [| reflexivity].
    apply idOf_path_empty_folder.
Qed.

(** The walk to a folder of the old tree is the same in the new tree. *)
Lemma subfolder_append_folder target item dirs : forall t f,
  subfolder dirs t = Some f ->
  subfolder dirs (append_folder target item t) = Some (append_folder target item f).
Proof.
  induction dirs as [| p dirs IH]; intros t f H; cbn [subfolder] in *.
  - congruence.
  - rewrite folders_append_folder, child_app, child_map.
    destruct (child p (folders t)) as [c |]; [| discriminate].
    cbn [fmap option_fmap option_map]. apply IH, H.
Qed.

Lemma fresh_oid_is_fresh t : fresh_oid t ∉ oid <$> nodes t.
Proof.
  unfold fresh_oid. intros Hin.
  assert (Hle : forall (l : list nat) x, x ∈ l -> x <= foldr Nat.max 0 l).
  { induction l as [| y l IHl]; intros x Hx; [inversion Hx |].
    cbn [foldr]. apply elem_of_cons in Hx as [-> | Hx]; [lia |].
    specialize (IHl x Hx). lia. }
  specialize (Hle _ _ Hin). lia.
Qed.

End FolderFacts.

Module FolderMethodFacts.
Import Rom NintendoDSRom TreeFacts IndexFacts BookkeepingFacts ResolutionFacts
  JoinFacts FolderFacts.

Lemma getitem_state key w : (getitem key w).2 = w.
Proof.
  unfold getitem, bind, gets.
  destruct (Fnt.getitem key (filenames (rom w))) as [x | e |]; reflexivity.
Qed.

Lemma folder_get_parent_state path w : (folder_get_parent path w).2 = w.
Proof.
  unfold folder_get_parent. destruct (reverse (folder_split path)) as [| s [| r rs]];
    try reflexivity.
  apply getitem_state.
Qed.

(** The parent that [folder_get_parent] finds: the folder at the end of
    the walk along all components of the path but the last. *)
Lemma folder_get_parent_folder path w parent :
  (folder_get_parent path w).1 = Ok (inr parent) ->
  exists dirs name,
    folder_split path = dirs ++ [name] /\
    Fnt.subfolder dirs (filenames (rom w)) = Some parent.
Proof.
  unfold folder_get_parent.
  destruct (reverse (folder_split path)) as [| subdir rb] eqn:Er; [discriminate |].
  assert (Hpath : folder_split path = reverse rb ++ [subdir]).
  { rewrite <- (reverse_involutive (folder_split path)), Er.
    apply reverse_cons. }
  destruct rb as [| r rb].
  - cbn. intros [= <-]. exists [], subdir. split; [exact Hpath | reflexivity].
  - unfold getitem, bind, gets.
    destruct (Fnt.getitem (join_slash (reverse (r :: rb)) +:+ "/")
                (filenames (rom w))) as [x | e |] eqn:Eg; try discriminate.
    cbn. intros [= ->].
    apply LookupFacts.getitem_folder_pieces in Eg as (l & Hl & _ & Hsub).
    rewrite (path_list_join path (reverse (r :: rb)) [subdir] Hpath) in Hl
      by (rewrite reverse_cons; destruct (reverse rb); discriminate).
    injection Hl as <-. exists (reverse (r :: rb)), subdir. auto.
Qed.

Lemma last_component_spec path dirs name w :
  folder_split path = dirs ++ [name] -> last_component path w = (Ok name, w).
Proof.
  intros H. unfold last_component. rewrite H, last_snoc. reflexivity.
Qed.

Lemma wf_nodes_snoc n ns new :
  Fnt.wf_nodes n ns -> Fnt.oid new ∉ Fnt.oid <$> ns ->
  Fnt.firstID new = n -> Fnt.files new = [] ->
  Fnt.wf_nodes n (ns ++ [new]).
Proof.
  intros (Hnd & Hbound & Hpairs) Hfresh Hfirst Hfiles. split; [| split].
  - rewrite fmap_app. apply NoDup_app. split; [exact Hnd |]. split.
    + intros x Hx Hx'. cbn in Hx'. apply list_elem_of_singleton in Hx'. subst x.
      contradiction.
    + cbn. apply NoDup_singleton.
  - intros f Hf. apply elem_of_app in Hf as [Hf | Hf]; [auto |].
    apply list_elem_of_singleton in Hf. subst f. rewrite Hfirst, Hfiles. cbn. lia.
  - intros f g Hf Hg. unfold Fnt.apart.
    apply elem_of_app in Hf as [Hf | Hf]; apply elem_of_app in Hg as [Hg | Hg];
      try (apply list_elem_of_singleton in Hf; subst f);
      try (apply list_elem_of_singleton in Hg; subst g).
    + apply Hpairs; assumption.
    + right. left. rewrite Hfirst. apply Hbound, Hf.
    + right. right. rewrite Hfirst. apply Hbound, Hg.
    + left. reflexivity.
Qed.

End FolderMethodFacts.

Module FolderProperties.
Import Rom NintendoDSRom TreeFacts IndexFacts BookkeepingFacts ResolutionFacts
  JoinFacts FolderFacts FolderMethodFacts.

(** X22. [add_folder] on a well-formed ROM, when it returns: the slots are
    untouched, every path stands for the file it stood for or for none as
    before, and the bookkeeping is well-formed.  The new folder is empty
    and its [firstID] is the number of slots; it is found under the path
    when its parent had no folder of that name. *)
Theorem add_folder_adds_an_empty_folder (path : string) (w w' : World)
    (Hwf : wf w) (Hadd : add_folder path w = (Ok tt, w')) :
  wf w' /\ files (rom w') = files (rom w) /\
  (forall p, Fnt.idOf p (filenames (rom w')) = Fnt.idOf p (filenames (rom w))) /\
  exists dirs name parent,
    folder_split path = dirs ++ [name] /\
    Fnt.subfolder dirs (filenames (rom w)) = Some parent /\
    (Fnt.child name (Fnt.folders parent) = None ->
     Fnt.subfolder (folder_split path) (filenames (rom w')) =
       Some (Fnt.MkFolder (Tree.fresh_oid (filenames (rom w)))
               (length (files (rom w))) [] [])).
Proof.
  unfold add_folder in Hadd. unfold bind at 1 in Hadd.
  pose proof (folder_get_parent_state path w) as Hst.
  pose proof (folder_get_parent_folder path w) as Hparent.
  destruct (folder_get_parent path w) as [[[fid | parent] | e |] w1];
    cbn [fst snd] in *; subst w1; try discriminate.
  destruct (Hparent parent eq_refl) as (dirs & name & Hpath & Hsub).
  unfold bind at 1 in Hadd. unfold gets at 1 in Hadd.
  unfold bind at 1 in Hadd. unfold gets at 1 in Hadd.
  unfold bind at 1 in Hadd. rewrite (last_component_spec _ _ _ _ Hpath) in Hadd.
  unfold modify in Hadd. injection Hadd as <-.
  set (new := Fnt.MkFolder (Tree.fresh_oid (filenames (rom w)))
                (length (files (rom w))) [] []).
  set (tree := filenames (rom w)) in *.
  assert (Htree : filenames (rom (set_filenames
            (Tree.append_folder (Fnt.oid parent) (name, new)) w)) =
          Tree.append_folder (Fnt.oid parent) (name, new) tree) by reflexivity.
  rewrite Htree. pose proof (subfolder_in_nodes _ _ _ Hsub) as Hin.
  apply wf_ids_nodes in Hwf. pose proof Hwf as (Hnd & _).
  split; [| split; [reflexivity | split]].
  - apply wf_ids_nodes. cbn [set_filenames rom files filenames]. fold tree.
    apply (wf_nodes_keys _ (Fnt.nodes tree ++ [new])).
    + rewrite (nodes_append_folder (Fnt.oid parent) (name, new) tree Hnd), fmap_app.
      rewrite decide_True by (apply list_elem_of_fmap_2, Hin). reflexivity.
    + apply wf_nodes_snoc; try reflexivity; [exact Hwf |].
      apply fresh_oid_is_fresh.
  - intros p. unfold Fnt.idOf. destruct (Fnt.path_list p); [| reflexivity].
    f_equal. apply idOf_path_append_empty.
  - exists dirs, name, parent. split; [exact Hpath |]. split; [exact Hsub |].
    intros Hfree. rewrite Hpath, subfolder_app.
    rewrite (subfolder_append_folder _ _ _ _ _ Hsub).
    cbn [mbind option_bind Fnt.subfolder].
    rewrite folders_append_folder, child_app, child_map, Hfree.
    cbn [fmap option_fmap option_map]. rewrite decide_True by reflexivity.
    cbn [Fnt.child]. rewrite decide_True by reflexivity. reflexivity.
Qed.

Lemma add_folder_adds_an_empty_folder_witness :
  exists w',
    add_folder "data/sub" three_files_world = (Ok tt, w') /\
    wf w' /\
    Fnt.idOf "data/c" (filenames (rom w')) = Ok (Some 2) /\
    Fnt.subfolder ["data"; "sub"]%string (filenames (rom w'))
      = Some (Fnt.MkFolder 2 3 [] []).
Proof.
  exists (add_folder "data/sub" three_files_world).2.
  assert (Hadd : add_folder "data/sub" three_files_world =
                 (Ok tt, (add_folder "data/sub" three_files_world).2))
    by (vm_compute; reflexivity).
  assert (Hwf : wf three_files_world) by decide_by_evaluation.
  destruct (add_folder_adds_an_empty_folder "data/sub" three_files_world _ Hwf Hadd)
    as (Hwf' & _ & Hid & _).
  split; [exact Hadd |]. split; [exact Hwf' |]. split.
  - rewrite Hid. reflexivity.
  - vm_compute. reflexivity.
Defined.

End FolderProperties.

Module DeleteFacts.
Import Fnt Tree TreeFacts BookkeepingFacts IndexFacts ResolutionFacts FolderFacts.

Lemma folders_delete_folder target index t :
  folders (delete_folder target index t) =
    (if decide (oid t = target) then delete index else fun l => l)
      (map (fun fd : string * Folder =>
              let '(n, f) := fd in (n, delete_folder target index f)) (folders t)).
Proof.
  destruct t as [o fid fs fds]. cbn [delete_folder folders oid].
  destruct (decide (o = target)); reflexivity.
Qed.

Lemma flat_map_delete_submseteq {A B} (f : A -> list B) (l : list A) i :
  flat_map f (delete i l) ⊆+ flat_map f l.
Proof.
  revert i. induction l as [| x l IH]; intros i; [destruct i; reflexivity |].
  destruct i as [| i].
  - cbn [delete list_delete flat_map]. apply submseteq_inserts_l. reflexivity.
  - change (delete (S i) (x :: l)) with (x :: delete i l). cbn [flat_map].
    apply submseteq_app; [reflexivity | apply IH].
Qed.

(** Deleting an item of a [folders] list takes folders away and adds
    none. *)
Lemma nodes_delete_folder target index t :
  key <$> nodes (delete_folder target index t) ⊆+ key <$> nodes t.
Proof.
  induction t as [o fid fs fds IH] using Folder_tree_ind.
  rewrite (nodes_unfold (delete_folder _ _ _)), folders_delete_folder.
  rewrite nodes_cons, !fmap_cons, key_delete_folder.
  apply submseteq_skip. cbn [folders oid].
  set (D' := fun fd : string * Folder =>
               let '(n, f) := fd in (n, delete_folder target index f)).
  assert (Hkids : key <$> flat_map (fun fd : string * Folder => nodes fd.2) (map D' fds)
                  ⊆+ key <$> flat_map (fun fd : string * Folder => nodes fd.2) fds).
  { induction IH as [| [n c] fds Hc _ IHfds]; [reflexivity |].
    cbn [map flat_map snd D']. rewrite !fmap_app.
    apply submseteq_app; assumption. }
  etransitivity; [| exact Hkids].
  apply fmap_submseteq.
  destruct (decide (o = target)); [apply flat_map_delete_submseteq | reflexivity].
Qed.

(** [child] in a list that has lost an item which led nowhere. *)
Lemma child_delete {X} (g : Folder -> option X) p i (v : X) :
  forall (l : list (string * Folder)),
    (forall n c, l !! i = Some (n, c) -> g c = None) ->
    child p l ≫= g = Some v ->
    child p (delete i l) ≫= g = Some v.
Proof.
  revert i. intros i l. revert i.
  induction l as [| [n c] l IH]; intros i Hi H; [discriminate |].
  destruct i as [| i].
  - cbn [delete list_delete]. cbn [child] in H.
    destruct (decide (n = p)); [| exact H].
    cbn in H. rewrite (Hi n c eq_refl) in H. discriminate.
  - change (delete (S i) ((n, c) :: l)) with ((n, c) :: delete i l).
    cbn [child] in *. destruct (decide (n = p)); [exact H |].
    apply IH; [| exact H]. intros n' c' Hl. apply (Hi n' c'). exact Hl.
Qed.

Lemma nodes_child t n c i :
  folders t !! i = Some (n, c) -> forall u, u ∈ nodes c -> u ∈ nodes t.
Proof.
  intros Hi u Hu. rewrite nodes_unfold. apply elem_of_cons. right.
  apply list_elem_of_In, in_flat_map. exists (n, c). split.
  - apply list_elem_of_In. eapply list_elem_of_lookup_2, Hi.
  - apply list_elem_of_In. exact Hu.
Qed.

Lemma child_lookup p fds c :
  child p fds = Some c -> exists i, fds !! i = Some (p, c).
Proof.
  induction fds as [| [n f] fds IH]; [discriminate |].
  cbn [child]. destruct (decide (n = p)) as [-> | Hne].
  - intros [= ->]. exists 0. reflexivity.
  - intros H. destruct (IH H) as [i Hi]. exists (S i). exact Hi.
Qed.

(** A path that stands for a file still does after an empty folder has
    been taken out of a [folders] list. *)
Lemma idOf_path_delete_leaf target index path : forall t fid,
  (forall u, u ∈ nodes t -> oid u = target ->
     forall n c, folders u !! index = Some (n, c) -> files c = [] /\ folders c = []) ->
  idOf_path path t = Some fid ->
  idOf_path path (delete_folder target index t) = Some fid.
Proof.
  induction path as [| p rest IH]; intros t fid Hleaf H; [discriminate |].
  destruct rest as [| q rest].
  - destruct t. exact H.
  - change (idOf_path (p :: q :: rest) ?x)
      with (child p (folders x) ≫= idOf_path (q :: rest)) in *.
    rewrite folders_delete_folder.
    set (D' := fun fd : string * Folder =>
                 let '(n, f) := fd in (n, delete_folder target index f)).
    assert (Hmapped : child p (map D' (folders t)) ≫= idOf_path (q :: rest) = Some fid).
    { unfold D'. rewrite child_map.
      destruct (child p (folders t)) as [c |] eqn:Ec; [| discriminate].
      cbn in H |- *. apply IH; [| exact H].
      destruct (child_lookup _ _ _ Ec) as [i Hi].
      intros u Hu. apply Hleaf. eapply nodes_child; eauto. }
    destruct (decide (oid t = target)) as [Ho | Ho]; [| exact Hmapped].
    apply child_delete; [| exact Hmapped].
    intros n c' Hi. rewrite list_lookup_fmap in Hi.
    destruct (folders t !! index) as [[n0 c0] |] eqn:E0; [| discriminate].
    cbn in Hi. injection Hi as <- <-.
    destruct (Hleaf t (nodes_self t) Ho n0 c0 E0) as [Hf Hd].
    destruct c0 as [o0 f0 fs0 fds0]. cbn in Hf, Hd. subst fs0 fds0.
    cbn [delete_folder]. cbn [map]. destruct (decide _); apply idOf_path_empty_folder.
Qed.

End DeleteFacts.

Module DeleteMethodFacts.
Import Fnt Tree TreeFacts BookkeepingFacts IndexFacts ResolutionFacts FolderFacts
  DeleteFacts.

Lemma item_index_Some name foid fds i :
  item_index name foid fds = Some i ->
  exists c, fds !! i = Some (name, c) /\ oid c = foid.
Proof.
  revert i. induction fds as [| [n f] fds IH]; intros i; [discriminate |].
  cbn [item_index]. destruct (decide (n = name /\ oid f = foid)) as [[-> Ho] | Hne].
  - intros [= <-]. exists f. auto.
  - destruct (item_index name foid fds) as [j |]; [| discriminate].
    cbn. intros [= <-]. destruct (IH j eq_refl) as (c & Hc & Ho). exists c. auto.
Qed.

(** The folders below a child are other objects than the folder itself,
    and distinct. *)
Lemma child_NoDup t i n c :
  NoDup (oid <$> nodes t) -> folders t !! i = Some (n, c) ->
  NoDup (oid <$> nodes c) /\ oid t ∉ oid <$> nodes c.
Proof.
  intros Hnd Hi. rewrite nodes_unfold, fmap_cons in Hnd.
  apply NoDup_cons in Hnd as [Ho Hnd].
  rewrite <- (take_drop_middle _ _ _ Hi), flat_map_app in Ho, Hnd.
  cbn [flat_map snd] in Ho, Hnd. rewrite !fmap_app in Ho, Hnd.
  apply NoDup_app in Hnd as (_ & _ & Hnd). apply NoDup_app in Hnd as (Hnd & _ & _).
  split; [exact Hnd |]. intros Hin. apply Ho.
  apply elem_of_app. right. apply elem_of_app. left. exact Hin.
Qed.

(** The walk to the folder whose list loses an item is the same in the
    new tree. *)
Lemma subfolder_delete_folder target index dirs : forall t f,
  NoDup (oid <$> nodes t) -> subfolder dirs t = Some f -> oid f = target ->
  subfolder dirs (delete_folder target index t) = Some (delete_folder target index f).
Proof.
  induction dirs as [| p dirs IH]; intros t f Hnd H Ho; cbn [subfolder] in *.
  - congruence.
  - destruct (child p (folders t)) as [c |] eqn:Ec; [| discriminate].
    destruct (child_lookup _ _ _ Ec) as [i Hi].
    destruct (child_NoDup _ _ _ _ Hnd Hi) as [Hndc Hout].
    rewrite folders_delete_folder, decide_False.
    + rewrite child_map, Ec. cbn [fmap option_fmap option_map]. apply IH; assumption.
    + intros Heq. apply Hout. rewrite Heq, <- Ho.
      apply list_elem_of_fmap_2. eapply subfolder_in_nodes, H.
Qed.

End DeleteMethodFacts.

Module RemoveFolderFacts.
Import Rom NintendoDSRom TreeFacts IndexFacts BookkeepingFacts ResolutionFacts
  JoinFacts FolderFacts FolderMethodFacts DeleteFacts DeleteMethodFacts.

Lemma last_component_state path w : (last_component path w).2 = w.
Proof. unfold last_component. destruct (last (folder_split path)); reflexivity. Qed.

(** [remove_folder], step by step. *)
Lemma remove_folder_cases path w :
  remove_folder path w =
    match (getitem path w).1 with
    | Ok (inl 0) => (Ok (Some Does_not_exist), w)
    | Ok (inl (S _)) => (Raise AttributeError, w)
    | Ok (inr folder) =>
        if bool_decide (Fnt.files folder <> [] \/ Fnt.folders folder <> [])
        then (Ok (Some Not_empty), w)
        else
          match (folder_get_parent path w).1 with
          | Ok (inl _) => (Raise AttributeError, w)
          | Ok (inr parent) =>
              match (last_component path w).1 with
              | Ok name =>
                  match Tree.item_index name (Fnt.oid folder) (Fnt.folders parent) with
                  | None => (Raise ValueError, w)
                  | Some index =>
                      (Ok None,
                       set_filenames (Tree.delete_folder (Fnt.oid parent) index) w)
                  end
              | Raise e => (Raise e, w)
              | Loops => (Loops, w)
              end
          | Raise e => (Raise e, w)
          | Loops => (Loops, w)
          end
    | Raise e => (Raise e, w)
    | Loops => (Loops, w)
    end.
Proof.
  unfold remove_folder. unfold bind at 1.
  pose proof (getitem_state path w) as Hst.
  destruct (getitem path w) as [[[[| fid] | folder] | e |] w1];
    cbn [fst snd] in *; subst w1; try reflexivity.
  destruct (bool_decide _); [reflexivity |].
  unfold bind at 1. pose proof (folder_get_parent_state path w) as Hst.
  destruct (folder_get_parent path w) as [[[fid | parent] | e |] w1];
    cbn [fst snd] in *; subst w1; try reflexivity.
  unfold bind at 1. pose proof (last_component_state path w) as Hst.
  destruct (last_component path w) as [[name | e |] w1];
    cbn [fst snd] in *; subst w1; try reflexivity.
  destruct (Tree.item_index _ _ _); reflexivity.
Qed.

(** A folder that [self.filenames[path]] hands back is a folder of the
    tree. *)
Lemma getitem_folder path w folder :
  (getitem path w).1 = Ok (inr folder) ->
  folder ∈ Fnt.nodes (filenames (rom w)).
Proof.
  unfold getitem, bind, gets.
  destruct (Fnt.getitem path (filenames (rom w))) as [x | e |] eqn:Eg;
    try discriminate.
  cbn. intros [= ->].
  apply LookupFacts.getitem_folder_pieces in Eg as (l & _ & _ & Hsub).
  eapply subfolder_in_nodes, Hsub.
Qed.

Lemma fmap_fst_delete {A B} (l : list (A * B)) i :
  (delete i l).*1 = delete i (l.*1).
Proof.
  revert i. induction l as [| x l IH]; intros i; [destruct i; reflexivity |].
  destruct i as [| i]; [reflexivity |].
  change (delete (S i) (x :: l)) with (x :: delete i l).
  rewrite !fmap_cons. change (delete (S i) (x.1 :: l.*1)) with (x.1 :: delete i (l.*1)).
  rewrite IH. reflexivity.
Qed.

Lemma fmap_fst_map (F : Fnt.Folder -> Fnt.Folder) (l : list (string * Fnt.Folder)) :
  (map (fun fd : string * Fnt.Folder => let '(n, f) := fd in (n, F f)) l).*1 = l.*1.
Proof.
  induction l as [| [n f] l IH]; [reflexivity |].
  cbn [map]. rewrite !fmap_cons, IH. reflexivity.
Qed.

End RemoveFolderFacts.

Module RemoveFolderProperties.
Import Rom NintendoDSRom TreeFacts IndexFacts BookkeepingFacts ResolutionFacts
  JoinFacts FolderFacts FolderMethodFacts DeleteFacts DeleteMethodFacts
  RemoveFolderFacts.

(** X23. [remove_folder] on a well-formed ROM.  Unless it removes a folder, it
    changes nothing; a folder with files or folders is refused.  When it
    removes a folder, the entry of that name and object leaves the
    [folders] list of the parent, the slots are untouched, every path that
    stood for a file stands for the same file, and the bookkeeping is
    well-formed. *)
Theorem remove_folder_takes_an_empty_folder (path : string) (w : World)
    (Hwf : wf w) :
  ((remove_folder path w).1 <> Ok None -> (remove_folder path w).2 = w) /\
  (forall folder,
     (getitem path w).1 = Ok (inr folder) ->
     Fnt.files folder <> [] \/ Fnt.folders folder <> [] ->
     remove_folder path w = (Ok (Some Not_empty), w)) /\
  (forall w',
     remove_folder path w = (Ok None, w') ->
     wf w' /\ files (rom w') = files (rom w) /\
     (forall p fid, Fnt.idOf p (filenames (rom w)) = Ok (Some fid) ->
                    Fnt.idOf p (filenames (rom w')) = Ok (Some fid)) /\
     exists dirs name parent parent' index,
       folder_split path = dirs ++ [name] /\
       Fnt.subfolder dirs (filenames (rom w)) = Some parent /\
       Fnt.subfolder dirs (filenames (rom w')) = Some parent' /\
       (Fnt.folders parent).*1 !! index = Some name /\
       (Fnt.folders parent').*1 = delete index ((Fnt.folders parent).*1)).
Proof.
  rewrite (remove_folder_cases path w). split; [| split].
  - destruct (getitem path w).1 as [[[| fid] | folder] | e |]; try reflexivity.
    destruct (bool_decide _); [reflexivity |].
    destruct (folder_get_parent path w).1 as [[fid | parent] | e |]; try reflexivity.
    destruct (last_component path w).1 as [name | e |]; try reflexivity.
    destruct (Tree.item_index _ _ _); [| reflexivity].
    cbn [fst]. congruence.
  - intros folder -> Hne. rewrite bool_decide_eq_true_2 by exact Hne. reflexivity.
  - intros w'.
    destruct (getitem path w).1 as [[[| fid] | folder] | e |] eqn:Eg;
      try discriminate.
    destruct (bool_decide _) eqn:Eempty; [discriminate |].
    apply bool_decide_eq_false_1 in Eempty.
    assert (Hempty : Fnt.files folder = [] /\ Fnt.folders folder = []).
    { split.
      - destruct (Fnt.files folder); [reflexivity |].
        exfalso. apply Eempty. left. discriminate.
      - destruct (Fnt.folders folder); [reflexivity |].
        exfalso. apply Eempty. right. discriminate. }
    destruct (folder_get_parent path w).1 as [[fid | parent] | e |] eqn:Ep;
      try discriminate.
    destruct (folder_get_parent_folder path w parent Ep) as (dirs & name & Hpath & Hsub).
    rewrite (last_component_spec path dirs name w Hpath). cbn [fst].
    destruct (Tree.item_index name (Fnt.oid folder) (Fnt.folders parent))
      as [index |] eqn:Ei; [| discriminate].
    intros [= <-].
    destruct (item_index_Some _ _ _ _ Ei) as (c & Hc & Hoc).
    apply getitem_folder in Eg. rename Eg into Hfolder.
    set (tree := filenames (rom w)) in *.
    pose proof (subfolder_in_nodes _ _ _ Hsub) as Hparent.
    apply wf_ids_nodes in Hwf. pose proof Hwf as (Hnd & _).
    assert (Hcin : c ∈ Fnt.nodes tree).
    { eapply nodes_trans; [| exact Hparent].
      eapply nodes_child; [exact Hc | apply nodes_self]. }
    pose proof (same_oid_same_node _ _ _ Hnd Hcin Hfolder Hoc) as ->.
    assert (Htree : filenames (rom (set_filenames
              (Tree.delete_folder (Fnt.oid parent) index) w)) =
            Tree.delete_folder (Fnt.oid parent) index tree) by reflexivity.
    rewrite Htree.
    split; [| split; [reflexivity | split]].
    + apply wf_ids_nodes. cbn [set_filenames rom files filenames]. fold tree.
      eapply wf_nodes_keys; [apply nodes_delete_folder | exact Hwf].
    + intros p fid Hp. apply LookupFacts.idOf_Ok in Hp as (l & Hl & Hp).
      rewrite (LookupFacts.idOf_pieces _ _ _ Hl). f_equal.
      apply idOf_path_delete_leaf; [| exact Hp].
      intros u Hu Ho n c0 Hlook.
      pose proof (same_oid_same_node _ _ _ Hnd Hu Hparent Ho) as ->.
      rewrite Hc in Hlook. injection Hlook as <- <-. exact Hempty.
    + exists dirs, name, parent, (Tree.delete_folder (Fnt.oid parent) index parent), index.
      split; [exact Hpath |]. split; [exact Hsub |]. split; [| split].
      * apply subfolder_delete_folder; [exact Hnd | exact Hsub | reflexivity].
      * rewrite list_lookup_fmap, Hc. reflexivity.
      * rewrite folders_delete_folder, decide_True by reflexivity.
        rewrite fmap_fst_delete, fmap_fst_map. reflexivity.
Qed.

Lemma remove_folder_takes_an_empty_folder_witness :
  remove_folder "data" three_files_world = (Ok (Some Not_empty), three_files_world) /\
  exists w1 w2,
    add_folder "data/sub" three_files_world = (Ok tt, w1) /\
    remove_folder "data/sub" w1 = (Ok None, w2) /\
    wf w2 /\ Fnt.idOf "data/c" (filenames (rom w2)) = Ok (Some 2).
Proof.
  assert (Hwf : wf three_files_world) by decide_by_evaluation.
  destruct (remove_folder_takes_an_empty_folder "data" three_files_world Hwf)
    as (_ & Hrefuse & _).
  split.
  - apply (Hrefuse (Fnt.MkFolder 1 1 ["b"; "c"]%string [])); [reflexivity |].
    left. discriminate.
  - set (w1 := (add_folder "data/sub" three_files_world).2).
    assert (Hwf1 : wf w1) by decide_by_evaluation.
    destruct (remove_folder_takes_an_empty_folder "data/sub" w1 Hwf1)
      as (_ & _ & Hremove).
    assert (Hrm : remove_folder "data/sub" w1
                  = (Ok None, (remove_folder "data/sub" w1).2))
      by (vm_compute; reflexivity).
    destruct (Hremove _ Hrm) as (Hwf2 & _ & Hid & _).
    exists w1, (remove_folder "data/sub" w1).2.
    split; [vm_compute; reflexivity |]. split; [exact Hrm |].
    split; [exact Hwf2 |]. apply Hid. vm_compute. reflexivity.
Defined.

End RemoveFolderProperties.

Module MoveFolderFacts.
Import Fnt Tree TreeFacts BookkeepingFacts IndexFacts ResolutionFacts FolderFacts
  DeleteFacts DeleteMethodFacts.

(** A tree without the object [target] is left as it is. *)
Lemma delete_folder_absent target index t :
  target ∉ oid <$> nodes t -> delete_folder target index t = t.
Proof.
  induction t as [o fid fs fds IH] using Folder_tree_ind. intros Hout.
  rewrite nodes_cons, fmap_cons in Hout. apply not_elem_of_cons in Hout as [Ho Hout].
  cbn [oid] in Ho. cbn [delete_folder oid firstID files folders].
  rewrite decide_False by congruence. f_equal.
  induction IH as [| [n c] fds Hc _ IHfds]; [reflexivity |]. cbn [snd] in Hc.
  cbn [flat_map snd] in Hout. rewrite fmap_app in Hout.
  apply not_elem_of_app in Hout as [Hc' Hrest].
  cbn [map]. rewrite (Hc Hc'), (IHfds Hrest). reflexivity.
Qed.

Lemma map_delete_folder_absent target index (fds : list (string * Folder)) :
  target ∉ oid <$> flat_map (fun fd : string * Folder => nodes fd.2) fds ->
  map (fun fd : string * Folder =>
         let '(m, f) := fd in (m, delete_folder target index f)) fds = fds.
Proof.
  induction fds as [| [m f] fds IH]; intros Hout; [reflexivity |].
  cbn [flat_map snd] in Hout. rewrite fmap_app in Hout.
  apply not_elem_of_app in Hout as [Hf Hrest].
  cbn [map]. rewrite (delete_folder_absent _ _ _ Hf), (IH Hrest). reflexivity.
Qed.

Lemma flat_map_delete_perm {A B} (f : A -> list B) (l : list A) i x :
  l !! i = Some x -> flat_map f l ≡ₚ flat_map f (delete i l) ++ f x.
Proof.
  intros Hi. rewrite <- (take_drop_middle l i x Hi) at 1.
  rewrite delete_take_drop, !flat_map_app. cbn [flat_map].
  rewrite <- !app_assoc. apply Permutation_app_head. apply Permutation_app_comm.
Qed.

(** The folders of the tree after an item has left the [folders] list of
    the object [p]: those that were there, without the folders of the
    item. *)
Lemma nodes_delete_folder_perm index n c p t :
  NoDup (oid <$> nodes t) -> p ∈ nodes t ->
  folders p !! index = Some (n, c) ->
  key <$> nodes t ≡ₚ
    (key <$> nodes (delete_folder (oid p) index t)) ++ (key <$> nodes c).
Proof.
  intros Hnd Hp Hi. induction t as [o fid fs fds IH] using Folder_tree_ind.
  set (t := MkFolder o fid fs fds) in *.
  set (D' := fun fd : string * Folder =>
               let '(m, f) := fd in (m, delete_folder (oid p) index f)).
  pose proof Hnd as Hnd0.
  unfold t in Hnd. rewrite nodes_cons, fmap_cons in Hnd. apply NoDup_cons in Hnd as [Ho Hndk].
  cbn [oid] in Ho.
  rewrite (nodes_unfold (delete_folder _ _ _)), folders_delete_folder.
  rewrite (nodes_unfold t), !fmap_cons, key_delete_folder.
  rewrite <- app_comm_cons. apply Permutation_cons; [reflexivity |].
  cbn [folders oid t].
  destruct (decide (o = oid p)) as [Heq | Hne].
  - assert (p = t) as Hpt.
    { eapply same_oid_same_node; [exact Hnd0 | exact Hp | apply nodes_self |].
      symmetry. exact Heq. }
    assert (Hsame : map D' fds = fds).
    { apply map_delete_folder_absent. rewrite <- Heq. exact Ho. }
    unfold D' in Hsame. rewrite Hsame. rewrite Hpt in Hi. cbn [folders t] in Hi.
    rewrite <- fmap_app. apply fmap_Permutation.
    apply (flat_map_delete_perm (fun fd : string * Folder => nodes fd.2) fds index (n, c) Hi).
  - unfold t in Hp. rewrite nodes_cons in Hp.
    apply elem_of_cons in Hp as [Hp | Hp]; [subst p; cbn in Hne; congruence |].
    clear Ho Hnd0 t. revert Hndk Hp.
    induction IH as [| [m f] fds Hf _ IHfds]; intros Hndk Hp;
      [cbn in Hp; inversion Hp |].
    cbn [flat_map snd map D'] in *. rewrite !fmap_app in *.
    apply NoDup_app in Hndk as (Hndf & Hdisj & Hndr).
    apply elem_of_app in Hp as [Hp | Hp].
    + rewrite (Hf Hndf Hp) at 1.
      assert (Hsame : map D' fds = fds).
      { apply map_delete_folder_absent. apply Hdisj.
        apply list_elem_of_fmap_2 with (f := oid), Hp. }
      unfold D' in Hsame. rewrite Hsame. rewrite <- !app_assoc. apply Permutation_app_head.
      apply Permutation_app_comm.
    + assert (Hout : oid p ∉ oid <$> nodes f).
      { intros Hin. apply (Hdisj _ Hin). apply list_elem_of_fmap_2, Hp. }
      rewrite (delete_folder_absent _ _ _ Hout).
      rewrite <- app_assoc. apply Permutation_app_head.
      apply IHfds; assumption.
Qed.

(** Putting the folder of an item back under another name changes no
    folder. *)
Lemma flat_map_nodes_insert (l : list (string * Folder)) i n f name :
  l !! i = Some (n, f) ->
  flat_map (fun fd : string * Folder => nodes fd.2) (<[i := (name, f)]> l)
  = flat_map (fun fd : string * Folder => nodes fd.2) l.
Proof.
  revert i. induction l as [| [m g] l IH]; intros i Hi; [discriminate |].
  destruct i as [| i].
  - cbn in Hi. injection Hi as -> ->. reflexivity.
  - change (<[S i := (name, f)]> ((m, g) :: l)) with ((m, g) :: <[i := (name, f)]> l).
    cbn [flat_map]. rewrite (IH i Hi). reflexivity.
Qed.

Lemma nodes_rename_folder_item target index name t :
  key <$> nodes (rename_folder_item target index name t) = key <$> nodes t.
Proof.
  induction t as [o fid fs fds IH] using Folder_tree_ind.
  set (R' := fun fd : string * Folder =>
               let '(m, f) := fd in (m, rename_folder_item target index name f)).
  assert (Hkids : key <$> flat_map (fun fd : string * Folder => nodes fd.2) (map R' fds)
                  = key <$> flat_map (fun fd : string * Folder => nodes fd.2) fds).
  { induction IH as [| [m c] fds Hc _ IHfds]; [reflexivity |]. cbn [snd] in Hc.
    cbn [map flat_map snd R']. rewrite !fmap_app, Hc, IHfds. reflexivity. }
  cbn [rename_folder_item oid firstID files folders]. fold R'.
  rewrite !nodes_cons, !fmap_cons. cbn [key oid firstID files]. f_equal.
  destruct (decide (o = target)); [| exact Hkids].
  destruct (map R' fds !! index) as [[m f] |] eqn:E; [| exact Hkids].
  rewrite (flat_map_nodes_insert _ _ _ _ _ E). exact Hkids.
Qed.

End MoveFolderFacts.

Module RenameFolderFacts.
Import Fnt Tree TreeFacts BookkeepingFacts IndexFacts ResolutionFacts FolderFacts
  DeleteFacts DeleteMethodFacts MoveFolderFacts.

(** The folders below a folder of the tree are distinct objects. *)
Lemma nodes_NoDup_below t :
  NoDup (oid <$> nodes t) -> forall f, f ∈ nodes t -> NoDup (oid <$> nodes f).
Proof.
  induction t as [o fid fs fds IH] using Folder_tree_ind. intros Hnd f Hf.
  rewrite nodes_cons in Hf. apply elem_of_cons in Hf as [-> | Hf]; [exact Hnd |].
  rewrite nodes_cons, fmap_cons in Hnd. apply NoDup_cons in Hnd as [_ Hndk].
  induction IH as [| [m c] fds Hc _ IHfds]; [inversion Hf |].
  cbn [flat_map snd] in *. rewrite fmap_app in Hndk.
  apply NoDup_app in Hndk as (Hndc & _ & Hndr).
  apply elem_of_app in Hf as [Hf | Hf]; [apply Hc | apply IHfds]; assumption.
Qed.

Lemma oid_key (ns : list Folder) : oid <$> ns = (fun k : nat * nat * list string => k.1.1) <$> (key <$> ns).
Proof. rewrite <- list_fmap_compose. reflexivity. Qed.

(** After the item of the folder [f] has left the list of [p], a folder
    of the old tree is in the new tree exactly when it is not [f] or
    below it. *)
Lemma delete_folder_keeps index n f p t g :
  NoDup (oid <$> nodes t) -> p ∈ nodes t -> folders p !! index = Some (n, f) ->
  g ∈ nodes t ->
  (oid g ∈ oid <$> nodes (delete_folder (oid p) index t) <-> g ∉ nodes f).
Proof.
  intros Hnd Hp Hi Hg.
  pose proof (nodes_delete_folder_perm index n f p t Hnd Hp Hi) as Hperm.
  assert (Hoids : oid <$> nodes t ≡ₚ
                  (oid <$> nodes (delete_folder (oid p) index t)) ++ (oid <$> nodes f)).
  { rewrite !oid_key, <- fmap_app. apply fmap_Permutation. exact Hperm. }
  assert (Hf : forall u, u ∈ nodes f -> u ∈ nodes t).
  { intros u Hu. eapply nodes_trans; [| exact Hp]. eapply nodes_child; eauto. }
  pose proof Hnd as Hnd'. rewrite Hoids in Hnd'.
  apply NoDup_app in Hnd' as (_ & Hdisj & _).
  split.
  - intros Hin Hgf. apply (Hdisj _ Hin). apply list_elem_of_fmap_2, Hgf.
  - intros Hout. assert (Hin : oid g ∈ oid <$> nodes t) by apply list_elem_of_fmap_2, Hg.
    rewrite Hoids in Hin. apply elem_of_app in Hin as [Hin | Hin]; [exact Hin |].
    exfalso. apply Hout.
    apply list_elem_of_fmap in Hin as (u & Ho & Hu).
    rewrite (same_oid_same_node _ _ _ Hnd Hg (Hf u Hu) Ho). exact Hu.
Qed.

End RenameFolderFacts.

Module RenameFolderProperties.
Import Rom NintendoDSRom TreeFacts IndexFacts BookkeepingFacts ResolutionFacts
  JoinFacts FolderFacts FolderMethodFacts DeleteFacts DeleteMethodFacts
  RemoveFolderFacts MoveFolderFacts RenameFolderFacts.

(** X24. [rename_folder] on a well-formed ROM, when it returns.  The slots are
    untouched and the bookkeeping stays well-formed.  When the new parent
    is not the folder itself or a folder below it, the tree has the same
    folder objects, each with its first ID and its files.  When it is, the
    folder and everything below it has left the tree: the tree has the
    other folder objects only. *)
Theorem rename_folder_keeps_or_detaches (old_path new_path : string) (w w' : World)
    (Hwf : wf w) (Hrn : rename_folder old_path new_path w = (Ok tt, w')) :
  wf w' /\ files (rom w') = files (rom w) /\
  exists folder new_parent,
    (getitem old_path w).1 = Ok (inr folder) /\
    (folder_get_parent new_path w).1 = Ok (inr new_parent) /\
    (new_parent ∉ Fnt.nodes folder ->
       Tree.key <$> Fnt.nodes (filenames (rom w')) ≡ₚ Tree.key <$> Fnt.nodes (filenames (rom w))) /\
    (new_parent ∈ Fnt.nodes folder ->
       (Tree.key <$> Fnt.nodes (filenames (rom w'))) ++ (Tree.key <$> Fnt.nodes folder)
         ≡ₚ Tree.key <$> Fnt.nodes (filenames (rom w))).
Proof.
  unfold rename_folder in Hrn.
  unfold bind at 1 in Hrn. pose proof (getitem_state old_path w) as Hst.
  destruct (getitem old_path w) as [[folder | e |] w1] eqn:Eg;
    cbn [fst snd] in *; subst w1; try discriminate.
  unfold bind at 1 in Hrn. pose proof (folder_get_parent_state old_path w) as Hst.
  destruct (folder_get_parent old_path w) as [[old_parent | e |] w1] eqn:Eop;
    cbn [fst snd] in *; subst w1; try discriminate.
  unfold bind at 1 in Hrn. pose proof (folder_get_parent_state new_path w) as Hst.
  destruct (folder_get_parent new_path w) as [[new_parent | e |] w1] eqn:Enp;
    cbn [fst snd] in *; subst w1; try discriminate.
  unfold bind at 1 in Hrn. pose proof (last_component_state old_path w) as Hst.
  destruct (last_component old_path w) as [[old_name | e |] w1] eqn:Eon;
    cbn [fst snd] in *; subst w1; try discriminate.
  unfold bind at 1 in Hrn. pose proof (last_component_state new_path w) as Hst.
  destruct (last_component new_path w) as [[new_name | e |] w1] eqn:Enn;
    cbn [fst snd] in *; subst w1; try discriminate.
  destruct old_parent as [fid | op]; [discriminate |].
  destruct folder as [fid | f]; [discriminate |].
  destruct (Tree.item_index old_name (Fnt.oid f) (Fnt.folders op)) as [index |] eqn:Ei;
    [| discriminate].
  destruct (item_index_Some _ _ _ _ Ei) as (c & Hc & Hoc).
  assert (Hg : (getitem old_path w).1 = Ok (inr f)) by (rewrite Eg; reflexivity).
  assert (Hop : (folder_get_parent old_path w).1 = Ok (inr op)) by (rewrite Eop; reflexivity).
  apply getitem_folder in Hg.
  destruct (folder_get_parent_folder _ _ _ Hop) as (odirs & oname & _ & Hosub).
  set (tree := filenames (rom w)) in *.
  pose proof Hg as Hfin.
  pose proof (subfolder_in_nodes _ _ _ Hosub) as Hopin.
  apply wf_ids_nodes in Hwf. pose proof Hwf as (Hnd & _).
  assert (Hcin : c ∈ Fnt.nodes tree).
  { eapply nodes_trans; [| exact Hopin].
    eapply nodes_child; [exact Hc | apply nodes_self]. }
  pose proof (same_oid_same_node _ _ _ Hnd Hcin Hfin Hoc) as ->.
  destruct (differ (inr op) new_parent) eqn:Ed.
  - destruct new_parent as [fid | np]; [discriminate |].
    assert (Hnp : (folder_get_parent new_path w).1 = Ok (inr np)) by (rewrite Enp; reflexivity).
    destruct (folder_get_parent_folder _ _ _ Hnp) as (ndirs & nname & _ & Hnsub).
    fold tree in Hnsub. pose proof (subfolder_in_nodes _ _ _ Hnsub) as Hnpin.
    injection Hrn as <-.
    set (tree1 := Tree.delete_folder (Fnt.oid op) index tree).
    assert (Htree : filenames (rom (set_filenames
              (Tree.append_folder (Fnt.oid np) (new_name, f))
              (set_filenames (Tree.delete_folder (Fnt.oid op) index) w))) =
            Tree.append_folder (Fnt.oid np) (new_name, f) tree1) by reflexivity.
    rewrite Htree.
    pose proof (nodes_delete_folder_perm index old_name f op tree Hnd Hopin Hc) as Hperm.
    fold tree1 in Hperm.
    assert (Hwf1 : Fnt.wf_nodes (length (files (rom w))) (Fnt.nodes tree1)).
    { eapply wf_nodes_keys; [apply nodes_delete_folder | exact Hwf]. }
    pose proof Hwf1 as (Hnd1 & _).
    pose proof (nodes_append_folder (Fnt.oid np) (new_name, f) tree1 Hnd1) as Happ.
    pose proof (delete_folder_keeps index old_name f op tree np Hnd Hopin Hc Hnpin) as Hiff.
    fold tree1 in Hiff. cbn [snd] in Happ.
    split; [| split; [reflexivity |]].
    + apply wf_ids_nodes. cbn [set_filenames rom files filenames]. fold tree tree1.
      eapply wf_nodes_keys; [| exact Hwf].
      change (filenames (rom w)) with tree.
      rewrite Happ, Hperm. apply submseteq_app; [reflexivity |].
      destruct (decide _); [reflexivity | apply submseteq_nil_l].
    + exists f, np. split; [reflexivity |]. split; [reflexivity |]. split.
      * intros Hout. rewrite Happ, Hperm.
        rewrite decide_True by (apply Hiff, Hout). reflexivity.
      * intros Hin. rewrite Happ, Hperm.
        rewrite decide_False by (intros Hx; apply Hiff in Hx; exact (Hx Hin)).
        rewrite app_nil_r. reflexivity.
  - destruct new_parent as [fid | np]; [discriminate |].
    cbn [differ] in Ed. apply bool_decide_eq_false_1 in Ed.
    assert (Ho : Fnt.oid op = Fnt.oid np).
    { destruct (decide (Fnt.oid op = Fnt.oid np)); [assumption | contradiction]. }
    assert (Hnp : (folder_get_parent new_path w).1 = Ok (inr np)) by (rewrite Enp; reflexivity).
    destruct (folder_get_parent_folder _ _ _ Hnp) as (ndirs & nname & _ & Hnsub).
    fold tree in Hnsub. pose proof (subfolder_in_nodes _ _ _ Hnsub) as Hnpin.
    pose proof (same_oid_same_node _ _ _ Hnd Hopin Hnpin Ho) as <-.
    injection Hrn as <-.
    assert (Htree : filenames (rom (set_filenames
              (Tree.rename_folder_item (Fnt.oid op) index new_name) w)) =
            Tree.rename_folder_item (Fnt.oid op) index new_name tree) by reflexivity.
    rewrite Htree.
    split; [| split; [reflexivity |]].
    + apply wf_ids_nodes. cbn [set_filenames rom files filenames]. fold tree.
      eapply wf_nodes_keys; [| exact Hwf].
      rewrite nodes_rename_folder_item. reflexivity.
    + exists f, op. split; [reflexivity |]. split; [reflexivity |]. split.
      * intros _. rewrite nodes_rename_folder_item. reflexivity.
      * intros Hin. exfalso.
        pose proof (nodes_NoDup_below tree Hnd op Hopin) as Hndop.
        destruct (child_NoDup _ _ _ _ Hndop Hc) as [_ Hout].
        apply Hout. apply list_elem_of_fmap_2, Hin.
Qed.

Lemma rename_folder_keeps_or_detaches_witness :
  let w1 := (add_folder "data/sub" three_files_world).2 in
  (wf (rename_folder "data" "info" w1).2 /\
   Fnt.idOf "info/c" (filenames (rom (rename_folder "data" "info" w1).2)) = Ok (Some 2)) /\
  (wf (rename_folder "data" "data/sub/x" w1).2 /\
   files (rom (rename_folder "data" "data/sub/x" w1).2) = files (rom w1) /\
   Fnt.idOf "data/c" (filenames (rom (rename_folder "data" "data/sub/x" w1).2))
   = Ok None).
Proof.
  intros w1.
  assert (Hwf1 : wf w1) by decide_by_evaluation.
  split.
  - split; [| vm_compute; reflexivity].
    apply (rename_folder_keeps_or_detaches "data" "info" w1 _ Hwf1).
    vm_compute. reflexivity.
  - assert (Hrn : rename_folder "data" "data/sub/x" w1
                  = (Ok tt, (rename_folder "data" "data/sub/x" w1).2))
      by (vm_compute; reflexivity).
    destruct (rename_folder_keeps_or_detaches _ _ _ _ Hwf1 Hrn) as (Hwf2 & Hfiles & _).
    split; [exact Hwf2 |]. split; [exact Hfiles |]. vm_compute. reflexivity.
Defined.

End RenameFolderProperties.
